(** * Conway's Game of Life (game_of_life.c): a shallow embedding

    The C program keeps the board in [gol_context_t]: two [size_t]
    dimensions and an array of row pointers.  This development embeds the
    functions of [game_of_life.c] that compute on the board
    ([is_valid_position], [count_neighbors], [simulate_step],
    [handle_mouse_click], [initialize_grid_random],
    [initialize_grid_manual], [parse_manual_config]), one tick of
    [run_simulation], and [allocate_grid] over a small heap.

    Conventions.
    - C integers are [Z] with the wrap-around written out: [size_t] is
      64 bits, [int] and [unsigned int] are 32 bits (LP64, the platform of
      the compilation line in the file header).
    - An access [ctx->grid[r][c]] outside the allocated array is undefined
      behaviour in C; here it is [None] in the [option] monad, so a result
      [Some _] also says that every access stayed inside the array. *)

From Stdlib Require Import ZArith Lia List Bool Ascii String.
From stdpp Require Import base tactics option list list_numbers strings gmap.

Local Open Scope Z_scope.

(* ===================================================================== *)
(** ** Machine integers *)
(* ===================================================================== *)

Definition INT_MAX : Z := 2147483647.
Definition INT_MIN : Z := -2147483648.
Definition UINT_MODULUS : Z := 4294967296.
Definition SIZE_MODULUS : Z := 18446744073709551616.

(** Conversion to [int]: reduction modulo 2^32 into [INT_MIN, INT_MAX]
    (what gcc and clang define for an out-of-range value). *)
Definition to_int (z : Z) : Z := (z - INT_MIN) mod UINT_MODULUS + INT_MIN.

(** Conversion to [unsigned int] and to [size_t]. *)
Definition to_uint (z : Z) : Z := z mod UINT_MODULUS.
Definition to_size_t (z : Z) : Z := z mod SIZE_MODULUS.

(** [int] addition, wrapping.  (An overflow is undefined in C; the one
    addition of the program, [(int)row + dr], overflows only from
    [INT_MAX], an index that a grid with dimensions up to [INT_MAX] does
    not have.) *)
Definition int_add (a b : Z) : Z := to_int (a + b).

(* ===================================================================== *)
(** ** Constants, cell states, return codes, records *)
(* ===================================================================== *)

Definition CELL_SIZE : Z := 8.
Definition BUFFER_SIZE : Z := 2048.
Definition FRAME_DELAY_MS : Z := 25.
Definition NEIGHBORS_TO_BIRTH : Z := 3.
Definition MIN_NEIGHBORS_TO_SURVIVE : Z := 2.
Definition MAX_NEIGHBORS_TO_SURVIVE : Z := 3.
Definition CONFIG_RANDOM : string := "random".
Definition CONFIG_MANUAL : string := "manual".

Inductive cell_state_t : Type :=
| CELL_DEAD
| CELL_ALIVE
| CELL_DYING
| CELL_BIRTH.

(** The enumerators' values in the C enum. *)
Definition cell_value (s : cell_state_t) : Z :=
  match s with
  | CELL_DEAD => 0
  | CELL_ALIVE => 1
  | CELL_DYING => -1
  | CELL_BIRTH => -2
  end.

#[global] Instance cell_state_eq_dec : EqDecision cell_state_t.
Proof. solve_decision. Defined.

Definition cell_eqb (a b : cell_state_t) : bool := bool_decide (a = b).

Inductive gol_result_t : Type :=
| GOL_SUCCESS
| GOL_ERROR_ARGS
| GOL_ERROR_FILE
| GOL_ERROR_CONFIG
| GOL_ERROR_SDL
| GOL_ERROR_MEMORY.

(** The process exit code of each result. *)
Definition result_code (r : gol_result_t) : Z :=
  match r with
  | GOL_SUCCESS => 0
  | GOL_ERROR_ARGS => 1
  | GOL_ERROR_FILE => 2
  | GOL_ERROR_CONFIG => 3
  | GOL_ERROR_SDL => 4
  | GOL_ERROR_MEMORY => 5
  end.

Record gol_config_t : Type := mk_config {
  cfg_rows : Z;
  cfg_cols : Z;
  steps : Z;
  seed : Z;
  config_type : string
}.

(** The board as the row-pointer array describes it: a list of rows. *)
Abbreviation grid_t := (list (list cell_state_t)).

(** [gol_context_t] without its two SDL handles. *)
Record gol_context_t : Type := mk_context {
  rows : Z;
  cols : Z;
  grid : grid_t;
  config : gol_config_t
}.

Definition with_grid (ctx : gol_context_t) (g : grid_t) : gol_context_t :=
  {| rows := rows ctx; cols := cols ctx; grid := g; config := config ctx |}.

(* ===================================================================== *)
(** ** Array access *)
(* ===================================================================== *)

(** [g[r][c]] as an rvalue. *)
Definition grid_get (g : grid_t) (r c : Z) : option cell_state_t :=
  if (0 <=? r) && (0 <=? c)
  then row ← g !! Z.to_nat r; row !! Z.to_nat c
  else None.

(** [g[r][c] = v]. *)
Definition grid_set (g : grid_t) (r c : Z) (v : cell_state_t) : option grid_t :=
  match grid_get g r c with
  | Some _ => Some (alter (fun row => <[Z.to_nat c := v]> row) (Z.to_nat r) g)
  | None => None
  end.

Definition get_cell (ctx : gol_context_t) (r c : Z) : option cell_state_t :=
  grid_get (grid ctx) r c.

Definition set_cell (ctx : gol_context_t) (r c : Z) (v : cell_state_t)
  : option gol_context_t :=
  g ← grid_set (grid ctx) r c v; Some (with_grid ctx g).

(** A [for] loop over a list of index values, threading the state and
    stopping at the first failed access. *)
Fixpoint for_each {St I : Type} (body : St -> I -> option St) (s : St)
  (l : list I) : option St :=
  match l with
  | [] => Some s
  | i :: l' => s' ← body s i; for_each body s' l'
  end.

(** [for (size_t i = 0; i < n; i++)]. *)
Definition for_range {St : Type} (body : St -> Z -> option St) (s : St)
  (n : Z) : option St :=
  for_each body s (seqZ 0 n).

(* ===================================================================== *)
(** ** Grid model: bounds and neighbours *)
(* ===================================================================== *)

Definition is_valid_position (ctx : gol_context_t) (row col : Z) : bool :=
  (0 <=? row) && (row <? to_int (rows ctx)) &&
  (0 <=? col) && (col <? to_int (cols ctx)).

(** [state == CELL_ALIVE || state == CELL_DYING]. *)
Definition counts_as_alive (state : cell_state_t) : bool :=
  cell_eqb state CELL_ALIVE || cell_eqb state CELL_DYING.

(** The body of the two nested loops of [count_neighbors]. *)
Definition visit_neighbor (ctx : gol_context_t) (row col dr dc count : Z)
  : option Z :=
  if (dr =? 0) && (dc =? 0) then Some count
  else
    let nr := int_add (to_int row) dr in
    let nc := int_add (to_int col) dc in
    if is_valid_position ctx nr nc then
      state ← get_cell ctx nr nc;
      if counts_as_alive state then Some (count + 1) else Some count
    else Some count.

Definition count_neighbors (ctx : gol_context_t) (row col : Z) : option Z :=
  for_each (fun count dr =>
      for_each (fun count dc => visit_neighbor ctx row col dr dc count)
               count [-1; 0; 1])
    0 [-1; 0; 1].

(* ===================================================================== *)
(** ** Step engine *)
(* ===================================================================== *)

(** The body of the mark loops: one cell examined and possibly marked. *)
Definition mark_cell (ctx : gol_context_t) (i j : Z) : option gol_context_t :=
  neighbors ← count_neighbors ctx i j;
  current ← get_cell ctx i j;
  if cell_eqb current CELL_ALIVE then
    if (neighbors <? MIN_NEIGHBORS_TO_SURVIVE)
       || (neighbors >? MAX_NEIGHBORS_TO_SURVIVE)
    then set_cell ctx i j CELL_DYING
    else Some ctx
  else if cell_eqb current CELL_DEAD then
    if neighbors =? NEIGHBORS_TO_BIRTH
    then set_cell ctx i j CELL_BIRTH
    else Some ctx
  else Some ctx.

(** The body of the commit loops. *)
Definition commit_cell (ctx : gol_context_t) (i j : Z) : option gol_context_t :=
  state ← get_cell ctx i j;
  if cell_eqb state CELL_DYING then set_cell ctx i j CELL_DEAD
  else if cell_eqb state CELL_BIRTH then set_cell ctx i j CELL_ALIVE
  else Some ctx.

Definition mark_phase (ctx : gol_context_t) : option gol_context_t :=
  for_range (fun ctx i =>
      for_range (fun ctx j => mark_cell ctx i j) ctx (cols ctx))
    ctx (rows ctx).

Definition commit_phase (ctx : gol_context_t) : option gol_context_t :=
  for_range (fun ctx i =>
      for_range (fun ctx j => commit_cell ctx i j) ctx (cols ctx))
    ctx (rows ctx).

Definition simulate_step (ctx : gol_context_t) : option gol_context_t :=
  ctx' ← mark_phase ctx; commit_phase ctx'.

(** The mark loops with the cells visited in a given order instead of row
    by row; [mark_phase] is the instance at [row_major]. *)
Definition mark_in_order (order : list (Z * Z)) (ctx : gol_context_t)
  : option gol_context_t :=
  for_each (fun ctx p => mark_cell ctx p.1 p.2) ctx order.

Definition row_major (n m : Z) : list (Z * Z) :=
  i ← seqZ 0 n; j ← seqZ 0 m; [(i, j)].

Definition simulate_step_in_order (order : list (Z * Z)) (ctx : gol_context_t)
  : option gol_context_t :=
  ctx' ← mark_in_order order ctx; commit_phase ctx'.

(* ===================================================================== *)
(** ** Interaction handler *)
(* ===================================================================== *)

(** [x] and [y] are [int]; [/] is C division, truncating towards zero. *)
Definition handle_mouse_click (ctx : gol_context_t) (x y : Z)
  : option gol_context_t :=
  let col := to_size_t (x ÷ CELL_SIZE) in
  let row := to_size_t (y ÷ CELL_SIZE) in
  if (row <? rows ctx) && (col <? cols ctx) then
    state ← get_cell ctx row col;
    set_cell ctx row col
      (if cell_eqb state CELL_ALIVE then CELL_DEAD else CELL_ALIVE)
  else Some ctx.

(* ===================================================================== *)
(** ** Initializer: random *)
(* ===================================================================== *)

Section Random.
(** The C library's generator.  [srand] replaces the hidden state,
    [rand] reads and advances it; neither is code of this program. *)
Context {rng_state : Type}.
Variable srand : Z -> rng_state.
Variable rand : rng_state -> Z * rng_state.

(** [ctx->grid[i][j] = (rand() % 2) ? CELL_ALIVE : CELL_DEAD]. *)
Definition random_cell (st : gol_context_t * rng_state) (i j : Z)
  : option (gol_context_t * rng_state) :=
  let (v, rng') := rand st.2 in
  ctx' ← set_cell st.1 i j
           (if negb (Z.rem v 2 =? 0) then CELL_ALIVE else CELL_DEAD);
  Some (ctx', rng').

(** The two loops, from a generator state. *)
Definition fill_random (st : gol_context_t * rng_state)
  : option (gol_context_t * rng_state) :=
  for_range (fun st i =>
      for_range (fun st j => random_cell st i j) st (cols st.1))
    st (rows st.1).

(** [now] is the value of [time(NULL)]. *)
Definition initialize_grid_random (ctx : gol_context_t) (now : Z)
  : option (gol_context_t * rng_state) :=
  let seed0 := seed (config ctx) in
  let seed1 := if seed0 =? 0 then to_uint now else seed0 in
  fill_random (ctx, srand seed1).
End Random.

(** The portable generator that the C standard prints as an example
    (7.22.2.2), used below only to exhibit two runs that differ. *)
Definition iso_srand (seed1 : Z) : Z := seed1.
Definition iso_rand (next : Z) : Z * Z :=
  let next' := (next * 1103515245 + 12345) mod SIZE_MODULUS in
  (to_uint (next' / 65536) mod 32768, next').

(* ===================================================================== *)
(** ** Initializer: manual *)
(* ===================================================================== *)

Definition NUL : ascii := "000"%char.
Definition newline : ascii := "010"%char.

(** What one [fgets(buffer, n + 1, file)] stores: at most [n] characters,
    ending after the first newline; and what it leaves in the stream. *)
Fixpoint fgets_take (n : nat) (stream : list ascii) : list ascii * list ascii :=
  match n, stream with
  | O, _ => ([], stream)
  | _, [] => ([], [])
  | S n', c :: stream' =>
      if Ascii.eqb c newline then ([c], stream')
      else let (b, r) := fgets_take n' stream' in (c :: b, r)
  end.

(** [fgets(buffer, sizeof(buffer), file)]; [None] is the null result at
    end of file. *)
Definition fgets (stream : list ascii) : option (list ascii * list ascii) :=
  match stream with
  | [] => None
  | _ => Some (fgets_take (Z.to_nat (BUFFER_SIZE - 1)) stream)
  end.

(** The buffers that the calls of [while (fgets(...))] deliver, in order.
    Every call takes at least one character, so [fuel] the length of the
    stream is enough ([file_buffers_concat] below). *)
Fixpoint fgets_loop (fuel : nat) (stream : list ascii) : list (list ascii) :=
  match fuel with
  | O => []
  | S fuel' =>
      match fgets stream with
      | None => []
      | Some (buffer, rest) => buffer :: fgets_loop fuel' rest
      end
  end.

Definition file_buffers (content : list ascii) : list (list ascii) :=
  fgets_loop (length content) content.

(** The buffer as C reads it: the characters before the first NUL. *)
Fixpoint c_string (buffer : list ascii) : list ascii :=
  match buffer with
  | [] => []
  | c :: rest => if Ascii.eqb c NUL then [] else c :: c_string rest
  end.

(** [buffer[0]] of a C string; the terminator when it is empty. *)
Definition first_char (s : list ascii) : ascii :=
  match s with
  | [] => NUL
  | c :: _ => c
  end.

(** [strncmp(buffer, prefix, strlen(prefix)) == 0]. *)
Fixpoint starts_with (prefix s : list ascii) : bool :=
  match prefix, s with
  | [], _ => true
  | _ :: _, [] => false
  | a :: prefix', b :: s' => Ascii.eqb a b && starts_with prefix' s'
  end.

Definition grid_marker : list ascii := list_ascii_of_string "@grid".

Definition is_alive_marker (c : ascii) : bool :=
  Ascii.eqb c "1" || Ascii.eqb c "#" || Ascii.eqb c "*" || Ascii.eqb c "X".

Definition is_dead_marker (c : ascii) : bool :=
  Ascii.eqb c "0" || Ascii.eqb c "." || Ascii.eqb c " ".

(** The inner [for] loop over the characters of one pattern line. *)
Fixpoint parse_row (ctx : gol_context_t) (current_row : Z) (chars : list ascii)
  (col : Z) : option gol_context_t :=
  match chars with
  | [] => Some ctx
  | c :: rest =>
      if col <? cols ctx then
        if is_alive_marker c then
          ctx' ← set_cell ctx current_row col CELL_ALIVE;
          parse_row ctx' current_row rest (col + 1)
        else if is_dead_marker c then
          ctx' ← set_cell ctx current_row col CELL_DEAD;
          parse_row ctx' current_row rest (col + 1)
        else parse_row ctx current_row rest col
      else Some ctx
  end.

Record parse_state : Type := mk_parse_state {
  in_grid_section : bool;
  current_row : Z;
  parse_ctx : gol_context_t
}.

(** The body of the [while] loop of [parse_manual_config]. *)
Definition parse_line (st : parse_state) (buffer : list ascii)
  : option parse_state :=
  let s := c_string buffer in
  if Ascii.eqb (first_char s) newline || Ascii.eqb (first_char s) "#"
  then Some st
  else if starts_with grid_marker s
  then Some (mk_parse_state true 0 (parse_ctx st))
  else if in_grid_section st then
    if Ascii.eqb (first_char s) "@" then Some st
    else if current_row st <? rows (parse_ctx st) then
      ctx' ← parse_row (parse_ctx st) (current_row st) s 0;
      Some (mk_parse_state (in_grid_section st) (current_row st + 1) ctx')
    else Some st
  else Some st.

Definition parse_buffers (ctx : gol_context_t) (buffers : list (list ascii))
  : option parse_state :=
  for_each parse_line (mk_parse_state false 0 ctx) buffers.

(** Lines written to the error stream. *)
Inductive message : Type :=
| msg_cannot_open
| msg_rows_missing (given wanted : Z).

(** [file] is the content of the file, [None] when [fopen] fails. *)
Definition parse_manual_config (file : option (list ascii))
  (ctx : gol_context_t) : option (gol_result_t * gol_context_t * list message) :=
  match file with
  | None => Some (GOL_ERROR_FILE, ctx, [msg_cannot_open])
  | Some content =>
      st ← parse_buffers ctx (file_buffers content);
      Some (GOL_SUCCESS, parse_ctx st,
            if in_grid_section st && (current_row st <? rows (parse_ctx st))
            then [msg_rows_missing (current_row st) (rows (parse_ctx st))]
            else [])
  end.

Definition clear_grid (ctx : gol_context_t) : option gol_context_t :=
  for_range (fun ctx i =>
      for_range (fun ctx j => set_cell ctx i j CELL_DEAD) ctx (cols ctx))
    ctx (rows ctx).

Definition initialize_grid_manual (ctx : gol_context_t)
  (file : option (list ascii)) : option (gol_context_t * list message) :=
  ctx1 ← clear_grid ctx;
  r ← parse_manual_config file ctx1;
  Some (r.1.2, r.2).

(* ===================================================================== *)
(** ** Simulation loop *)
(* ===================================================================== *)

Inductive keysym : Type :=
| SDLK_SPACE
| SDLK_r
| SDLK_other.

(** The events [SDL_PollEvent] hands over, by [event.type]. *)
Inductive event : Type :=
| SDL_QUIT
| SDL_MOUSEBUTTONDOWN (button x y : Z)
| SDL_KEYDOWN (sym : keysym)
| SDL_other_event.

Definition SDL_BUTTON_LEFT : Z := 1.

(** What a tick does to the outside: frames drawn, generations computed,
    delays slept, in the order of the calls. *)
Inductive effect : Type :=
| Rendered (g : grid_t)
| Stepped
| Delayed (ms : Z).

(** The locals of [run_simulation] with the context and the effects so
    far. *)
Record sim_state {rng_state : Type} : Type := mk_sim_state {
  running : bool;
  generation : Z;
  sim_ctx : gol_context_t;
  sim_rng : rng_state;
  effects : list effect
}.
Arguments sim_state : clear implicits.
Arguments mk_sim_state {rng_state}.

Section Loop.
Context {rng_state : Type}.
Variable srand : Z -> rng_state.
Variable rand : rng_state -> Z * rng_state.

(** One iteration of [while (SDL_PollEvent(&event))]: the [switch]. *)
Definition process_event (now : Z) (st : sim_state rng_state) (e : event)
  : option (sim_state rng_state) :=
  match e with
  | SDL_QUIT =>
      Some (mk_sim_state false (generation st) (sim_ctx st) (sim_rng st)
              (effects st))
  | SDL_MOUSEBUTTONDOWN button x y =>
      if button =? SDL_BUTTON_LEFT then
        ctx' ← handle_mouse_click (sim_ctx st) x y;
        Some (mk_sim_state (running st) (generation st) ctx' (sim_rng st)
                (effects st))
      else Some st
  | SDL_KEYDOWN SDLK_SPACE =>
      Some (mk_sim_state (running st) (generation st) (sim_ctx st)
              (sim_rng st) (effects st ++ [Delayed 500]))
  | SDL_KEYDOWN SDLK_r =>
      if String.eqb (config_type (config (sim_ctx st))) CONFIG_RANDOM then
        r ← initialize_grid_random srand rand (sim_ctx st) now;
        Some (mk_sim_state (running st) 0 r.1 r.2 (effects st))
      else
        Some (mk_sim_state (running st) 0 (sim_ctx st) (sim_rng st)
                (effects st))
  | SDL_KEYDOWN SDLK_other => Some st
  | SDL_other_event => Some st
  end.

(** The body of [while (running)]: [events] are the events pending at
    the top of the tick, [now] the clock. *)
Definition tick (st : sim_state rng_state) (now : Z) (events : list event)
  : option (sim_state rng_state) :=
  st1 ← for_each (process_event now) st events;
  let rendered := effects st1 ++ [Rendered (grid (sim_ctx st1))] in
  ctx' ← simulate_step (sim_ctx st1);
  let generation' := to_uint (generation st1 + 1) in
  let running' :=
    if (0 <? steps (config ctx')) && (generation' >=? steps (config ctx'))
    then false else running st1 in
  Some (mk_sim_state running' generation' ctx' (sim_rng st1)
          (rendered ++ [Stepped; Delayed FRAME_DELAY_MS])).

(** [while (running)] over the ticks for which input is supplied. *)
Fixpoint run_ticks (st : sim_state rng_state)
  (inputs : list (Z * list event)) : option (sim_state rng_state) :=
  match inputs with
  | [] => Some st
  | (now, events) :: inputs' =>
      if running st
      then st' ← tick st now events; run_ticks st' inputs'
      else Some st
  end.

Definition run_simulation (ctx : gol_context_t) (rng : rng_state)
  (inputs : list (Z * list event)) : option (sim_state rng_state) :=
  run_ticks (mk_sim_state true 0 ctx rng []) inputs.
End Loop.

(* ===================================================================== *)
(** ** Grid allocation, over a heap *)
(* ===================================================================== *)

Module Alloc.

Definition loc : Type := positive.

(** A pointer: [None] is the null pointer. *)
Definition ptr : Type := option loc.

(** An allocated block: the array of row pointers, or a row of cells. *)
Inductive block : Type :=
| row_pointers (ps : list ptr)
| cell_row (cs : list cell_state_t).

(** The bytes [calloc] hands out are zero: a null pointer, and the
    enumerator whose value is 0. *)
Definition zero_cell : cell_state_t := CELL_DEAD.
Definition zero_ptr : ptr := None.

(** A zeroed row of [m] cells, and a zeroed array of [n] row pointers. *)
Definition zero_row (m : Z) : block :=
  cell_row (replicate (Z.to_nat m) zero_cell).

Definition zero_pointers (n : Z) : block :=
  row_pointers (replicate (Z.to_nat n) zero_ptr).

Definition SIZEOF_POINTER : Z := 8.
Definition SIZEOF_CELL : Z := 4.

(** The heap: the live blocks, and how many times [calloc] was called. *)
Record memory : Type := mk_memory {
  blocks : gmap loc block;
  calls : nat
}.

(** The context as it lies in memory: [grid] is a pointer. *)
Record gol_context_t : Type := mk_context {
  rows : Z;
  cols : Z;
  grid : ptr
}.

Section Allocator.
(** Whether the allocator can serve its [k]-th request. *)
Variable available : nat -> bool.

Definition calloc_succeeds (m : memory) (n size : Z) : bool :=
  (n * size <? SIZE_MODULUS) && available (calls m).

(** [calloc(n, size)]: null, or a fresh zeroed block. *)
Definition calloc (zero : block) (n size : Z) (m : memory) : ptr * memory :=
  if calloc_succeeds m n size then
    let l := fresh (dom (blocks m)) in
    (Some l, mk_memory (<[l := zero]> (blocks m)) (S (calls m)))
  else (None, mk_memory (blocks m) (S (calls m))).

(** [free(p)]: nothing for the null pointer; undefined ([None]) for a
    pointer that is not a live block. *)
Definition free (p : ptr) (m : memory) : option memory :=
  match p with
  | None => Some m
  | Some l =>
      match blocks m !! l with
      | Some _ => Some (mk_memory (delete l (blocks m)) (calls m))
      | None => None
      end
  end.

(** [garr[i] = p] and [garr[i]] for the array of row pointers. *)
Definition store_row (garr : loc) (i : Z) (p : ptr) (m : memory)
  : option memory :=
  match blocks m !! garr with
  | Some (row_pointers ps) =>
      if (0 <=? i) && (i <? Z.of_nat (length ps)) then
        Some (mk_memory
                (<[garr := row_pointers (<[Z.to_nat i := p]> ps)]> (blocks m))
                (calls m))
      else None
  | _ => None
  end.

Definition load_row (garr : loc) (i : Z) (m : memory) : option ptr :=
  match blocks m !! garr with
  | Some (row_pointers ps) =>
      if 0 <=? i then ps !! Z.to_nat i else None
  | _ => None
  end.

(** [for (size_t j = 0; j < i; j++) free(ctx->grid[j]);] *)
Definition free_rows (garr : loc) (i : Z) (m : memory) : option memory :=
  for_range (fun m j => p ← load_row garr j m; free p m) m i.

(** The allocation loop from index [i] on; the list holds the indices
    still to come.  [inl] is the early [return] of the failure branch,
    [inr] the normal end of the loop. *)
Fixpoint allocate_rows (ctx : gol_context_t) (garr : loc) (todo : list Z)
  (m : memory) : option ((gol_result_t * gol_context_t + unit) * memory) :=
  match todo with
  | [] => Some (inr tt, m)
  | i :: todo' =>
      let (p, m1) := calloc (zero_row (cols ctx)) (cols ctx) SIZEOF_CELL m in
      m2 ← store_row garr i p m1;
      match p with
      | None =>
          m3 ← free_rows garr i m2;
          m4 ← free (Some garr) m3;
          Some (inl (GOL_ERROR_MEMORY, mk_context (rows ctx) (cols ctx) None),
                m4)
      | Some _ => allocate_rows ctx garr todo' m2
      end
  end.

Definition allocate_grid (ctx : gol_context_t) (m : memory)
  : option (gol_result_t * gol_context_t * memory) :=
  let (p, m1) :=
    calloc (zero_pointers (rows ctx)) (rows ctx) SIZEOF_POINTER m in
  let ctx1 := mk_context (rows ctx) (cols ctx) p in
  match p with
  | None => Some (GOL_ERROR_MEMORY, ctx1, m1)
  | Some garr =>
      r ← allocate_rows ctx1 garr (seqZ 0 (rows ctx1)) m1;
      match r.1 with
      | inl early => Some (early, r.2)
      | inr _ => Some (GOL_SUCCESS, ctx1, r.2)
      end
  end.
End Allocator.

(** [deallocate_grid]: nothing for a null grid pointer; else the rows
    are freed through the array, then the array, and the pointer is
    cleared. *)
Definition deallocate_grid (ctx : gol_context_t) (m : memory)
  : option (gol_context_t * memory) :=
  match grid ctx with
  | None => Some (ctx, m)
  | Some garr =>
      m1 ← free_rows garr (rows ctx) m;
      m2 ← free (Some garr) m1;
      Some (mk_context (rows ctx) (cols ctx) None, m2)
  end.

(** The board that a context's pointers describe in a heap. *)
Definition read_row (m : memory) (p : ptr) : option (list cell_state_t) :=
  l ← p;
  match blocks m !! l with
  | Some (cell_row cs) => Some cs
  | _ => None
  end.

Definition read_grid (m : memory) (ctx : gol_context_t) : option grid_t :=
  garr ← grid ctx;
  match blocks m !! garr with
  | Some (row_pointers ps) => mapM (read_row m) ps
  | _ => None
  end.

(** The array of row pointers once the rows [ps] are stored: their
    pointers, then null pointers up to [n] entries. *)
Definition pointer_array (n : nat) (ps : list loc) : list ptr :=
  (Some <$> ps) ++ replicate (n - length ps) zero_ptr.

(** Whether the request for a row succeeds when it is request number
    [k]. *)
Definition row_request_ok (available : nat -> bool) (ctx : gol_context_t)
  (k : nat) : bool :=
  (cols ctx * SIZEOF_CELL <? SIZE_MODULUS) && available k.

(** Loop invariant of [allocate_grid]: over the heap [h0] of the call,
    the heap [h] holds the array at [garr] with the rows [ps] stored in
    it, one zeroed block per row, and nothing else new. *)
Record rows_allocated (h0 : gmap loc block) (garr : loc) (n : nat) (m : Z)
  (ps : list loc) (h : gmap loc block) : Prop := mk_rows_allocated {
  ra_fresh : h0 !! garr = None;
  ra_nodup : NoDup ps;
  ra_new : forall p, p ∈ ps -> h0 !! p = None /\ p <> garr;
  ra_array : h !! garr = Some (row_pointers (pointer_array n ps));
  ra_rows : forall p, p ∈ ps -> h !! p = Some (zero_row m);
  ra_rest : forall l, l ∉ ps -> l <> garr -> h !! l = h0 !! l;
  ra_length : (length ps <= n)%nat
}.

(** The blocks of a board in the heap [h]: the array at [garr] holds
    the pointers [ps], which are distinct live blocks. *)
Definition grid_blocks (h : gmap loc block) (garr : loc) (ps : list loc)
  : Prop :=
  h !! garr = Some (row_pointers (Some <$> ps)) /\ NoDup ps /\ (garr ∉ ps) /\
  forall p, p ∈ ps -> is_Some (h !! p).

(** A heap with a 2 x 1 board in it, beside a block of another owner. *)
Definition board_memory : memory :=
  mk_memory {[ 1%positive := row_pointers [Some 2%positive; Some 4%positive];
               2%positive := cell_row [CELL_ALIVE];
               3%positive := cell_row [CELL_ALIVE];
               4%positive := cell_row [CELL_DEAD] ]} 3.

(** A heap holding one block, and an allocator whose third request
    fails. *)
Definition busy_memory : memory :=
  mk_memory {[ 3%positive := cell_row [CELL_ALIVE] ]} 0.

Definition third_fails (k : nat) : bool := negb (k =? 2)%nat.

End Alloc.

(* ===================================================================== *)
(** ** Counting and drawing the living cells *)
(* ===================================================================== *)

(** [count++] on an [int]: the increment of [INT_MAX] overflows, which
    has no defined result. *)
Definition int_incr (count : Z) : option Z :=
  if count <? INT_MAX then Some (count + 1) else None.

(** The body of the loops of [count_alive_cells]. *)
Definition count_cell (ctx : gol_context_t) (count i j : Z) : option Z :=
  state ← get_cell ctx i j;
  if cell_eqb state CELL_ALIVE then int_incr count else Some count.

Definition count_alive_cells (ctx : gol_context_t) : option Z :=
  for_range
    (fun count i =>
       for_range (fun count j => count_cell ctx count i j) count (cols ctx))
    0 (rows ctx).

(** The calls that reach the renderer, in the order they are made. *)
Inductive sdl_call : Type :=
| SDL_SetRenderDrawColor (r g b a : Z)
| SDL_RenderClear
| SDL_RenderFillRect (x y w h : Z)
| SDL_RenderPresent.

Global Instance sdl_call_eq_dec : EqDecision sdl_call.
Proof. solve_decision. Defined.

(** The [SDL_Rect] of the cell in row [i] and column [j]: the products
    are taken in [size_t] and converted to [int]. *)
Definition cell_rect (i j : Z) : sdl_call :=
  SDL_RenderFillRect (to_int (to_size_t (j * CELL_SIZE)))
                     (to_int (to_size_t (i * CELL_SIZE)))
                     CELL_SIZE CELL_SIZE.

(** The body of the loops of [render_grid]. *)
Definition render_cell (ctx : gol_context_t) (calls : list sdl_call) (i j : Z)
  : option (list sdl_call) :=
  state ← get_cell ctx i j;
  Some (if cell_eqb state CELL_ALIVE then calls ++ [cell_rect i j] else calls).

Definition render_grid (ctx : gol_context_t) : option (list sdl_call) :=
  calls ← for_range
    (fun calls i =>
       for_range (fun calls j => render_cell ctx calls i j) calls (cols ctx))
    [SDL_SetRenderDrawColor 0 0 0 255; SDL_RenderClear;
     SDL_SetRenderDrawColor 0 255 0 255]
    (rows ctx);
  Some (calls ++ [SDL_RenderPresent]).

(* ===================================================================== *)
(** ** Configuration file *)
(* ===================================================================== *)

(** The locals of [parse_config_file] with the structure it fills. *)
Record config_state : Type := mk_config_state {
  rows_set : bool;
  cols_set : bool;
  config_set : bool;
  parsed : gol_config_t
}.

(** Lines [parse_config_file] writes to the error stream. *)
Inductive config_message : Type :=
| msg_config_cannot_open
| msg_missing_parameters
| msg_dimensions.

Section Config.
(** [sscanf] of the C library with a format of one conversion, by the
    conversion: the value it stores when it returns 1, [None] when it
    returns anything else and stores nothing.  The first argument is the
    buffer up to its terminator, the second the format. *)
Variable sscanf_zu : list ascii -> string -> option Z.
Variable sscanf_u : list ascii -> string -> option Z.
Variable sscanf_s : list ascii -> string -> option string.

(** The body of the [while] loop of [parse_config_file]. *)
Definition config_line (st : config_state) (buffer : list ascii)
  : config_state :=
  let s := c_string buffer in
  let cfg := parsed st in
  if Ascii.eqb (first_char s) newline || Ascii.eqb (first_char s) "#"
  then st
  else
    match sscanf_zu s "@nrows %zu" with
    | Some v =>
        mk_config_state true (cols_set st) (config_set st)
          (mk_config v (cfg_cols cfg) (steps cfg) (seed cfg) (config_type cfg))
    | None =>
    match sscanf_zu s "@ncols %zu" with
    | Some v =>
        mk_config_state (rows_set st) true (config_set st)
          (mk_config (cfg_rows cfg) v (steps cfg) (seed cfg) (config_type cfg))
    | None =>
    match sscanf_u s "@steps %u" with
    | Some v =>
        mk_config_state (rows_set st) (cols_set st) (config_set st)
          (mk_config (cfg_rows cfg) (cfg_cols cfg) v (seed cfg) (config_type cfg))
    | None =>
    match sscanf_u s "@seed %u" with
    | Some v =>
        mk_config_state (rows_set st) (cols_set st) (config_set st)
          (mk_config (cfg_rows cfg) (cfg_cols cfg) (steps cfg) v (config_type cfg))
    | None =>
    match sscanf_s s "@config %199s" with
    | Some w =>
        mk_config_state (rows_set st) (cols_set st) true
          (mk_config (cfg_rows cfg) (cfg_cols cfg) (steps cfg) (seed cfg) w)
    | None => st
    end end end end end.

(** [file] is the content of the file, [None] when [fopen] fails;
    [config] is the structure as the caller passes it. *)
Definition parse_config_file (file : option (list ascii))
  (config : gol_config_t)
  : gol_result_t * gol_config_t * list config_message :=
  match file with
  | None => (GOL_ERROR_FILE, config, [msg_config_cannot_open])
  | Some content =>
      let start :=
        mk_config_state false false false
          (mk_config (cfg_rows config) (cfg_cols config) 0 0
             (config_type config)) in
      let st := foldl config_line start (file_buffers content) in
      if negb (rows_set st) || negb (cols_set st) || negb (config_set st)
      then (GOL_ERROR_CONFIG, parsed st, [msg_missing_parameters])
      else if (cfg_rows (parsed st) =? 0) || (cfg_cols (parsed st) =? 0)
      then (GOL_ERROR_CONFIG, parsed st, [msg_dimensions])
      else (GOL_SUCCESS, parsed st, [])
  end.
End Config.

(* ===================================================================== *)
(** ** SDL set-up and tear-down *)
(* ===================================================================== *)

(** A window or a renderer of SDL. *)
Definition handle : Type := positive.

(** The two SDL fields of [gol_context_t]; [None] is the null pointer. *)
Record sdl_handles : Type := mk_sdl_handles {
  window : option handle;
  renderer : option handle
}.

(** The calls of the set-up and the tear-down, with what SDL returned. *)
Inductive sdl_op : Type :=
| SDL_Init (ok : bool)
| SDL_CreateWindow (width height : Z) (result : option handle)
| SDL_CreateRenderer (of_window : handle) (result : option handle)
| SDL_DestroyRenderer (r : handle)
| SDL_DestroyWindow (w : handle)
| SDL_Quit.

Inductive sdl_message : Type :=
| msg_sdl_init_failed
| msg_window_failed
| msg_renderer_failed.

Section Sdl.
(** What SDL answers: whether [SDL_Init] succeeds, and the results of
    [SDL_CreateWindow] and [SDL_CreateRenderer]. *)
Variable init_ok : bool.
Variable new_window : option handle.
Variable new_renderer : option handle.

Definition initialize_sdl (rows cols : Z) (h : sdl_handles)
  : gol_result_t * sdl_handles * list sdl_op * list sdl_message :=
  if negb init_ok
  then (GOL_ERROR_SDL, h, [SDL_Init false], [msg_sdl_init_failed])
  else
    let window_width := to_int (to_size_t (cols * CELL_SIZE)) in
    let window_height := to_int (to_size_t (rows * CELL_SIZE)) in
    let create := SDL_CreateWindow window_width window_height new_window in
    match new_window with
    | None =>
        (GOL_ERROR_SDL, mk_sdl_handles None (renderer h),
         [SDL_Init true; create; SDL_Quit], [msg_window_failed])
    | Some w =>
        match new_renderer with
        | None =>
            (GOL_ERROR_SDL, mk_sdl_handles (Some w) None,
             [SDL_Init true; create; SDL_CreateRenderer w None;
              SDL_DestroyWindow w; SDL_Quit],
             [msg_renderer_failed])
        | Some r =>
            (GOL_SUCCESS, mk_sdl_handles (Some w) (Some r),
             [SDL_Init true; create; SDL_CreateRenderer w (Some r)], [])
        end
    end.
End Sdl.

Definition cleanup_sdl (h : sdl_handles) : sdl_handles * list sdl_op :=
  let ops1 :=
    match renderer h with
    | Some r => [SDL_DestroyRenderer r]
    | None => []
    end in
  let ops2 :=
    match window h with
    | Some w => [SDL_DestroyWindow w]
    | None => []
    end in
  (mk_sdl_handles None None, ops1 ++ ops2 ++ [SDL_Quit]).

(* ===================================================================== *)
(** ** The program *)
(* ===================================================================== *)

(** The configuration of [gol_context_t ctx = {0}]. *)
Definition empty_config : gol_config_t := mk_config 0 0 0 0 "".

(** The board lives in the heap blocks that [allocate_grid] made; the
    initializers and the loop are modelled on the board as a list of
    rows.  [load_board] reads the board out of the heap, [store_board]
    puts the cells back into the blocks of the rows. *)
Definition load_board (m : Alloc.memory) (actx : Alloc.gol_context_t)
  (cfg : gol_config_t) : option gol_context_t :=
  g ← Alloc.read_grid m actx;
  Some (mk_context (Alloc.rows actx) (Alloc.cols actx) g cfg).

Definition store_row (m : Alloc.memory) (entry : Alloc.ptr * list cell_state_t)
  : option Alloc.memory :=
  l ← entry.1;
  match Alloc.blocks m !! l with
  | Some (Alloc.cell_row old) =>
      if bool_decide (length old = length entry.2) then
        Some (Alloc.mk_memory (<[l := Alloc.cell_row entry.2]> (Alloc.blocks m))
                (Alloc.calls m))
      else None
  | _ => None
  end.

Definition store_board (m : Alloc.memory) (actx : Alloc.gol_context_t)
  (g : grid_t) : option Alloc.memory :=
  garr ← Alloc.grid actx;
  match Alloc.blocks m !! garr with
  | Some (Alloc.row_pointers ps) =>
      if bool_decide (length ps = length g)
      then for_each store_row m (zip ps g)
      else None
  | _ => None
  end.

(** What the program prints, on either stream. *)
Inductive output_line : Type :=
| out_usage
| err_config (line : config_message)
| err_allocation
| err_unknown_type (type : string)
| err_manual (line : message)
| err_sdl (line : sdl_message).

(** The end of a run: the exit code, the heap, the calls of the SDL
    set-up and tear-down, what the loop did, and what was printed. *)
Record outcome : Type := mk_outcome {
  exit_code : Z;
  heap : Alloc.memory;
  sdl_ops : list sdl_op;
  shown : list effect;
  printed : list output_line
}.

Section Program.
Context {rng_state : Type}.
Variable sscanf_zu : list ascii -> string -> option Z.
Variable sscanf_u : list ascii -> string -> option Z.
Variable sscanf_s : list ascii -> string -> option string.
Variable srand : Z -> rng_state.
Variable rand : rng_state -> Z * rng_state.
Variable available : nat -> bool.
Variable init_ok : bool.
Variable new_window : option handle.
Variable new_renderer : option handle.

(** The part of [main] after the grid is initialised: SDL, the loop,
    the clean-up.  [None] when the loop is still running after the last
    of the [inputs]. *)
Definition main_run (actx : Alloc.gol_context_t) (m : Alloc.memory)
  (ctx : gol_context_t) (rng : rng_state) (inputs : list (Z * list event))
  (out : list output_line) : option outcome :=
  let '(result, handles, ops, msgs) :=
    initialize_sdl init_ok new_window new_renderer (rows ctx) (cols ctx)
      (mk_sdl_handles None None) in
  match result with
  | GOL_SUCCESS =>
      st ← run_simulation srand rand ctx rng inputs;
      if running st then None
      else
        let '(handles', ops') := cleanup_sdl handles in
        m1 ← store_board m actx (grid (sim_ctx st));
        r ← Alloc.deallocate_grid actx m1;
        Some (mk_outcome (result_code GOL_SUCCESS) r.2 (ops ++ ops')
                (effects st) out)
  | _ =>
      m1 ← store_board m actx (grid ctx);
      r ← Alloc.deallocate_grid actx m1;
      Some (mk_outcome (result_code result) r.2 ops []
              (out ++ (err_sdl <$> msgs)))
  end.

(** [main]: [argc] as passed, the content of the file [argv[1]] at the
    first and at the second [fopen] ([None] when it fails), the heap,
    the clock, and the events of each tick. *)
Definition main (argc : Z) (config_file pattern_file : option (list ascii))
  (m : Alloc.memory) (now : Z) (inputs : list (Z * list event))
  : option outcome :=
  if negb (argc =? 2)
  then Some (mk_outcome (result_code GOL_ERROR_ARGS) m [] [] [out_usage])
  else
    let '(result, cfg, msgs) :=
      parse_config_file sscanf_zu sscanf_u sscanf_s config_file empty_config in
    match result with
    | GOL_SUCCESS =>
        r ← Alloc.allocate_grid available
               (Alloc.mk_context (cfg_rows cfg) (cfg_cols cfg) None) m;
        let '(result, actx, m1) := r in
        match result with
        | GOL_SUCCESS =>
            ctx ← load_board m1 actx cfg;
            if String.eqb (config_type cfg) CONFIG_RANDOM then
              r ← initialize_grid_random srand rand ctx now;
              main_run actx m1 r.1 r.2 inputs []
            else if String.eqb (config_type cfg) CONFIG_MANUAL then
              r ← initialize_grid_manual ctx pattern_file;
              main_run actx m1 r.1 (srand 1) inputs (err_manual <$> r.2)
            else
              r ← Alloc.deallocate_grid actx m1;
              Some (mk_outcome (result_code GOL_ERROR_CONFIG) r.2 [] []
                      [err_unknown_type (config_type cfg)])
        | _ =>
            Some (mk_outcome (result_code result) m1 [] [] [err_allocation])
        end
    | _ =>
        Some (mk_outcome (result_code result) m [] [] (err_config <$> msgs))
    end.
End Program.

(* ===================================================================== *)
(** ** Specification vocabulary *)
(* ===================================================================== *)

(** The row-pointer array has [n] rows of [m] cells. *)
Definition grid_wf (n m : Z) (g : grid_t) : Prop :=
  length g = Z.to_nat n /\ Forall (fun row => length row = Z.to_nat m) g.

(** A context whose grid [allocate_grid] has built: the two [calloc]
    sizes did not overflow and the array has the recorded dimensions. *)
Definition ctx_wf (ctx : gol_context_t) : Prop :=
  0 <= rows ctx /\ rows ctx * Alloc.SIZEOF_POINTER < SIZE_MODULUS /\
  0 <= cols ctx /\ cols ctx * Alloc.SIZEOF_CELL < SIZE_MODULUS /\
  grid_wf (rows ctx) (cols ctx) (grid ctx).

(** [(r, c)] lies in [0, rows) x [0, cols). *)
Definition in_bounds (ctx : gol_context_t) (r c : Z) : Prop :=
  0 <= r < rows ctx /\ 0 <= c < cols ctx.

Definition in_boundsb (ctx : gol_context_t) (r c : Z) : bool :=
  (0 <=? r) && (r <? rows ctx) && (0 <=? c) && (c <? cols ctx).

(** Both dimensions are representable in [int]. *)
Definition fits_int (ctx : gol_context_t) : Prop :=
  rows ctx <= INT_MAX /\ cols ctx <= INT_MAX.

(** Every cell is [CELL_DEAD] or [CELL_ALIVE]. *)
Definition at_rest (ctx : gol_context_t) : Prop :=
  forall r c s, get_cell ctx r c = Some s -> s = CELL_DEAD \/ s = CELL_ALIVE.

(** Same dimensions and configuration; only the cells may differ. *)
Definition same_frame (ctx ctx' : gol_context_t) : Prop :=
  rows ctx' = rows ctx /\ cols ctx' = cols ctx /\ config ctx' = config ctx.

(** The eight offsets of the Moore neighbourhood: [{-1,0,1}^2] without
    [(0,0)]. *)
Definition moore_offsets : list (Z * Z) :=
  List.filter (fun d => negb ((d.1 =? 0) && (d.2 =? 0)))
    (dr ← [-1; 0; 1]; dc ← [-1; 0; 1]; [(dr, dc)]).

(** The number of Moore neighbours of [(row, col)] inside the grid whose
    state satisfies [counted]. *)
Definition moore_count (counted : cell_state_t -> bool) (ctx : gol_context_t)
  (row col : Z) : Z :=
  Z.of_nat (length (List.filter
    (fun d => in_boundsb ctx (row + d.1) (col + d.2) &&
              match get_cell ctx (row + d.1) (col + d.2) with
              | Some s => counted s
              | None => false
              end)
    moore_offsets)).

(** Live neighbours of a cell. *)
Definition live_neighbors (ctx : gol_context_t) (row col : Z) : Z :=
  moore_count (fun s => cell_eqb s CELL_ALIVE) ctx row col.

(** The transition rule on one cell, given its neighbour count. *)
Definition next_state (s : cell_state_t) (n : Z) : cell_state_t :=
  match s with
  | CELL_ALIVE => if (n <? 2) || (n >? 3) then CELL_DEAD else CELL_ALIVE
  | CELL_DEAD => if n =? 3 then CELL_ALIVE else CELL_DEAD
  | CELL_DYING => CELL_DEAD
  | CELL_BIRTH => CELL_ALIVE
  end.

(** The reference step: every cell's next state computed from the
    pre-step snapshot [ctx], which is never written. *)
Definition reference_step (ctx : gol_context_t) : gol_context_t :=
  with_grid ctx
    (imap (fun r row =>
       imap (fun c s =>
         next_state s (default 0 (count_neighbors ctx (Z.of_nat r) (Z.of_nat c))))
         row)
       (grid ctx)).

(** The cells that the characters of a pattern line denote: a marker
    gives a cell, any other character gives none. *)
Definition marker_cell (c : ascii) : option cell_state_t :=
  if is_alive_marker c then Some CELL_ALIVE
  else if is_dead_marker c then Some CELL_DEAD
  else None.

Definition row_cells (line : list ascii) : list cell_state_t :=
  omap marker_cell (c_string line).

(** A line the parser applies as a pattern row: neither blank, nor a
    comment, nor a line starting with [@]. *)
Definition is_pattern_row (line : list ascii) : bool :=
  negb (Ascii.eqb (first_char (c_string line)) newline) &&
  negb (Ascii.eqb (first_char (c_string line)) "#") &&
  negb (Ascii.eqb (first_char (c_string line)) "@").



(** A line that is neither blank, nor a comment, nor the grid marker:
    outside the grid section the parser passes over it. *)
Definition is_grid_marker (line : list ascii) : bool :=
  negb (Ascii.eqb (first_char (c_string line)) newline) &&
  negb (Ascii.eqb (first_char (c_string line)) "#") &&
  starts_with grid_marker (c_string line).


(** The configuration file printed by the usage text, and a 5 x 5 board
    of live cells to load it into. *)
Definition usage_header : list (list ascii) :=
  map list_ascii_of_string
    [ "@nrows 5
"; "@ncols 5
"; "@config manual
" ].

Definition usage_marker : list ascii := list_ascii_of_string "@grid
".

Definition usage_pattern : list (list ascii) :=
  map list_ascii_of_string
    [ "00100
"; "00100
"; "00100
"; "00000
"; "00000
" ].

Definition full_ctx : gol_context_t :=
  mk_context 5 5 (replicate 5 (replicate 5 CELL_ALIVE))
    (mk_config 5 5 0 0 CONFIG_MANUAL).

(** What the offset [(dr, dc)] adds to the count in [count_neighbors]. *)
Definition neighbor_term (ctx : gol_context_t) (row col dr dc : Z) : Z :=
  if (dr =? 0) && (dc =? 0) then 0
  else
    let nr := int_add (to_int row) dr in
    let nc := int_add (to_int col) dc in
    if is_valid_position ctx nr nc &&
       match get_cell ctx nr nc with
       | Some s => counts_as_alive s
       | None => false
       end
    then 1 else 0.

(** The two halves of the rule: what the mark phase leaves in a cell, and
    what the commit phase turns a mark into. *)
Definition marked (s : cell_state_t) (n : Z) : cell_state_t :=
  match s with
  | CELL_ALIVE => if (n <? 2) || (n >? 3) then CELL_DYING else CELL_ALIVE
  | CELL_DEAD => if n =? 3 then CELL_BIRTH else CELL_DEAD
  | _ => s
  end.

Definition committed (s : cell_state_t) : cell_state_t :=
  match s with
  | CELL_DYING => CELL_DEAD
  | CELL_BIRTH => CELL_ALIVE
  | _ => s
  end.

(** Loop invariant of a pass that moves every cell from its value in
    [ctx0] to [target]: each cell holds one or the other. *)
Definition between (ctx0 : gol_context_t) (target : Z -> Z -> cell_state_t)
  (ctx : gol_context_t) : Prop :=
  ctx_wf ctx /\ same_frame ctx0 ctx /\
  forall r c, in_bounds ctx0 r c ->
    get_cell ctx r c = get_cell ctx0 r c \/ get_cell ctx r c = Some (target r c).

(** The targets of the two passes of [simulate_step]: the mark a cell of
    the pre-step context [ctx0] gets, and the state a marked cell of
    [ctx1] is committed to. *)
Definition mark_target (ctx0 : gol_context_t) (r c : Z) : cell_state_t :=
  marked (default CELL_DEAD (get_cell ctx0 r c))
         (default 0 (count_neighbors ctx0 r c)).

Definition commit_target (ctx1 : gol_context_t) (r c : Z) : cell_state_t :=
  committed (default CELL_DEAD (get_cell ctx1 r c)).

(** Decidable forms of [ctx_wf] and [at_rest], for concrete contexts. *)
Definition ctx_wfb (ctx : gol_context_t) : bool :=
  (0 <=? rows ctx) && (rows ctx * Alloc.SIZEOF_POINTER <? SIZE_MODULUS) &&
  (0 <=? cols ctx) && (cols ctx * Alloc.SIZEOF_CELL <? SIZE_MODULUS) &&
  (length (grid ctx) =? Z.to_nat (rows ctx))%nat &&
  forallb (fun row => (length row =? Z.to_nat (cols ctx))%nat) (grid ctx).

Definition at_restb (ctx : gol_context_t) : bool :=
  forallb (forallb (fun s => cell_eqb s CELL_DEAD || cell_eqb s CELL_ALIVE))
    (grid ctx).

(** A board of one row and 2^31 columns, every cell alive: the smallest
    width that [int] cannot hold.  Its one row takes 8 GiB. *)
Definition wide_ctx : gol_context_t :=
  mk_context 1 2147483648 [replicate (Z.to_nat 2147483648) CELL_ALIVE]
    (mk_config 1 2147483648 0 1 CONFIG_RANDOM).

(** A 5 x 5 board with the vertical blinker of the usage text. *)
Definition blinker_ctx : gol_context_t :=
  mk_context 5 5
    [ [CELL_DEAD; CELL_DEAD; CELL_ALIVE; CELL_DEAD; CELL_DEAD];
      [CELL_DEAD; CELL_DEAD; CELL_ALIVE; CELL_DEAD; CELL_DEAD];
      [CELL_DEAD; CELL_DEAD; CELL_ALIVE; CELL_DEAD; CELL_DEAD];
      [CELL_DEAD; CELL_DEAD; CELL_DEAD; CELL_DEAD; CELL_DEAD];
      [CELL_DEAD; CELL_DEAD; CELL_DEAD; CELL_DEAD; CELL_DEAD] ]
    (mk_config 5 5 0 0 CONFIG_MANUAL).

(** The generator's state after [k] calls of [rand], the value of call
    number [k] (from 0), and the cell a value gives. *)
Fixpoint rng_after {rng_state : Type} (rand : rng_state -> Z * rng_state)
  (k : nat) (rng : rng_state) : rng_state :=
  match k with
  | O => rng
  | S k' => rng_after rand k' (rand rng).2
  end.

Definition rng_value {rng_state : Type} (rand : rng_state -> Z * rng_state)
  (k : nat) (rng : rng_state) : Z :=
  (rand (rng_after rand k rng)).1.

Definition cell_of_rand (v : Z) : cell_state_t :=
  if negb (Z.rem v 2 =? 0) then CELL_ALIVE else CELL_DEAD.

(** Two 2 x 2 boards configured with the same seed 42 and holding
    different cells. *)
Definition seeded_ctx : gol_context_t :=
  mk_context 2 2 [[CELL_DEAD; CELL_DEAD]; [CELL_DEAD; CELL_DEAD]]
    (mk_config 2 2 0 42 CONFIG_RANDOM).

Definition seeded_ctx' : gol_context_t :=
  mk_context 2 2 [[CELL_ALIVE; CELL_ALIVE]; [CELL_ALIVE; CELL_DEAD]]
    (mk_config 2 2 0 42 CONFIG_RANDOM).

(** The cell [(r', c')] after the characters [chars] were applied to row
    [r] from column [col] on: a marker's cell where a marker landed,
    the old cell elsewhere. *)
Definition row_written (ctx : gol_context_t) (r col : Z) (chars : list ascii)
  (r' c' : Z) : option cell_state_t :=
  if decide (r' = r /\ col <= c' < cols ctx)
  then omap marker_cell chars !! Z.to_nat (c' - col)
  else None.

(** The cell [(r, c)] after the pattern rows [pats] were applied from row
    [first] on. *)
Definition rows_written (first : Z) (pats : list (list ascii)) (r c : Z)
  : option cell_state_t :=
  if decide (first <= r)
  then line ← pats !! Z.to_nat (r - first); row_cells line !! Z.to_nat c
  else None.

(** A board of two rows and one column, and two files for it: the
    second repeats the grid marker between its two pattern rows. *)
Definition two_rows_ctx : gol_context_t :=
  mk_context 2 1 [[CELL_DEAD]; [CELL_DEAD]] (mk_config 2 1 0 0 CONFIG_MANUAL).

Definition plain_file : list ascii :=
  list_ascii_of_string "@grid
1
0
".

Definition marker_twice_file : list ascii :=
  list_ascii_of_string "@grid
1
@grid
0
".




(** What [parse_manual_config] writes to the error stream after [pats]
    pattern rows: the warning when they are fewer than [rows]. *)
Definition missing_rows_message (ctx : gol_context_t) (pats : list (list ascii))
  : list message :=
  if Z.of_nat (length pats) <? rows ctx
  then [msg_rows_missing (Z.of_nat (length pats)) (rows ctx)]
  else [].

(** A 4 x 4 board with the 2 x 2 block in the middle. *)
Definition block_ctx : gol_context_t :=
  mk_context 4 4
    [ [CELL_DEAD; CELL_DEAD; CELL_DEAD; CELL_DEAD];
      [CELL_DEAD; CELL_ALIVE; CELL_ALIVE; CELL_DEAD];
      [CELL_DEAD; CELL_ALIVE; CELL_ALIVE; CELL_DEAD];
      [CELL_DEAD; CELL_DEAD; CELL_DEAD; CELL_DEAD] ]
    (mk_config 4 4 0 0 CONFIG_MANUAL).

(** The board shows the pattern [P]: a cell is alive where [P] holds and
    dead elsewhere. *)
Definition shows (ctx : gol_context_t) (P : Z -> Z -> bool) : Prop :=
  forall r c, in_bounds ctx r c ->
    get_cell ctx r c = Some (if P r c then CELL_ALIVE else CELL_DEAD).

(** The number of Moore neighbours of [(r, c)] in the pattern [P]. *)
Definition pattern_count (P : Z -> Z -> bool) (r c : Z) : Z :=
  Z.of_nat (length (List.filter (fun d => P (r + d.1) (c + d.2)) moore_offsets)).

(** The 2 x 2 block with its upper left cell at [(a, b)]; the blinker
    centred at [(a, b)], upright and lying. *)
Definition block_at (a b r c : Z) : bool :=
  (a <=? r) && (r <=? a + 1) && (b <=? c) && (c <=? b + 1).

Definition blinker_upright (a b r c : Z) : bool :=
  (c =? b) && (a - 1 <=? r) && (r <=? a + 1).

Definition blinker_lying (a b r c : Z) : bool :=
  (r =? a) && (b - 1 <=? c) && (c <=? b + 1).

(** The blinker board with one more live cell in the far corner. *)
Definition blinker_spark_ctx : gol_context_t :=
  mk_context 5 5
    [ [CELL_DEAD; CELL_DEAD; CELL_ALIVE; CELL_DEAD; CELL_DEAD];
      [CELL_DEAD; CELL_DEAD; CELL_ALIVE; CELL_DEAD; CELL_DEAD];
      [CELL_DEAD; CELL_DEAD; CELL_ALIVE; CELL_DEAD; CELL_DEAD];
      [CELL_DEAD; CELL_DEAD; CELL_DEAD; CELL_DEAD; CELL_DEAD];
      [CELL_DEAD; CELL_DEAD; CELL_DEAD; CELL_DEAD; CELL_ALIVE] ]
    (mk_config 5 5 0 0 CONFIG_MANUAL).

(** The cell at [p] is [CELL_ALIVE]; the positions of the living cells,
    row by row. *)
Definition is_alive (ctx : gol_context_t) (p : Z * Z) : bool :=
  match get_cell ctx p.1 p.2 with
  | Some s => cell_eqb s CELL_ALIVE
  | None => false
  end.

Definition alive_cells (ctx : gol_context_t) : list (Z * Z) :=
  List.filter (is_alive ctx) (row_major (rows ctx) (cols ctx)).

Definition alive_total (ctx : gol_context_t) : Z :=
  Z.of_nat (length (alive_cells ctx)).

(** Both dimensions in pixels are representable in [int]. *)
Definition window_fits (ctx : gol_context_t) : Prop :=
  rows ctx * CELL_SIZE <= INT_MAX /\ cols ctx * CELL_SIZE <= INT_MAX.

(** The calls of one frame whose squares are at the positions [cells]. *)
Definition frame_of (cells : list (Z * Z)) : list sdl_call :=
  [SDL_SetRenderDrawColor 0 0 0 255; SDL_RenderClear;
   SDL_SetRenderDrawColor 0 255 0 255] ++
  map (fun p => SDL_RenderFillRect (p.2 * CELL_SIZE) (p.1 * CELL_SIZE)
                  CELL_SIZE CELL_SIZE) cells ++
  [SDL_RenderPresent].

(** The pixel [(px, py)] lies in the rectangle of a call; in a square of
    the frame [calls]. *)
Definition covers (px py : Z) (call : sdl_call) : bool :=
  match call with
  | SDL_RenderFillRect x y w h =>
      (x <=? px) && (px <? x + w) && (y <=? py) && (py <? y + h)
  | _ => false
  end.

Definition covered (calls : list sdl_call) (px py : Z) : bool :=
  existsb (covers px py) calls.

(** The generator state [initialize_grid_random] starts from. *)
Definition start_rng {rng_state : Type} (srand : Z -> rng_state)
  (ctx : gol_context_t) (now : Z) : rng_state :=
  srand (if seed (config ctx) =? 0 then to_uint now else seed (config ctx)).

(** What the line loop of [parse_manual_config] keeps, on a board with
    the frame of [ctx0]. *)
Definition parse_inv (ctx0 : gol_context_t) (st : parse_state) : Prop :=
  ctx_wf (parse_ctx st) /\ same_frame ctx0 (parse_ctx st) /\
  at_rest (parse_ctx st) /\ 0 <= current_row st.

(** Every cell of the board is dead. *)
Definition all_dead (ctx : gol_context_t) : Prop :=
  forall r c, in_bounds ctx r c -> get_cell ctx r c = Some CELL_DEAD.

(** A configuration file without a grid section. *)
Definition header_only_file : list ascii :=
  list_ascii_of_string "@nrows 2
@ncols 1
@config manual
10
".

(** [k] generations in a row, and the effects of [k] idle ticks from the
    board [ctx]: each tick draws the board, steps and sleeps. *)
Fixpoint generations (k : nat) (ctx : gol_context_t) : option gol_context_t :=
  match k with
  | O => Some ctx
  | S k' => ctx' ← simulate_step ctx; generations k' ctx'
  end.

Fixpoint idle_effects (k : nat) (ctx : gol_context_t) : list effect :=
  match k with
  | O => []
  | S k' =>
      [Rendered (grid ctx); Stepped; Delayed FRAME_DELAY_MS] ++
      match simulate_step ctx with
      | Some ctx' => idle_effects k' ctx'
      | None => []
      end
  end.

(** The blinker board configured to stop after 2 steps. *)
Definition blinker_twice_ctx : gol_context_t :=
  mk_context 5 5 (grid blinker_ctx) (mk_config 5 5 2 0 CONFIG_MANUAL).

Section ConfigVocabulary.
Variable sscanf_zu : list ascii -> string -> option Z.
Variable sscanf_u : list ascii -> string -> option Z.
Variable sscanf_s : list ascii -> string -> option string.

(** A buffer the loop of [parse_config_file] passes over: it starts
    with a newline or with [#]. *)
Definition is_skipped (buffer : list ascii) : bool :=
  Ascii.eqb (first_char (c_string buffer)) newline ||
  Ascii.eqb (first_char (c_string buffer)) "#".

(** What a buffer gives to each field: the value of the first format of
    the chain that matches, for the field of that format. *)
Definition line_rows (buffer : list ascii) : option Z :=
  if is_skipped buffer then None
  else sscanf_zu (c_string buffer) "@nrows %zu".

Definition line_cols (buffer : list ascii) : option Z :=
  if is_skipped buffer then None
  else if sscanf_zu (c_string buffer) "@nrows %zu" is Some _ then None
  else sscanf_zu (c_string buffer) "@ncols %zu".

Definition line_steps (buffer : list ascii) : option Z :=
  if is_skipped buffer then None
  else if sscanf_zu (c_string buffer) "@nrows %zu" is Some _ then None
  else if sscanf_zu (c_string buffer) "@ncols %zu" is Some _ then None
  else sscanf_u (c_string buffer) "@steps %u".

Definition line_seed (buffer : list ascii) : option Z :=
  if is_skipped buffer then None
  else if sscanf_zu (c_string buffer) "@nrows %zu" is Some _ then None
  else if sscanf_zu (c_string buffer) "@ncols %zu" is Some _ then None
  else if sscanf_u (c_string buffer) "@steps %u" is Some _ then None
  else sscanf_u (c_string buffer) "@seed %u".

Definition line_type (buffer : list ascii) : option string :=
  if is_skipped buffer then None
  else if sscanf_zu (c_string buffer) "@nrows %zu" is Some _ then None
  else if sscanf_zu (c_string buffer) "@ncols %zu" is Some _ then None
  else if sscanf_u (c_string buffer) "@steps %u" is Some _ then None
  else if sscanf_u (c_string buffer) "@seed %u" is Some _ then None
  else sscanf_s (c_string buffer) "@config %199s".
End ConfigVocabulary.

(** Whether some buffer gives the field a value, and the value the last
    such buffer gives, [d] when there is none. *)
Definition key_seen {A : Type} (f : list ascii -> option A)
  (buffers : list (list ascii)) : bool :=
  existsb (fun b => bool_decide (is_Some (f b))) buffers.

Definition key_value {A : Type} (f : list ascii -> option A) (d : A)
  (buffers : list (list ascii)) : A :=
  default d (last (omap f buffers)).

(** A scanner for the plainest lines, to run examples with: the key of
    the format, one space, then the digits of a number below 2^32, or
    the word up to the end of the line. *)
Fixpoint before_char (stop : ascii) (s : list ascii) : list ascii :=
  match s with
  | [] => []
  | c :: rest => if Ascii.eqb c stop then [] else c :: before_char stop rest
  end.

Definition format_key (format : string) : list ascii :=
  before_char " " (list_ascii_of_string format).

Definition digit_value (c : ascii) : option Z :=
  let n := Z.of_nat (nat_of_ascii c) in
  if (48 <=? n) && (n <=? 57) then Some (n - 48) else None.

Fixpoint digits_value (acc : option Z) (s : list ascii) : option Z :=
  match s with
  | [] => acc
  | c :: rest =>
      match digit_value c with
      | Some d => digits_value (Some (default 0 acc * 10 + d)) rest
      | None => acc
      end
  end.

Definition after_key (s : list ascii) (format : string) : option (list ascii) :=
  let key := format_key format ++ [" "%char] in
  if starts_with key s then Some (drop (length key) s) else None.

Definition plain_sscanf_number (s : list ascii) (format : string) : option Z :=
  rest ← after_key s format;
  v ← digits_value None rest;
  if (0 <=? v) && (v <? UINT_MODULUS) then Some v else None.

Definition plain_sscanf_word (s : list ascii) (format : string) : option string :=
  rest ← after_key s format;
  match before_char newline rest with
  | [] => None
  | w => Some (string_of_list_ascii w)
  end.

Definition random_config_file : list ascii :=
  list_ascii_of_string "# a random board
@nrows 3
@ncols 4
@nrows 2
@config random
@seed 42
".


(** Book-keeping of what SDL holds for the program: whether the library
    is initialised, and the windows and renderers that are alive. *)
Record sdl_world : Type := mk_sdl_world {
  initialised : bool;
  live_windows : list handle;
  live_renderers : list (handle * handle)
}.

Definition sdl_idle : sdl_world := mk_sdl_world false [] [].

(** The effect of one call; [None] for a call on something that is not
    there: a window made before the library is initialised, a renderer
    for a window that is not alive, a handle destroyed twice, a window
    destroyed under its renderer. *)
Definition sdl_step (world : sdl_world) (op : sdl_op) : option sdl_world :=
  match op with
  | SDL_Init ok =>
      Some (mk_sdl_world (initialised world || ok) (live_windows world)
              (live_renderers world))
  | SDL_CreateWindow _ _ result =>
      if initialised world then
        Some (mk_sdl_world true
                (match result with
                 | Some w => w :: live_windows world
                 | None => live_windows world
                 end)
                (live_renderers world))
      else None
  | SDL_CreateRenderer w result =>
      if bool_decide (w ∈ live_windows world) then
        Some (mk_sdl_world (initialised world) (live_windows world)
                (match result with
                 | Some r => (r, w) :: live_renderers world
                 | None => live_renderers world
                 end))
      else None
  | SDL_DestroyRenderer r =>
      if bool_decide (r ∈ (live_renderers world).*1) then
        Some (mk_sdl_world (initialised world) (live_windows world)
                (List.filter (fun p => negb (bool_decide (p.1 = r)))
                   (live_renderers world)))
      else None
  | SDL_DestroyWindow w =>
      if bool_decide (w ∈ live_windows world) &&
         negb (bool_decide (w ∈ (live_renderers world).*2)) then
        Some (mk_sdl_world (initialised world)
                (List.filter (fun w' => negb (bool_decide (w' = w)))
                   (live_windows world))
                (live_renderers world))
      else None
  | SDL_Quit =>
      Some (mk_sdl_world false (live_windows world) (live_renderers world))
  end.

Definition sdl_run (world : sdl_world) (ops : list sdl_op) : option sdl_world :=
  for_each sdl_step world ops.

(** The rectangle of a call lies in a window of the given size. *)
Definition inside_window (width height : Z) (call : sdl_call) : Prop :=
  match call with
  | SDL_RenderFillRect x y w h =>
      0 <= x /\ x + w <= width /\ 0 <= y /\ y + h <= height
  | _ => True
  end.

(** The board of [actx] lies in the heap [m], over the heap [h0] of the
    start of the program: the array at [garr] holds the pointers [ps]
    to distinct rows of [cols] cells; these blocks are new, and every
    other block is as in [h0]. *)
Record board_in_heap (h0 : gmap Alloc.loc Alloc.block) (m : Alloc.memory)
  (actx : Alloc.gol_context_t) (garr : Alloc.loc) (ps : list Alloc.loc)
  : Prop := mk_board_in_heap {
  bh_grid : Alloc.grid actx = Some garr;
  bh_rows : 0 <= Alloc.rows actx;
  bh_length : length ps = Z.to_nat (Alloc.rows actx);
  bh_array : Alloc.blocks m !! garr = Some (Alloc.row_pointers (Some <$> ps));
  bh_nodup : NoDup ps;
  bh_apart : garr ∉ ps;
  bh_cells : forall p, p ∈ ps ->
    exists cs, Alloc.blocks m !! p = Some (Alloc.cell_row cs) /\
      length cs = Z.to_nat (Alloc.cols actx);
  bh_new_array : h0 !! garr = None;
  bh_new_rows : forall p, p ∈ ps -> h0 !! p = None;
  bh_rest : forall l, l ∉ ps -> l <> garr -> Alloc.blocks m !! l = h0 !! l
}.

(** A run that left nothing behind: the heap holds the blocks it held
    at the start, SDL holds nothing, and the exit code is one of the
    six result codes. *)
Definition clean_exit (m : Alloc.memory) (o : outcome) : Prop :=
  Alloc.blocks (heap o) = Alloc.blocks m /\
  sdl_run sdl_idle (sdl_ops o) = Some sdl_idle /\
  0 <= exit_code o <= 5.

(** The values [sscanf] stores through [%zu] are values of [size_t]. *)
Definition scans_size_t (sscanf_zu : list ascii -> string -> option Z) : Prop :=
  forall s format v, sscanf_zu s format = Some v -> 0 <= v < SIZE_MODULUS.

(** The configuration file of the usage text, as one file. *)
Definition usage_file : list ascii :=
  list_ascii_of_string "@nrows 5
@ncols 5
@config manual
@grid
00100
00100
00100
00000
00000
".

(** The exit code tells what happened: with code 0 the loop has run and
    drawn a frame; with any other code no frame was drawn and a message
    was printed. *)
Definition reported (o : outcome) : Prop :=
  (exit_code o = 0 /\ shown o <> []) \/
  (exit_code o <> 0 /\ shown o = [] /\ printed o <> []).

(** The buffers of a file, cut at the grid markers: the buffers before
    the first marker, and each marker with the buffers that follow it up
    to the next marker. *)
Fixpoint split_at_markers (buffers : list (list ascii))
  : list (list ascii) * list (list ascii * list (list ascii)) :=
  match buffers with
  | [] => ([], [])
  | b :: rest =>
      let (first, parts) := split_at_markers rest in
      if is_grid_marker b then ([], (b, first) :: parts)
      else (b :: first, parts)
  end.

(** The grid sections of a file: for each marker, in file order, the
    buffers between it and the next marker. *)
Definition grid_sections (buffers : list (list ascii))
  : list (list (list ascii)) :=
  (split_at_markers buffers).2.*2.

(** The pattern rows of a section: its buffers that are not blank and
    start neither with ['#'] nor with ['@']. *)
Definition section_rows (section : list (list ascii)) : list (list ascii) :=
  List.filter is_pattern_row section.

(** The cell a section gives to [(r, c)]: marker number [c] of its
    pattern row number [r], if there is one. *)
Definition section_cell (section : list (list ascii)) (r c : Z)
  : option cell_state_t :=
  line ← section_rows section !! Z.to_nat r; row_cells line !! Z.to_nat c.

(** The sections applied one after the other, each from grid row 0: the
    cell is the one the last section that has a marker there gives. *)
Fixpoint pattern_overlay (sections : list (list (list ascii))) (r c : Z)
  : option cell_state_t :=
  match sections with
  | [] => None
  | s :: rest =>
      match pattern_overlay rest r c with
      | Some v => Some v
      | None => section_cell s r c
      end
  end.

(** The cell of the board a file gives, and the warning it causes: the
    pattern rows after the last marker are counted. *)
Definition file_cell (buffers : list (list ascii)) (r c : Z) : cell_state_t :=
  default CELL_DEAD (pattern_overlay (grid_sections buffers) r c).

Definition file_messages (ctx : gol_context_t) (buffers : list (list ascii))
  : list message :=
  match last (grid_sections buffers) with
  | Some s => missing_rows_message ctx (section_rows s)
  | None => []
  end.

(** A text that is empty or ends with a newline: what follows it in a
    file starts a line. *)
Definition complete_lines (s : list ascii) : bool :=
  match last s with
  | Some c => Ascii.eqb c newline
  | None => true
  end.







(* ===================================================================== *)
(** ** Machine integers: facts *)
(* ===================================================================== *)

Lemma to_int_id z : INT_MIN <= z <= INT_MAX -> to_int z = z.
Proof.
  unfold to_int, INT_MIN, INT_MAX, UINT_MODULUS. intros H.
  rewrite Z.mod_small; lia.
Qed.

Lemma to_int_le z : 0 <= z -> to_int z <= z.
Proof.
  unfold to_int, INT_MIN, UINT_MODULUS. intros H.
  pose proof (Z.mod_le (z - -2147483648) 4294967296). lia.
Qed.

Lemma to_int_range z : INT_MIN <= to_int z <= INT_MAX.
Proof.
  unfold to_int, INT_MIN, INT_MAX, UINT_MODULUS.
  pose proof (Z.mod_pos_bound (z - -2147483648) 4294967296). lia.
Qed.

Lemma to_size_t_nonneg z : 0 <= z < SIZE_MODULUS -> to_size_t z = z.
Proof. unfold to_size_t. intros H. apply Z.mod_small. lia. Qed.

Lemma to_size_t_neg z : Z.opp SIZE_MODULUS <= z < 0 -> to_size_t z = z + SIZE_MODULUS.
Proof.
  unfold to_size_t, SIZE_MODULUS. intros H.
  symmetry. apply (Z.mod_unique _ _ (-1)); lia.
Qed.

(* ===================================================================== *)
(** ** Array access: facts *)
(* ===================================================================== *)

Lemma grid_get_Some_lookup g r c s :
  grid_get g r c = Some s <->
  0 <= r /\ 0 <= c /\
  exists row, g !! Z.to_nat r = Some row /\ row !! Z.to_nat c = Some s.
Proof.
  unfold grid_get. split.
  - destruct (0 <=? r) eqn:Hr, (0 <=? c) eqn:Hc; simpl; try discriminate.
    destruct (g !! Z.to_nat r) as [row|] eqn:Hrow; simpl; try discriminate.
    intros H. repeat split; try lia. by exists row.
  - intros (Hr & Hc & row & Hrow & Hs).
    replace (0 <=? r) with true by lia. replace (0 <=? c) with true by lia.
    simpl. by rewrite Hrow.
Qed.

Lemma grid_get_bounds n m g r c s :
  grid_wf n m g -> grid_get g r c = Some s -> 0 <= r < n /\ 0 <= c < m.
Proof.
  intros [Hlen Hrows] (Hr & Hc & row & Hrow & Hs)%grid_get_Some_lookup.
  pose proof (lookup_lt_Some _ _ _ Hrow) as Hlt.
  pose proof (lookup_lt_Some _ _ _ Hs) as Hlt'.
  rewrite Forall_lookup in Hrows. specialize (Hrows _ _ Hrow). simpl in Hrows.
  lia.
Qed.

Lemma grid_get_is_Some n m g r c :
  grid_wf n m g -> 0 <= r < n -> 0 <= c < m -> is_Some (grid_get g r c).
Proof.
  intros [Hlen Hrows] Hr Hc.
  destruct (lookup_lt_is_Some_2 g (Z.to_nat r)) as [row Hrow]; [lia|].
  rewrite Forall_lookup in Hrows. pose proof (Hrows _ _ Hrow) as Hl. simpl in Hl.
  destruct (lookup_lt_is_Some_2 row (Z.to_nat c)) as [s Hs]; [lia|].
  exists s. apply grid_get_Some_lookup. repeat split; try lia. by exists row.
Qed.

Lemma grid_set_is_Some n m g r c v :
  grid_wf n m g -> 0 <= r < n -> 0 <= c < m -> is_Some (grid_set g r c v).
Proof.
  intros Hwf Hr Hc. unfold grid_set.
  destruct (grid_get_is_Some n m g r c Hwf Hr Hc) as [s ->]. by eexists.
Qed.

Lemma grid_set_wf n m g r c v g' :
  grid_wf n m g -> grid_set g r c v = Some g' -> grid_wf n m g'.
Proof.
  intros [Hlen Hrows] Hset. unfold grid_set in Hset.
  destruct (grid_get g r c); [|discriminate]. injection Hset as <-.
  split.
  - by rewrite length_alter.
  - rewrite Forall_lookup in Hrows. apply Forall_lookup. intros i row Hi.
    destruct (decide (i = Z.to_nat r)) as [->|Hne].
    + rewrite list_lookup_alter_eq in Hi.
      destruct (g !! Z.to_nat r) as [row0|] eqn:Hrow0; [|discriminate].
      simpl in Hi. injection Hi as <-. rewrite length_insert. eauto.
    + rewrite list_lookup_alter_ne in Hi by done. eauto.
Qed.

(** Reading after a write: the written cell holds the new value, every
    other cell its old one. *)
Lemma grid_get_set g r c v g' r' c' :
  grid_set g r c v = Some g' ->
  grid_get g' r' c' =
    if decide (r' = r /\ c' = c) then Some v else grid_get g r' c'.
Proof.
  intros Hset. unfold grid_set in Hset.
  destruct (grid_get g r c) as [s|] eqn:Hget; [|discriminate].
  injection Hset as <-.
  apply grid_get_Some_lookup in Hget as (Hr & Hc & row & Hrow & Hs).
  pose proof (lookup_lt_Some _ _ _ Hs) as Hlt.
  unfold grid_get.
  destruct (0 <=? r') eqn:Hr', (0 <=? c') eqn:Hc'; simpl;
    try (case_decide; [lia|done]).
  destruct (decide (Z.to_nat r' = Z.to_nat r)) as [Heq|Hne].
  - rewrite Heq, list_lookup_alter_eq, Hrow. simpl.
    destruct (decide (Z.to_nat c' = Z.to_nat c)) as [Heqc|Hnec].
    + rewrite Heqc, list_lookup_insert_eq by done.
      rewrite decide_True; [done|lia].
    + rewrite list_lookup_insert_ne by done.
      rewrite decide_False; [done|lia].
  - rewrite list_lookup_alter_ne by done.
    rewrite decide_False; [done|lia].
Qed.

(** Two arrays of the same dimensions with the same cells are equal. *)
Lemma grid_ext n m g1 g2 :
  grid_wf n m g1 -> grid_wf n m g2 ->
  (forall r c, 0 <= r < n -> 0 <= c < m -> grid_get g1 r c = grid_get g2 r c) ->
  g1 = g2.
Proof.
  intros [Hl1 Hr1] [Hl2 Hr2] Hext.
  rewrite Forall_lookup in Hr1. rewrite Forall_lookup in Hr2.
  apply list_eq_same_length with (Z.to_nat n); [done..|].
  intros i row1 row2 Hi H1 H2.
  pose proof (Hr1 _ _ H1) as Hlen1. pose proof (Hr2 _ _ H2) as Hlen2.
  simpl in Hlen1, Hlen2.
  apply list_eq_same_length with (Z.to_nat m); [done..|].
  intros j s1 s2 Hj Hs1 Hs2.
  specialize (Hext (Z.of_nat i) (Z.of_nat j) ltac:(lia) ltac:(lia)).
  assert (E1 : grid_get g1 (Z.of_nat i) (Z.of_nat j) = Some s1).
  { apply grid_get_Some_lookup. rewrite !Nat2Z.id. repeat split; try lia.
    by exists row1. }
  assert (E2 : grid_get g2 (Z.of_nat i) (Z.of_nat j) = Some s2).
  { apply grid_get_Some_lookup. rewrite !Nat2Z.id. repeat split; try lia.
    by exists row2. }
  congruence.
Qed.

(* ===================================================================== *)
(** ** Contexts: facts *)
(* ===================================================================== *)

Lemma same_frame_refl ctx : same_frame ctx ctx.
Proof. by repeat split. Qed.

Lemma same_frame_trans a b c : same_frame a b -> same_frame b c -> same_frame a c.
Proof. unfold same_frame. intros (?&?&?) (?&?&?). repeat split; congruence. Qed.

Lemma in_bounds_frame a b r c : same_frame a b -> in_bounds a r c -> in_bounds b r c.
Proof. unfold same_frame, in_bounds. intros (-> & -> & _). done. Qed.

Lemma in_boundsb_spec ctx r c : in_boundsb ctx r c = true <-> in_bounds ctx r c.
Proof. unfold in_boundsb, in_bounds. rewrite !andb_true_iff. lia. Qed.

Lemma get_cell_bounds ctx r c s :
  ctx_wf ctx -> get_cell ctx r c = Some s -> in_bounds ctx r c.
Proof. intros (_&_&_&_&Hg) H. exact (grid_get_bounds _ _ _ _ _ _ Hg H). Qed.

Lemma get_cell_is_Some ctx r c :
  ctx_wf ctx -> in_bounds ctx r c -> is_Some (get_cell ctx r c).
Proof. intros (_&_&_&_&Hg) [Hr Hc]. by eapply grid_get_is_Some. Qed.

(** [ctx->grid[r][c] = v] inside the grid: the cell is written, nothing
    else changes. *)
Lemma set_cell_spec ctx r c v :
  ctx_wf ctx -> in_bounds ctx r c ->
  exists ctx', set_cell ctx r c v = Some ctx' /\ ctx_wf ctx' /\
    same_frame ctx ctx' /\ get_cell ctx' r c = Some v /\
    forall r' c', (r', c') <> (r, c) -> get_cell ctx' r' c' = get_cell ctx r' c'.
Proof.
  intros Hwf Hb. pose proof Hwf as (H1 & H2 & H3 & H4 & Hg).
  destruct Hb as [Hr Hc].
  destruct (grid_set_is_Some _ _ _ r c v Hg Hr Hc) as [g' Hset].
  exists (with_grid ctx g'). unfold set_cell. rewrite Hset. simpl.
  split; [done|]. split.
  { repeat split; simpl; try done; eapply grid_set_wf; eauto. }
  split; [by repeat split|].
  unfold get_cell; simpl. split.
  - rewrite (grid_get_set _ _ _ _ _ r c Hset). by rewrite decide_True.
  - intros r' c' Hne. rewrite (grid_get_set _ _ _ _ _ r' c' Hset).
    rewrite decide_False; [done|]. intros [-> ->]. by apply Hne.
Qed.

(** Two well-formed contexts of one frame with the same cells are equal. *)
Lemma ctx_ext a b :
  ctx_wf a -> ctx_wf b -> same_frame a b ->
  (forall r c, in_bounds a r c -> get_cell a r c = get_cell b r c) -> a = b.
Proof.
  destruct a as [n m g cfg], b as [n' m' g' cfg'].
  intros (_&_&_&_&Hg) (_&_&_&_&Hg') (Hn & Hm & Hc) Hext. simpl in *. subst.
  f_equal. apply (grid_ext n m); [done..|].
  intros r c Hr Hc. apply Hext. by split.
Qed.

(* ===================================================================== *)
(** ** Loops: facts *)
(* ===================================================================== *)

Lemma for_each_app {St I} (body : St -> I -> option St) s l1 l2 :
  for_each body s (l1 ++ l2) = s' ← for_each body s l1; for_each body s' l2.
Proof.
  revert s. induction l1 as [|i l1 IH]; intros s; simpl; [done|].
  destruct (body s i); simpl; [apply IH|done].
Qed.

Lemma for_each_invariant {St I} (P : St -> Prop) (body : St -> I -> option St) l :
  (forall s i s', P s -> body s i = Some s' -> P s') ->
  forall s s', P s -> for_each body s l = Some s' -> P s'.
Proof.
  intros Hbody. induction l as [|i l IH]; intros s s' HP; simpl.
  - by intros [= <-].
  - destruct (body s i) as [s1|] eqn:E; simpl; [|discriminate]. eauto.
Qed.

Lemma for_each_pairs {St} (body : St -> Z -> Z -> option St) s i js :
  for_each (fun s p => body s p.1 p.2) s (j ← js; [(i, j)]) =
  for_each (fun s j => body s i j) s js.
Proof.
  revert s. induction js as [|j js IH]; intros s; simpl; [done|].
  destruct (body s i j); simpl; [apply IH|done].
Qed.

(** Two nested [for] loops visit the cells row by row, provided the body
    keeps the inner bound. *)
Lemma nested_loops {St} (body : St -> Z -> Z -> option St) (bound : St -> Z)
  (P : St -> Prop) m :
  (forall s i j s', P s -> body s i j = Some s' -> P s') ->
  (forall s, P s -> bound s = m) ->
  forall n s, P s ->
  for_range (fun s i => for_range (fun s j => body s i j) s (bound s)) s n =
  for_each (fun s p => body s p.1 p.2) s (row_major n m).
Proof.
  intros Hbody Hbound n. unfold for_range, row_major.
  generalize (seqZ 0 n) as rs. induction rs as [|i rs IH]; intros s HP; [done|].
  simpl. rewrite for_each_app, for_each_pairs, (Hbound s HP).
  destruct (for_each (fun s j => body s i j) s (seqZ 0 m)) as [s1|] eqn:E;
    simpl; [|done].
  apply IH. revert E. apply for_each_invariant; [|done]. intros; eauto.
Qed.

Lemma elem_of_row_major n m r c :
  (r, c) ∈ row_major n m <-> 0 <= r < n /\ 0 <= c < m.
Proof.
  unfold row_major. rewrite list_elem_of_bind. split.
  - intros (i & Hin & Hi%elem_of_seqZ).
    apply list_elem_of_bind in Hin as (j & Hin & Hj%elem_of_seqZ).
    apply list_elem_of_singleton in Hin as [= -> ->]. lia.
  - intros [Hr Hc]. exists r. split; [|apply elem_of_seqZ; lia].
    apply list_elem_of_bind. exists c. split; [|apply elem_of_seqZ; lia].
    by apply list_elem_of_singleton.
Qed.

(* ===================================================================== *)
(** ** Neighbour counting: facts *)
(* ===================================================================== *)

Lemma is_valid_position_bounds ctx nr nc :
  ctx_wf ctx -> is_valid_position ctx nr nc = true -> in_bounds ctx nr nc.
Proof.
  intros (Hr & _ & Hc & _) H. unfold is_valid_position in H.
  rewrite !andb_true_iff in H.
  pose proof (to_int_le _ Hr). pose proof (to_int_le _ Hc).
  unfold in_bounds. lia.
Qed.

Lemma visit_neighbor_term ctx row col dr dc count :
  ctx_wf ctx ->
  visit_neighbor ctx row col dr dc count =
    Some (count + neighbor_term ctx row col dr dc).
Proof.
  intros Hwf. unfold visit_neighbor, neighbor_term.
  destruct ((dr =? 0) && (dc =? 0)); [f_equal; lia|]. cbv zeta.
  destruct (is_valid_position ctx _ _) eqn:Hv; simpl; [|f_equal; lia].
  apply (is_valid_position_bounds _ _ _ Hwf) in Hv.
  destruct (get_cell_is_Some _ _ _ Hwf Hv) as [s ->]. simpl.
  destruct (counts_as_alive s); f_equal; lia.
Qed.

(** [count_neighbors] always returns, with the sum of the nine terms (the
    middle one is 0). *)
Lemma count_neighbors_sum ctx row col :
  ctx_wf ctx ->
  count_neighbors ctx row col =
    Some (neighbor_term ctx row col (-1) (-1) + neighbor_term ctx row col (-1) 0 +
          neighbor_term ctx row col (-1) 1 + neighbor_term ctx row col 0 (-1) +
          neighbor_term ctx row col 0 0 + neighbor_term ctx row col 0 1 +
          neighbor_term ctx row col 1 (-1) + neighbor_term ctx row col 1 0 +
          neighbor_term ctx row col 1 1).
Proof.
  intros Hwf. unfold count_neighbors. cbn [for_each].
  repeat (rewrite (visit_neighbor_term _ _ _ _ _ _ Hwf); cbn [mbind option_bind]).
  f_equal; lia.
Qed.

(** The count reads the cells only through [counts_as_alive]. *)
Lemma neighbor_term_ext a b row col dr dc :
  ctx_wf a -> same_frame a b ->
  (forall r c, in_bounds a r c ->
     counts_as_alive <$> get_cell a r c = counts_as_alive <$> get_cell b r c) ->
  neighbor_term a row col dr dc = neighbor_term b row col dr dc.
Proof.
  intros Hwf (Hn & Hm & _) Hext. unfold neighbor_term.
  destruct ((dr =? 0) && (dc =? 0)); [done|]. cbv zeta.
  assert (Hv : is_valid_position b (int_add (to_int row) dr) (int_add (to_int col) dc)
               = is_valid_position a (int_add (to_int row) dr) (int_add (to_int col) dc)).
  { unfold is_valid_position. by rewrite Hn, Hm. }
  rewrite Hv. destruct (is_valid_position a _ _) eqn:Hva; [|done]. simpl.
  apply (is_valid_position_bounds _ _ _ Hwf) in Hva.
  specialize (Hext _ _ Hva).
  destruct (get_cell a _ _), (get_cell b _ _); simpl in Hext; try discriminate.
  - by injection Hext as ->.
  - done.
Qed.

Lemma count_neighbors_ext a b row col :
  ctx_wf a -> ctx_wf b -> same_frame a b ->
  (forall r c, in_bounds a r c ->
     counts_as_alive <$> get_cell a r c = counts_as_alive <$> get_cell b r c) ->
  count_neighbors a row col = count_neighbors b row col.
Proof.
  intros Ha Hb Hf Hext. rewrite !count_neighbors_sum by done.
  by rewrite !(neighbor_term_ext a b) by done.
Qed.

Lemma moore_offsets_eq :
  moore_offsets =
    [(-1, -1); (-1, 0); (-1, 1); (0, -1); (0, 1); (1, -1); (1, 0); (1, 1)].
Proof. reflexivity. Qed.

Lemma filter_count_cons {A} (f : A -> bool) x l :
  Z.of_nat (length (List.filter f (x :: l))) =
  (if f x then 1 else 0) + Z.of_nat (length (List.filter f l)).
Proof. simpl. destruct (f x); simpl; lia. Qed.

(** With dimensions that fit [int], a term of the count is the indicator
    of "inside the grid and alive or dying" at [(row + dr, col + dc)]. *)
Lemma neighbor_term_moore ctx row col dr dc :
  ctx_wf ctx -> fits_int ctx -> in_bounds ctx row col ->
  -1 <= dr <= 1 -> -1 <= dc <= 1 -> (dr =? 0) && (dc =? 0) = false ->
  neighbor_term ctx row col dr dc =
    if in_boundsb ctx (row + dr) (col + dc) &&
       match get_cell ctx (row + dr) (col + dc) with
       | Some s => counts_as_alive s
       | None => false
       end
    then 1 else 0.
Proof.
  intros (Hr & _ & Hc & _) [Hfr Hfc] [Hbr Hbc] Hdr Hdc Hz.
  unfold neighbor_term. rewrite Hz. cbv zeta.
  unfold int_add, INT_MAX in *.
  rewrite (to_int_id row), (to_int_id col) by (unfold INT_MIN, INT_MAX; lia).
  rewrite (to_int_id (row + dr)), (to_int_id (col + dc))
    by (unfold INT_MIN, INT_MAX; lia).
  unfold is_valid_position, in_boundsb.
  by rewrite (to_int_id (rows ctx)), (to_int_id (cols ctx))
    by (unfold INT_MIN, INT_MAX; lia).
Qed.

Lemma count_neighbors_moore ctx row col :
  ctx_wf ctx -> fits_int ctx -> in_bounds ctx row col ->
  count_neighbors ctx row col = Some (moore_count counts_as_alive ctx row col).
Proof.
  intros Hwf Hfit Hb. rewrite count_neighbors_sum by done.
  unfold moore_count. rewrite moore_offsets_eq.
  rewrite !filter_count_cons. cbn [List.filter length fst snd].
  change (neighbor_term ctx row col 0 0) with 0.
  rewrite !(neighbor_term_moore ctx row col) by (done || lia).
  f_equal. lia.
Qed.

Lemma moore_count_ext (f g : cell_state_t -> bool) ctx row col :
  (forall r c s, get_cell ctx r c = Some s -> f s = g s) ->
  moore_count f ctx row col = moore_count g ctx row col.
Proof.
  intros Hfg. unfold moore_count. do 2 f_equal.
  induction moore_offsets as [|d l IH]; [done|]. simpl.
  rewrite IH.
  destruct (get_cell ctx (row + d.1) (col + d.2)) as [s|] eqn:E; [|done].
  by rewrite (Hfg _ _ _ E).
Qed.

(** In a grid at rest the counted neighbours are the live ones. *)
Lemma moore_count_at_rest ctx row col :
  at_rest ctx ->
  moore_count counts_as_alive ctx row col = live_neighbors ctx row col.
Proof.
  intros Hrest. apply moore_count_ext. intros r c s Hs.
  by destruct (Hrest _ _ _ Hs) as [-> | ->].
Qed.

Lemma moore_count_range f ctx row col : 0 <= moore_count f ctx row col <= 8.
Proof.
  unfold moore_count. rewrite moore_offsets_eq.
  rewrite !filter_count_cons. cbn [List.filter length].
  repeat match goal with |- context [if ?b then 1 else 0] => destruct b end; lia.
Qed.

(* ===================================================================== *)
(** ** Step engine: facts *)
(* ===================================================================== *)

Lemma set_cell_frame ctx r c v ctx' :
  set_cell ctx r c v = Some ctx' -> same_frame ctx ctx'.
Proof.
  unfold set_cell. destruct (grid_set _ _ _ _); simpl; [|discriminate].
  intros [= <-]. by repeat split.
Qed.

Lemma mark_cell_frame ctx i j ctx' :
  mark_cell ctx i j = Some ctx' -> same_frame ctx ctx'.
Proof.
  unfold mark_cell.
  destruct (count_neighbors ctx i j) as [n|]; cbn [mbind option_bind];
    [|discriminate].
  destruct (get_cell ctx i j) as [cur|]; cbn [mbind option_bind];
    [|discriminate].
  repeat match goal with
         | |- context [if ?b then _ else _] => destruct b
         end;
    first [ apply set_cell_frame | intros [= <-]; apply same_frame_refl ].
Qed.

Lemma commit_cell_frame ctx i j ctx' :
  commit_cell ctx i j = Some ctx' -> same_frame ctx ctx'.
Proof.
  unfold commit_cell.
  destruct (get_cell ctx i j) as [cur|]; cbn [mbind option_bind]; [|discriminate].
  repeat match goal with
         | |- context [if ?b then _ else _] => destruct b
         end;
    first [ apply set_cell_frame | intros [= <-]; apply same_frame_refl ].
Qed.

Lemma marked_idempotent s n : marked (marked s n) n = marked s n.
Proof.
  destruct s; simpl; try done.
  - destruct (n =? 3) eqn:E; simpl; by rewrite ?E.
  - destruct ((n <? 2) || (n >? 3)) eqn:E; simpl; by rewrite ?E.
Qed.

Lemma counts_as_alive_marked s n : counts_as_alive (marked s n) = counts_as_alive s.
Proof.
  destruct s; simpl; try done.
  - by destruct (n =? 3).
  - by destruct ((n <? 2) || (n >? 3)).
Qed.

Lemma committed_idempotent s : committed (committed s) = committed s.
Proof. by destruct s. Qed.

Lemma next_state_marked s n : next_state s n = committed (marked s n).
Proof.
  destruct s; simpl; try done.
  - by destruct (n =? 3).
  - by destruct ((n <? 2) || (n >? 3)).
Qed.

(** A visit that leaves the context as it is. *)
Lemma keep_cell_spec ctx r c cur :
  ctx_wf ctx -> get_cell ctx r c = Some cur ->
  exists ctx', Some ctx = Some ctx' /\ ctx_wf ctx' /\
    same_frame ctx ctx' /\ get_cell ctx' r c = Some cur /\
    forall r' c', (r', c') <> (r, c) -> get_cell ctx' r' c' = get_cell ctx r' c'.
Proof.
  intros Hwf Hcur. exists ctx.
  split; [done|]. split; [done|]. split; [apply same_frame_refl|]. by split.
Qed.

(** What one visit of the mark loops does to a context. *)
Lemma mark_cell_local ctx r c cur n :
  ctx_wf ctx -> in_bounds ctx r c ->
  get_cell ctx r c = Some cur -> count_neighbors ctx r c = Some n ->
  exists ctx', mark_cell ctx r c = Some ctx' /\ ctx_wf ctx' /\
    same_frame ctx ctx' /\ get_cell ctx' r c = Some (marked cur n) /\
    forall r' c', (r', c') <> (r, c) -> get_cell ctx' r' c' = get_cell ctx r' c'.
Proof.
  intros Hwf Hb Hcur Hn. unfold mark_cell. rewrite Hn, Hcur. simpl.
  unfold MIN_NEIGHBORS_TO_SURVIVE, MAX_NEIGHBORS_TO_SURVIVE, NEIGHBORS_TO_BIRTH.
  pose proof (keep_cell_spec ctx r c cur Hwf Hcur) as Hsame.
  destruct cur; simpl; try exact Hsame.
  - destruct (n =? 3); [by apply set_cell_spec | exact Hsame].
  - destruct ((n <? 2) || (n >? 3)); [by apply set_cell_spec | exact Hsame].
Qed.

(** What one visit of the commit loops does to a context. *)
Lemma commit_cell_local ctx r c cur :
  ctx_wf ctx -> in_bounds ctx r c -> get_cell ctx r c = Some cur ->
  exists ctx', commit_cell ctx r c = Some ctx' /\ ctx_wf ctx' /\
    same_frame ctx ctx' /\ get_cell ctx' r c = Some (committed cur) /\
    forall r' c', (r', c') <> (r, c) -> get_cell ctx' r' c' = get_cell ctx r' c'.
Proof.
  intros Hwf Hb Hcur. unfold commit_cell. rewrite Hcur. simpl.
  pose proof (keep_cell_spec ctx r c cur Hwf Hcur) as Hsame.
  destruct cur; simpl; try exact Hsame; by apply set_cell_spec.
Qed.

Section Pass.
(** A pass over the grid whose body moves the visited cell from its
    entry value to [target] and touches no other cell. *)
Variable ctx0 : gol_context_t.
Variable target : Z -> Z -> cell_state_t.
Variable body : gol_context_t -> Z -> Z -> option gol_context_t.

Hypothesis body_spec : forall ctx r c,
  between ctx0 target ctx -> in_bounds ctx0 r c ->
  exists ctx', body ctx r c = Some ctx' /\ ctx_wf ctx' /\
    same_frame ctx ctx' /\ get_cell ctx' r c = Some (target r c) /\
    forall r' c', (r', c') <> (r, c) -> get_cell ctx' r' c' = get_cell ctx r' c'.

Lemma pass_spec order :
  Forall (fun p => in_bounds ctx0 p.1 p.2) order ->
  forall ctx, between ctx0 target ctx ->
  exists ctx', for_each (fun ctx p => body ctx p.1 p.2) ctx order = Some ctx' /\
    between ctx0 target ctx' /\
    forall r c, get_cell ctx r c = Some (target r c) \/ (r, c) ∈ order ->
      get_cell ctx' r c = Some (target r c).
Proof.
  induction order as [|[r c] order IH]; intros Hin ctx Hbtw.
  - exists ctx. split; [done|]. split; [done|].
    intros r c [H|H]; [done|]. by apply elem_of_nil in H.
  - apply Forall_cons in Hin as [Hrc Hin]. simpl in Hrc.
    destruct (body_spec ctx r c Hbtw Hrc) as (ctx1 & E & Hwf1 & Hf1 & Hat & Hoth).
    assert (Hbtw1 : between ctx0 target ctx1).
    { destruct Hbtw as (Hwf & Hf & Hcells).
      split; [done|]. split; [by eapply same_frame_trans|].
      intros r' c' Hb'. destruct (decide ((r', c') = (r, c))) as [[= -> ->]|Hne].
      - by right.
      - rewrite (Hoth _ _ Hne). by apply Hcells. }
    destruct (IH Hin ctx1 Hbtw1) as (ctx' & E' & Hbtw' & Hdone).
    exists ctx'. simpl. rewrite E. simpl. split; [done|]. split; [done|].
    intros r' c' H. apply Hdone.
    destruct (decide ((r', c') = (r, c))) as [[= -> ->]|Hne]; [by left|].
    destruct H as [H|H].
    + left. by rewrite (Hoth _ _ Hne).
    + right. apply elem_of_cons in H as [H|H]; [done|done].
Qed.
End Pass.

Lemma between_start ctx0 target : ctx_wf ctx0 -> between ctx0 target ctx0.
Proof. intros Hwf. split; [done|]. split; [apply same_frame_refl|]. by left. Qed.

Lemma mark_in_order_spec ctx order :
  ctx_wf ctx -> Forall (fun p => in_bounds ctx p.1 p.2) order ->
  exists ctx1, mark_in_order order ctx = Some ctx1 /\
    between ctx (mark_target ctx) ctx1 /\
    forall r c, (r, c) ∈ order -> get_cell ctx1 r c = Some (mark_target ctx r c).
Proof.
  intros Hwf Hin.
  destruct (pass_spec ctx (mark_target ctx) mark_cell) with (order := order) (ctx := ctx)
    as (ctx1 & E & Hbtw & Hdone); [|done|by apply between_start|].
  - intros cur r c (Hwfc & Hf & Hcells) Hb.
    assert (Hbc : in_bounds cur r c) by by eapply in_bounds_frame.
    destruct (get_cell_is_Some _ _ _ Hwf Hb) as [s0 Hs0].
    assert (Hcount : count_neighbors cur r c = count_neighbors ctx r c).
    { symmetry. apply count_neighbors_ext; try done.
      intros r' c' Hb'. destruct (Hcells _ _ Hb') as [-> | ->]; [done|].
      destruct (get_cell_is_Some _ _ _ Hwf Hb') as [s' Hs']. rewrite Hs'. simpl.
      unfold mark_target. rewrite Hs'. simpl. by rewrite counts_as_alive_marked. }
    destruct (count_neighbors ctx r c) as [n0|] eqn:Hn0;
      [|by rewrite count_neighbors_sum in Hn0].
    assert (Ht : mark_target ctx r c = marked s0 n0).
    { unfold mark_target. by rewrite Hs0, Hn0. }
    destruct (Hcells _ _ Hb) as [Hcur | Hcur]; rewrite ?Hs0 in Hcur.
    + destruct (mark_cell_local cur r c s0 n0) as (ctx' & ? & ? & ? & ? & ?);
        try done.
      exists ctx'. rewrite Ht. done.
    + destruct (mark_cell_local cur r c (marked s0 n0) n0)
        as (ctx' & ? & ? & ? & Hv & ?); try done; [by rewrite <- Ht|].
      exists ctx'. rewrite Ht. rewrite marked_idempotent in Hv. done.
  - exists ctx1. split; [exact E|]. split; [done|].
    intros r c Hrc. apply Hdone. by right.
Qed.

Lemma commit_in_order_spec ctx1 order :
  ctx_wf ctx1 -> Forall (fun p => in_bounds ctx1 p.1 p.2) order ->
  exists ctx2, for_each (fun ctx p => commit_cell ctx p.1 p.2) ctx1 order = Some ctx2 /\
    between ctx1 (commit_target ctx1) ctx2 /\
    forall r c, (r, c) ∈ order -> get_cell ctx2 r c = Some (commit_target ctx1 r c).
Proof.
  intros Hwf Hin.
  destruct (pass_spec ctx1 (commit_target ctx1) commit_cell)
    with (order := order) (ctx := ctx1)
    as (ctx2 & E & Hbtw & Hdone); [|done|by apply between_start|].
  - intros cur r c (Hwfc & Hf & Hcells) Hb.
    assert (Hbc : in_bounds cur r c) by by eapply in_bounds_frame.
    destruct (get_cell_is_Some _ _ _ Hwf Hb) as [s1 Hs1].
    assert (Ht : commit_target ctx1 r c = committed s1).
    { unfold commit_target. by rewrite Hs1. }
    destruct (Hcells _ _ Hb) as [Hcur | Hcur]; rewrite ?Hs1 in Hcur.
    + destruct (commit_cell_local cur r c s1) as (ctx' & ? & ? & ? & ? & ?);
        try done.
      exists ctx'. rewrite Ht. done.
    + destruct (commit_cell_local cur r c (committed s1))
        as (ctx' & ? & ? & ? & Hv & ?); try done; [by rewrite <- Ht|].
      exists ctx'. rewrite Ht. rewrite committed_idempotent in Hv. done.
  - exists ctx2. split; [exact E|]. split; [done|].
    intros r c Hrc. apply Hdone. by right.
Qed.

Lemma row_major_in_bounds ctx :
  Forall (fun p => in_bounds ctx p.1 p.2) (row_major (rows ctx) (cols ctx)).
Proof.
  apply Forall_forall. intros [r c] H. by apply elem_of_row_major in H.
Qed.

(** The loops of the two phases visit the cells in row-major order. *)
Lemma mark_phase_row_major ctx :
  mark_phase ctx = mark_in_order (row_major (rows ctx) (cols ctx)) ctx.
Proof.
  unfold mark_phase, mark_in_order.
  apply (nested_loops mark_cell cols (same_frame ctx)).
  - intros s i j s' Hs E. eapply same_frame_trans; [done|].
    by eapply mark_cell_frame.
  - by intros s (_ & -> & _).
  - apply same_frame_refl.
Qed.

Lemma commit_phase_row_major ctx :
  commit_phase ctx =
  for_each (fun ctx p => commit_cell ctx p.1 p.2) ctx
    (row_major (rows ctx) (cols ctx)).
Proof.
  unfold commit_phase.
  apply (nested_loops commit_cell cols (same_frame ctx)).
  - intros s i j s' Hs E. eapply same_frame_trans; [done|].
    by eapply commit_cell_frame.
  - by intros s (_ & -> & _).
  - apply same_frame_refl.
Qed.

Lemma ctx_wfb_spec ctx : ctx_wfb ctx = true -> ctx_wf ctx.
Proof.
  unfold ctx_wfb, ctx_wf, grid_wf. rewrite !andb_true_iff.
  intros [[[[[H1 H2] H3] H4] H5] H6].
  rewrite forallb_forall in H6.
  repeat split; try lia.
  - by apply Nat.eqb_eq.
  - apply Forall_forall. intros row Hin. apply Nat.eqb_eq, H6.
    by apply list_elem_of_In.
Qed.

Lemma at_restb_spec ctx : at_restb ctx = true -> at_rest ctx.
Proof.
  unfold at_restb, at_rest, get_cell. rewrite forallb_forall.
  intros H r c s (_ & _ & row & Hrow & Hs)%grid_get_Some_lookup.
  apply list_elem_of_lookup_2, list_elem_of_In, H in Hrow.
  rewrite forallb_forall in Hrow.
  apply list_elem_of_lookup_2, list_elem_of_In, Hrow in Hs.
  destruct s; (by left) || (by right) || discriminate.
Qed.

Lemma reference_step_get ctx r c :
  get_cell (reference_step ctx) r c =
    (fun s => next_state s (default 0 (count_neighbors ctx r c))) <$> get_cell ctx r c.
Proof.
  unfold get_cell, reference_step, grid_get. simpl.
  destruct (0 <=? r) eqn:Hr, (0 <=? c) eqn:Hc; simpl; try done.
  rewrite list_lookup_imap.
  destruct (grid ctx !! Z.to_nat r) as [row|]; simpl; [|done].
  rewrite list_lookup_imap.
  destruct (row !! Z.to_nat c) as [s|]; simpl; [|done].
  by rewrite !Z2Nat.id by lia.
Qed.

Lemma reference_step_wf ctx : ctx_wf ctx -> ctx_wf (reference_step ctx).
Proof.
  intros (H1 & H2 & H3 & H4 & Hlen & Hrows).
  repeat split; simpl; try done.
  - by rewrite length_imap.
  - rewrite Forall_lookup in Hrows. apply Forall_lookup. intros i row Hi.
    apply list_lookup_imap_Some in Hi as (row0 & Hrow0 & ->).
    rewrite length_imap. exact (Hrows _ _ Hrow0).
Qed.

Lemma reference_step_frame ctx : same_frame ctx (reference_step ctx).
Proof. by repeat split. Qed.

(** The step with the mark phase run in any order that visits every cell
    of the grid, and only cells of the grid: it returns, and what it
    returns is the reference step of the pre-step context. *)
Lemma simulate_step_in_order_reference ctx order :
  ctx_wf ctx ->
  Forall (fun p => in_bounds ctx p.1 p.2) order ->
  (forall r c, in_bounds ctx r c -> (r, c) ∈ order) ->
  simulate_step_in_order order ctx = Some (reference_step ctx).
Proof.
  intros Hwf Hin Hall. unfold simulate_step_in_order.
  destruct (mark_in_order_spec ctx order Hwf Hin)
    as (ctx1 & -> & (Hwf1 & Hf1 & _) & Hmark).
  cbn [mbind option_bind]. rewrite commit_phase_row_major.
  destruct (commit_in_order_spec ctx1 _ Hwf1 (row_major_in_bounds ctx1))
    as (ctx2 & -> & (Hwf2 & Hf2 & _) & Hcommit).
  f_equal. apply ctx_ext; [done|by apply reference_step_wf| |].
  - apply (same_frame_trans _ ctx); [|apply reference_step_frame].
    destruct Hf2 as (E1 & E2 & E3), Hf1 as (E4 & E5 & E6).
    unfold same_frame. rewrite <- E4, <- E5, <- E6. by rewrite E1, E2, E3.
  - intros r c Hb2.
    assert (Hb1 : in_bounds ctx1 r c).
    { destruct Hf2 as (E1 & E2 & _). unfold in_bounds in *. by rewrite <- E1, <- E2. }
    assert (Hb : in_bounds ctx r c).
    { destruct Hf1 as (E1 & E2 & _). unfold in_bounds in *. by rewrite <- E1, <- E2. }
    rewrite (Hcommit r c) by by apply elem_of_row_major.
    unfold commit_target. rewrite (Hmark r c) by by apply Hall.
    simpl. rewrite reference_step_get.
    destruct (get_cell_is_Some _ _ _ Hwf Hb) as [s0 Hs0].
    unfold mark_target. rewrite Hs0. simpl. by rewrite next_state_marked.
Qed.

Lemma simulate_step_row_major ctx :
  simulate_step ctx = simulate_step_in_order (row_major (rows ctx) (cols ctx)) ctx.
Proof. unfold simulate_step, simulate_step_in_order. by rewrite mark_phase_row_major. Qed.

(** [simulate_step] returns, with the reference step. *)
Lemma simulate_step_reference ctx :
  ctx_wf ctx -> simulate_step ctx = Some (reference_step ctx).
Proof.
  intros Hwf. rewrite simulate_step_row_major.
  apply simulate_step_in_order_reference; [done|apply row_major_in_bounds|].
  intros r c Hb. by apply elem_of_row_major.
Qed.

(* ===================================================================== *)
(** ** The wide board: facts *)
(* ===================================================================== *)

Lemma wide_ctx_wf : ctx_wf wide_ctx.
Proof.
  unfold ctx_wf, grid_wf.
  change (rows wide_ctx) with 1. change (cols wide_ctx) with 2147483648.
  change (grid wide_ctx) with [replicate (Z.to_nat 2147483648) CELL_ALIVE].
  unfold Alloc.SIZEOF_POINTER, Alloc.SIZEOF_CELL, SIZE_MODULUS.
  repeat split; try lia.
  apply Forall_cons. split; [apply length_replicate|apply Forall_nil_2].
Qed.

Lemma wide_ctx_get r c :
  in_bounds wide_ctx r c -> get_cell wide_ctx r c = Some CELL_ALIVE.
Proof.
  unfold in_bounds.
  change (rows wide_ctx) with 1. change (cols wide_ctx) with 2147483648.
  intros [Hr Hc]. apply grid_get_Some_lookup.
  split; [lia|]. split; [lia|].
  exists (replicate (Z.to_nat 2147483648) CELL_ALIVE). split.
  - replace r with 0 by lia. reflexivity.
  - apply lookup_replicate_2. lia.
Qed.

Lemma wide_ctx_at_rest : at_rest wide_ctx.
Proof.
  intros r c s Hs. pose proof (get_cell_bounds _ _ _ _ wide_ctx_wf Hs) as Hb.
  rewrite (wide_ctx_get r c Hb) in Hs. injection Hs as <-. by right.
Qed.

(** A dimension that [int] reads as non-positive makes every position
    invalid, so nothing is counted. *)
Lemma neighbor_term_no_valid ctx row col dr dc :
  to_int (cols ctx) <= 0 -> neighbor_term ctx row col dr dc = 0.
Proof.
  intros H. unfold neighbor_term.
  destruct ((dr =? 0) && (dc =? 0)); [done|]. cbv zeta.
  replace (is_valid_position ctx _ _) with false; [done|].
  symmetry. apply not_true_iff_false. unfold is_valid_position.
  rewrite !andb_true_iff. lia.
Qed.

Lemma wide_ctx_count row col : count_neighbors wide_ctx row col = Some 0.
Proof.
  rewrite count_neighbors_sum by apply wide_ctx_wf.
  by rewrite !neighbor_term_no_valid by done.
Qed.

Lemma wide_ctx_term (f : cell_state_t -> bool) r c :
  in_boundsb wide_ctx r c &&
    match get_cell wide_ctx r c with Some s => f s | None => false end =
  in_boundsb wide_ctx r c && f CELL_ALIVE.
Proof.
  destruct (in_boundsb wide_ctx r c) eqn:Hb; [|done].
  apply in_boundsb_spec in Hb. by rewrite wide_ctx_get.
Qed.

Lemma wide_ctx_moore_count (f : cell_state_t -> bool) row col :
  moore_count f wide_ctx row col =
  Z.of_nat (length (List.filter
    (fun d => (0 <=? row + d.1) && (row + d.1 <? 1) &&
              (0 <=? col + d.2) && (col + d.2 <? 2147483648) && f CELL_ALIVE)
    moore_offsets)).
Proof.
  unfold moore_count. do 2 f_equal.
  induction moore_offsets as [|d l IH]; [done|].
  cbn [List.filter]. rewrite IH, wide_ctx_term. reflexivity.
Qed.

(* ===================================================================== *)
(** ** Grid model and step engine: the properties *)
(* ===================================================================== *)

Lemma blinker_ctx_wf : ctx_wf blinker_ctx.
Proof. apply ctx_wfb_spec. reflexivity. Qed.

Lemma blinker_ctx_at_rest : at_rest blinker_ctx.
Proof. apply at_restb_spec. reflexivity. Qed.

Lemma blinker_ctx_fits : fits_int blinker_ctx.
Proof. unfold fits_int, INT_MAX. simpl. lia. Qed.

Lemma moore_offsets_spec dr dc :
  (dr, dc) ∈ moore_offsets <->
  -1 <= dr <= 1 /\ -1 <= dc <= 1 /\ (dr, dc) <> (0, 0).
Proof.
  rewrite moore_offsets_eq. rewrite !elem_of_cons, elem_of_nil. split.
  - intros H. repeat destruct H as [H|H]; try done;
      injection H as -> ->; (split; [lia|]); (split; [lia|]); discriminate.
  - intros (Hr & Hc & Hne).
    assert (dr = -1 \/ dr = 0 \/ dr = 1) as [-> | [-> | ->]] by lia;
      assert (dc = -1 \/ dc = 0 \/ dc = 1) as [-> | [-> | ->]] by lia;
      tauto.
Qed.

(** The count does not depend on the state of the cell itself. *)
Lemma moore_count_own_cell f ctx ctx' row col v :
  ctx_wf ctx -> in_bounds ctx row col -> set_cell ctx row col v = Some ctx' ->
  moore_count f ctx' row col = moore_count f ctx row col.
Proof.
  intros Hwf Hb Hset.
  destruct (set_cell_spec ctx row col v Hwf Hb) as (ctx2 & E & _ & Hf & _ & Hoth).
  rewrite Hset in E. injection E as <-.
  unfold moore_count. do 2 f_equal.
  assert (Hin : forall d, d ∈ moore_offsets -> d <> (0, 0)).
  { intros [dr dc] H. by apply moore_offsets_spec in H as (_ & _ & H). }
  induction moore_offsets as [|d l IH]; [done|].
  cbn [List.filter].
  rewrite IH by (intros; apply Hin; by right).
  assert (Hd : d <> (0, 0)) by (apply Hin; by left).
  replace (in_boundsb ctx' (row + d.1) (col + d.2))
    with (in_boundsb ctx (row + d.1) (col + d.2))
    by (destruct Hf as (E1 & E2 & _); unfold in_boundsb; by rewrite E1, E2).
  rewrite Hoth; [done|].
  destruct d as [dr dc]. simpl. intros [= ? ?]. apply Hd. f_equal; lia.
Qed.

(** C2, amended: on a grid whose [rows] and [cols] fit [int], and at an
    in-bounds position, [count_neighbors] returns (so every cell it read
    was inside the array) the number of Moore-neighbourhood positions
    inside [0, rows) x [0, cols) whose state is alive or dying; the
    offsets are [{-1,0,1}^2] without [(0,0)], and the result does not
    change when the state of the cell itself is changed. *)
Theorem count_neighbors_moore_neighbourhood ctx row col :
  ctx_wf ctx -> fits_int ctx -> in_bounds ctx row col ->
  count_neighbors ctx row col = Some (moore_count counts_as_alive ctx row col) /\
  (forall dr dc, (dr, dc) ∈ moore_offsets <->
     -1 <= dr <= 1 /\ -1 <= dc <= 1 /\ (dr, dc) <> (0, 0)) /\
  (forall v ctx', set_cell ctx row col v = Some ctx' ->
     count_neighbors ctx' row col = count_neighbors ctx row col).
Proof.
  intros Hwf Hfit Hb. split; [by apply count_neighbors_moore|].
  split; [apply moore_offsets_spec|].
  intros v ctx' Hset.
  destruct (set_cell_spec ctx row col v Hwf Hb) as (ctx2 & E & Hwf' & Hf & _).
  rewrite Hset in E. injection E as <-.
  rewrite !count_neighbors_moore; try done.
  - f_equal. by eapply moore_count_own_cell.
  - destruct Hf as (E1 & E2 & _). unfold fits_int. by rewrite E1, E2.
  - by eapply in_bounds_frame.
Qed.

Lemma count_neighbors_moore_neighbourhood_witness :
  ctx_wf blinker_ctx /\ fits_int blinker_ctx /\ in_bounds blinker_ctx 1 1 /\
  count_neighbors blinker_ctx 1 1 = Some 3.
Proof.
  pose proof (count_neighbors_moore_neighbourhood blinker_ctx 1 1
                blinker_ctx_wf blinker_ctx_fits) as H.
  assert (Hb : in_bounds blinker_ctx 1 1) by (unfold in_bounds; simpl; lia).
  split; [apply blinker_ctx_wf|]. split; [apply blinker_ctx_fits|].
  split; [exact Hb|]. exact (proj1 (H Hb)).
Defined.

(** On the wide board the count is 0 at the first cell, whose right
    neighbour is alive and inside the grid. *)
Lemma count_neighbors_wide_counterexample :
  ctx_wf wide_ctx /\ in_bounds wide_ctx 0 0 /\
  count_neighbors wide_ctx 0 0 = Some 0 /\
  moore_count counts_as_alive wide_ctx 0 0 = 1.
Proof.
  split; [apply wide_ctx_wf|]. split.
  { unfold in_bounds. change (rows wide_ctx) with 1.
    change (cols wide_ctx) with 2147483648. lia. }
  split; [apply wide_ctx_count|].
  rewrite wide_ctx_moore_count. reflexivity.
Qed.

(** C1, amended: on a grid at rest whose [rows] and [cols] fit [int],
    one call of [simulate_step] returns, and at every position a dead
    cell with exactly 3 live neighbours is alive, a live cell with fewer
    than 2 or more than 3 is dead, a live cell with 2 or 3 stays alive,
    and a dead cell with a count other than 3 stays dead; the counts are
    those of the pre-step grid. *)
Theorem simulate_step_rule ctx r c :
  ctx_wf ctx -> fits_int ctx -> at_rest ctx -> in_bounds ctx r c ->
  exists ctx', simulate_step ctx = Some ctx' /\
    (get_cell ctx r c = Some CELL_DEAD -> live_neighbors ctx r c = 3 ->
       get_cell ctx' r c = Some CELL_ALIVE) /\
    (get_cell ctx r c = Some CELL_ALIVE ->
       live_neighbors ctx r c < 2 \/ live_neighbors ctx r c > 3 ->
       get_cell ctx' r c = Some CELL_DEAD) /\
    (get_cell ctx r c = Some CELL_ALIVE ->
       live_neighbors ctx r c = 2 \/ live_neighbors ctx r c = 3 ->
       get_cell ctx' r c = Some CELL_ALIVE) /\
    (get_cell ctx r c = Some CELL_DEAD -> live_neighbors ctx r c <> 3 ->
       get_cell ctx' r c = Some CELL_DEAD).
Proof.
  intros Hwf Hfit Hrest Hb. exists (reference_step ctx).
  split; [by apply simulate_step_reference|].
  rewrite reference_step_get, count_neighbors_moore by done.
  rewrite moore_count_at_rest by done. simpl.
  generalize (live_neighbors ctx r c) as n. intros n.
  repeat split; intros -> Hn; simpl; f_equal.
  - replace (n =? 3) with true by lia. done.
  - replace ((n <? 2) || (n >? 3)) with true; [done|].
    symmetry. apply orb_true_iff. lia.
  - replace ((n <? 2) || (n >? 3)) with false; [done|].
    symmetry. apply orb_false_iff. lia.
  - replace (n =? 3) with false by lia. done.
Qed.

Lemma simulate_step_rule_witness :
  ctx_wf blinker_ctx /\ fits_int blinker_ctx /\ at_rest blinker_ctx /\
  in_bounds blinker_ctx 1 1 /\
  get_cell blinker_ctx 1 1 = Some CELL_DEAD /\
  live_neighbors blinker_ctx 1 1 = 3 /\
  exists ctx', simulate_step blinker_ctx = Some ctx' /\
    get_cell ctx' 1 1 = Some CELL_ALIVE.
Proof.
  assert (Hb : in_bounds blinker_ctx 1 1) by (unfold in_bounds; simpl; lia).
  destruct (simulate_step_rule blinker_ctx 1 1 blinker_ctx_wf blinker_ctx_fits
              blinker_ctx_at_rest Hb) as (ctx' & Hstep & Hbirth & _).
  split; [apply blinker_ctx_wf|]. split; [apply blinker_ctx_fits|].
  split; [apply blinker_ctx_at_rest|]. split; [exact Hb|].
  split; [reflexivity|]. split; [reflexivity|].
  exists ctx'. split; [exact Hstep|]. apply Hbirth; reflexivity.
Defined.

(** On the wide board the second cell is alive with two live neighbours,
    and dead after the step. *)
Lemma simulate_step_wide_counterexample :
  ctx_wf wide_ctx /\ at_rest wide_ctx /\ in_bounds wide_ctx 0 1 /\
  get_cell wide_ctx 0 1 = Some CELL_ALIVE /\
  live_neighbors wide_ctx 0 1 = 2 /\
  exists ctx', simulate_step wide_ctx = Some ctx' /\
    get_cell ctx' 0 1 = Some CELL_DEAD.
Proof.
  assert (Hb : in_bounds wide_ctx 0 1).
  { unfold in_bounds. change (rows wide_ctx) with 1.
    change (cols wide_ctx) with 2147483648. lia. }
  split; [apply wide_ctx_wf|]. split; [apply wide_ctx_at_rest|].
  split; [exact Hb|]. split; [by apply wide_ctx_get|].
  split.
  { unfold live_neighbors. rewrite wide_ctx_moore_count. reflexivity. }
  exists (reference_step wide_ctx).
  split; [apply simulate_step_reference, wide_ctx_wf|].
  by rewrite reference_step_get, wide_ctx_get, wide_ctx_count.
Qed.

(** C3: the in-place mark-then-commit step returns the grid of the
    reference step, which computes every cell from the untouched
    pre-step context; and with the mark phase visiting the cells in any
    other order, a permutation of the row-by-row one, the step returns
    the same grid.  The grid need not be at rest. *)
Theorem simulate_step_order_independent ctx order :
  ctx_wf ctx -> order ≡ₚ row_major (rows ctx) (cols ctx) ->
  simulate_step ctx = Some (reference_step ctx) /\
  simulate_step_in_order order ctx = simulate_step ctx.
Proof.
  intros Hwf Hperm. split; [by apply simulate_step_reference|].
  rewrite simulate_step_reference by done.
  apply simulate_step_in_order_reference; [done| |].
  - rewrite Hperm. apply row_major_in_bounds.
  - intros r c Hb. rewrite Hperm. by apply elem_of_row_major.
Qed.

Lemma simulate_step_order_independent_witness :
  ctx_wf blinker_ctx /\
  reverse (row_major 5 5) ≡ₚ row_major (rows blinker_ctx) (cols blinker_ctx) /\
  simulate_step_in_order (reverse (row_major 5 5)) blinker_ctx =
    simulate_step blinker_ctx.
Proof.
  split; [apply blinker_ctx_wf|]. split; [apply reverse_Permutation|].
  exact (proj2 (simulate_step_order_independent blinker_ctx
                  (reverse (row_major 5 5)) blinker_ctx_wf
                  (reverse_Permutation _))).
Defined.

(** After a step the grid is at rest again, with the dimensions and the
    configuration it had; the step has no failure. *)
Theorem simulate_step_at_rest ctx :
  ctx_wf ctx ->
  exists ctx', simulate_step ctx = Some ctx' /\ ctx_wf ctx' /\
    same_frame ctx ctx' /\ at_rest ctx'.
Proof.
  intros Hwf. exists (reference_step ctx).
  split; [by apply simulate_step_reference|].
  split; [by apply reference_step_wf|]. split; [apply reference_step_frame|].
  intros r c s. rewrite reference_step_get.
  destruct (get_cell ctx r c) as [s0|]; [|discriminate]. simpl.
  intros [= <-]. generalize (default 0 (count_neighbors ctx r c)) as k.
  intros k. destruct s0; simpl; try (by left); try (by right).
  - destruct (k =? 3); [by right|by left].
  - destruct ((k <? 2) || (k >? 3)); [by left|by right].
Qed.

Lemma simulate_step_at_rest_witness :
  exists ctx', simulate_step blinker_ctx = Some ctx' /\ at_rest ctx'.
Proof.
  destruct (simulate_step_at_rest blinker_ctx blinker_ctx_wf)
    as (ctx' & E & _ & _ & Hrest).
  exists ctx'. split; [exact E|exact Hrest].
Defined.

(* ===================================================================== *)
(** ** Interaction handler: the properties *)
(* ===================================================================== *)

(** The pixel-to-cell conversion of one coordinate: inside [0, n) the
    [size_t] value is the quotient itself; a negative quotient becomes a
    value no dimension of an allocated grid reaches. *)
Lemma click_coordinate n z :
  0 <= n -> n * Alloc.SIZEOF_CELL < SIZE_MODULUS ->
  INT_MIN <= z <= INT_MAX ->
  (to_size_t (z ÷ CELL_SIZE) <? n) = true <-> 0 <= z ÷ CELL_SIZE < n.
Proof.
  unfold Alloc.SIZEOF_CELL, SIZE_MODULUS, INT_MIN, INT_MAX, CELL_SIZE.
  intros Hn Hsz Hz.
  assert (Hq : -268435456 <= z ÷ 8 <= 268435455).
  { Z.to_euclidean_division_equations. lia. }
  rewrite Z.ltb_lt.
  destruct (Z_lt_le_dec (z ÷ 8) 0) as [Hneg|Hpos].
  - rewrite to_size_t_neg by (unfold SIZE_MODULUS; lia).
    unfold SIZE_MODULUS. lia.
  - rewrite to_size_t_nonneg by (unfold SIZE_MODULUS; lia). lia.
Qed.

(** The two outcomes of a click. *)
Lemma handle_mouse_click_cases ctx x y :
  ctx_wf ctx -> INT_MIN <= x <= INT_MAX -> INT_MIN <= y <= INT_MAX ->
  (in_bounds ctx (y ÷ CELL_SIZE) (x ÷ CELL_SIZE) /\
   exists s, get_cell ctx (y ÷ CELL_SIZE) (x ÷ CELL_SIZE) = Some s /\
     handle_mouse_click ctx x y =
       set_cell ctx (y ÷ CELL_SIZE) (x ÷ CELL_SIZE)
         (if cell_eqb s CELL_ALIVE then CELL_DEAD else CELL_ALIVE)) \/
  (~ in_bounds ctx (y ÷ CELL_SIZE) (x ÷ CELL_SIZE) /\
   handle_mouse_click ctx x y = Some ctx).
Proof.
  intros Hwf Hx Hy. pose proof Hwf as (Hr & Hrs & Hc & Hcs & _).
  assert (Hrs' : rows ctx * Alloc.SIZEOF_CELL < SIZE_MODULUS)
    by (unfold Alloc.SIZEOF_CELL, Alloc.SIZEOF_POINTER in *; lia).
  pose proof (click_coordinate (rows ctx) y Hr Hrs' Hy) as Hrow.
  pose proof (click_coordinate (cols ctx) x Hc Hcs Hx) as Hcol.
  unfold handle_mouse_click. cbv zeta.
  destruct (to_size_t (y ÷ CELL_SIZE) <? rows ctx) eqn:Er;
    destruct (to_size_t (x ÷ CELL_SIZE) <? cols ctx) eqn:Ec; simpl;
    try (right; split; [unfold in_bounds; intros [? ?]|done];
         first [ apply Hrow in H; discriminate
               | match goal with H' : 0 <= x ÷ _ < _ |- _ =>
                   apply Hcol in H'; discriminate end ]).
  left.
  assert (Hb : in_bounds ctx (y ÷ CELL_SIZE) (x ÷ CELL_SIZE)).
  { split; [by apply Hrow|by apply Hcol]. }
  split; [done|].
  destruct (get_cell_is_Some _ _ _ Hwf Hb) as [s Hs].
  exists s. split; [done|].
  rewrite !to_size_t_nonneg
    by (destruct Hb as [? ?]; unfold SIZE_MODULUS, Alloc.SIZEOF_CELL in *; lia).
  by rewrite Hs.
Qed.

(** C6: a click at pixel [(x, y)] addresses the cell
    [(y / CELL_SIZE, x / CELL_SIZE)], the quotients being C's (truncated
    towards zero).  On a grid at rest, if that position is in bounds the
    cell flips, alive to dead or dead to alive, and every other cell
    keeps its state; if not, the context is returned as it was.  The
    function always returns: it has no error result and writes no
    message. *)
Theorem handle_mouse_click_toggles ctx x y :
  ctx_wf ctx -> at_rest ctx ->
  INT_MIN <= x <= INT_MAX -> INT_MIN <= y <= INT_MAX ->
  exists ctx', handle_mouse_click ctx x y = Some ctx' /\ same_frame ctx ctx' /\
    (in_bounds ctx (y ÷ CELL_SIZE) (x ÷ CELL_SIZE) ->
       (get_cell ctx (y ÷ CELL_SIZE) (x ÷ CELL_SIZE) = Some CELL_ALIVE /\
        get_cell ctx' (y ÷ CELL_SIZE) (x ÷ CELL_SIZE) = Some CELL_DEAD \/
        get_cell ctx (y ÷ CELL_SIZE) (x ÷ CELL_SIZE) = Some CELL_DEAD /\
        get_cell ctx' (y ÷ CELL_SIZE) (x ÷ CELL_SIZE) = Some CELL_ALIVE) /\
       (forall r c, (r, c) <> (y ÷ CELL_SIZE, x ÷ CELL_SIZE) ->
          get_cell ctx' r c = get_cell ctx r c)) /\
    (~ in_bounds ctx (y ÷ CELL_SIZE) (x ÷ CELL_SIZE) -> ctx' = ctx).
Proof.
  intros Hwf Hrest Hx Hy.
  destruct (handle_mouse_click_cases ctx x y Hwf Hx Hy)
    as [(Hb & s & Hs & ->) | (Hnb & ->)].
  - destruct (set_cell_spec ctx _ _
                (if cell_eqb s CELL_ALIVE then CELL_DEAD else CELL_ALIVE) Hwf Hb)
      as (ctx' & -> & _ & Hf & Hv & Hoth).
    exists ctx'. split; [done|]. split; [done|]. split; [|done].
    intros _. split; [|exact Hoth]. rewrite Hv, Hs.
    destruct (Hrest _ _ _ Hs) as [-> | ->]; [by right|by left].
  - exists ctx. split; [done|]. split; [apply same_frame_refl|]. done.
Qed.

Lemma handle_mouse_click_toggles_witness :
  ctx_wf blinker_ctx /\ at_rest blinker_ctx /\
  (INT_MIN <= 17 <= INT_MAX) /\ (INT_MIN <= 9 <= INT_MAX) /\
  exists ctx', handle_mouse_click blinker_ctx 17 9 = Some ctx' /\
    get_cell blinker_ctx 1 2 = Some CELL_ALIVE /\
    get_cell ctx' 1 2 = Some CELL_DEAD /\
    get_cell ctx' 0 2 = get_cell blinker_ctx 0 2.
Proof.
  assert (Hx : INT_MIN <= 17 <= INT_MAX) by (unfold INT_MIN, INT_MAX; lia).
  assert (Hy : INT_MIN <= 9 <= INT_MAX) by (unfold INT_MIN, INT_MAX; lia).
  destruct (handle_mouse_click_toggles blinker_ctx 17 9 blinker_ctx_wf
              blinker_ctx_at_rest Hx Hy) as (ctx' & E & _ & Hin & _).
  assert (Hb : in_bounds blinker_ctx (9 ÷ CELL_SIZE) (17 ÷ CELL_SIZE))
    by (unfold in_bounds, CELL_SIZE; change (9 ÷ 8) with 1;
        change (17 ÷ 8) with 2; simpl; lia).
  destruct (Hin Hb) as (Hflip & Hoth).
  split; [apply blinker_ctx_wf|]. split; [apply blinker_ctx_at_rest|].
  split; [exact Hx|]. split; [exact Hy|].
  exists ctx'. split; [exact E|]. split; [reflexivity|].
  split; [|apply Hoth; discriminate].
  destruct Hflip as [[_ H]|[H _]]; [exact H|discriminate H].
Defined.

(** C10: a click on an in-bounds cell sets it to [CELL_DEAD] when its
    state is exactly [CELL_ALIVE], and to [CELL_ALIVE] in every other
    state, [CELL_DYING] and [CELL_BIRTH] included. *)
Theorem handle_mouse_click_any_state ctx x y s :
  ctx_wf ctx -> INT_MIN <= x <= INT_MAX -> INT_MIN <= y <= INT_MAX ->
  get_cell ctx (y ÷ CELL_SIZE) (x ÷ CELL_SIZE) = Some s ->
  exists ctx', handle_mouse_click ctx x y = Some ctx' /\
    (s <> CELL_ALIVE ->
       get_cell ctx' (y ÷ CELL_SIZE) (x ÷ CELL_SIZE) = Some CELL_ALIVE) /\
    (s = CELL_ALIVE ->
       get_cell ctx' (y ÷ CELL_SIZE) (x ÷ CELL_SIZE) = Some CELL_DEAD).
Proof.
  intros Hwf Hx Hy Hs.
  destruct (handle_mouse_click_cases ctx x y Hwf Hx Hy)
    as [(Hb & s' & Hs' & ->) | (Hnb & _)].
  - rewrite Hs in Hs'. injection Hs' as <-.
    destruct (set_cell_spec ctx _ _
                (if cell_eqb s CELL_ALIVE then CELL_DEAD else CELL_ALIVE) Hwf Hb)
      as (ctx' & -> & _ & _ & Hv & _).
    exists ctx'. split; [done|]. rewrite Hv.
    split; intros H; by destruct s.
  - exfalso. apply Hnb. by eapply get_cell_bounds.
Qed.

(** The blinker board in the middle of a step: the cell at (1,2) is
    marked [CELL_DYING]. *)
Lemma handle_mouse_click_any_state_witness :
  exists mid, set_cell blinker_ctx 1 2 CELL_DYING = Some mid /\
    ctx_wf mid /\ get_cell mid (9 ÷ CELL_SIZE) (17 ÷ CELL_SIZE) = Some CELL_DYING /\
    exists ctx', handle_mouse_click mid 17 9 = Some ctx' /\
      get_cell ctx' 1 2 = Some CELL_ALIVE.
Proof.
  assert (Hx : INT_MIN <= 17 <= INT_MAX) by (unfold INT_MIN, INT_MAX; lia).
  assert (Hy : INT_MIN <= 9 <= INT_MAX) by (unfold INT_MIN, INT_MAX; lia).
  eexists. split; [reflexivity|].
  match goal with |- ctx_wf ?m /\ _ =>
    assert (Hwf : ctx_wf m) by (apply ctx_wfb_spec; reflexivity);
    destruct (handle_mouse_click_any_state m 17 9 CELL_DYING Hwf Hx Hy eq_refl)
      as (ctx' & E & Hother & _)
  end.
  split; [exact Hwf|]. split; [reflexivity|].
  exists ctx'. split; [exact E|]. apply Hother. discriminate.
Defined.


(* ===================================================================== *)
(** ** Random initialization: the properties *)
(* ===================================================================== *)

Lemma NoDup_row_major n m : NoDup (row_major n m).
Proof.
  unfold row_major. apply NoDup_bind; [| |apply NoDup_seqZ].
  - intros i1 i2 [r c] _ _ H1 H2.
    apply list_elem_of_bind in H1 as (j1 & H1 & _).
    apply list_elem_of_bind in H2 as (j2 & H2 & _).
    apply list_elem_of_singleton in H1. apply list_elem_of_singleton in H2.
    congruence.
  - intros i _. apply NoDup_bind; [| |apply NoDup_seqZ].
    + intros j1 j2 [r c] _ _ H1 H2.
      apply list_elem_of_singleton in H1. apply list_elem_of_singleton in H2.
      congruence.
    + intros j _. apply NoDup_singleton.
Qed.

Section RandomFacts.
Context {rng_state : Type}.
Variable rand : rng_state -> Z * rng_state.

Lemma random_cell_frame st i j st' :
  random_cell rand st i j = Some st' -> same_frame st.1 st'.1.
Proof.
  unfold random_cell. destruct (rand st.2) as [v rng'].
  destruct (set_cell st.1 i j _) as [ctx'|] eqn:E; simpl; [|discriminate].
  intros [= <-]. simpl. by eapply set_cell_frame.
Qed.

Lemma random_cell_eq ctx rng i j :
  random_cell rand (ctx, rng) i j =
  ctx' ← set_cell ctx i j (cell_of_rand (rand rng).1); Some (ctx', (rand rng).2).
Proof. unfold random_cell. cbn [fst snd]. by destruct (rand rng). Qed.

(** The body of the loops run over a list of distinct cells: the cell at
    index [k] of the list gets the value of call number [k]; no other
    cell is written. *)
Lemma fill_in_order_spec order :
  NoDup order ->
  forall ctx rng, ctx_wf ctx ->
  Forall (fun p => in_bounds ctx p.1 p.2) order ->
  exists ctx',
    for_each (fun st p => random_cell rand st p.1 p.2) (ctx, rng) order =
      Some (ctx', rng_after rand (length order) rng) /\
    ctx_wf ctx' /\ same_frame ctx ctx' /\
    (forall k r c, order !! k = Some (r, c) ->
       get_cell ctx' r c = Some (cell_of_rand (rng_value rand k rng))) /\
    (forall r c, (r, c) ∉ order -> get_cell ctx' r c = get_cell ctx r c).
Proof.
  induction order as [|[r0 c0] order IH]; intros Hnd ctx rng Hwf Hin.
  - exists ctx. split; [done|]. split; [done|]. split; [apply same_frame_refl|].
    split; [intros k r c H; discriminate|done].
  - apply NoDup_cons in Hnd as [Hnotin Hnd].
    apply Forall_cons in Hin as [Hb Hin]. simpl in Hb.
    destruct (set_cell_spec ctx r0 c0 (cell_of_rand (rand rng).1) Hwf Hb)
      as (ctx1 & E1 & Hwf1 & Hf1 & Hv1 & Hoth1).
    destruct (IH Hnd ctx1 (rand rng).2 Hwf1) as (ctx' & E & Hwf' & Hf' & Hidx & Hrest).
    { eapply Forall_impl; [exact Hin|]. intros p Hp.
      by eapply in_bounds_frame. }
    exists ctx'. split.
    { cbn [for_each fst snd]. rewrite random_cell_eq, E1. exact E. }
    split; [done|]. split; [by eapply same_frame_trans|]. split.
    + intros [|k] r c Hk.
      * injection Hk as -> ->. rewrite Hrest by done. exact Hv1.
      * exact (Hidx k r c Hk).
    + intros r c Hnot. apply not_elem_of_cons in Hnot as [Hne Hnot].
      rewrite Hrest by done. by apply Hoth1.
Qed.

Lemma fill_random_row_major ctx rng :
  fill_random rand (ctx, rng) =
  for_each (fun st p => random_cell rand st p.1 p.2) (ctx, rng)
    (row_major (rows ctx) (cols ctx)).
Proof.
  unfold fill_random.
  apply (nested_loops (random_cell rand) (fun st => cols st.1)
           (fun st => same_frame ctx st.1)).
  - intros st i j st' Hs E. eapply same_frame_trans; [done|].
    by eapply random_cell_frame.
  - by intros st (_ & -> & _).
  - apply same_frame_refl.
Qed.

(** The loops return; every cell of the grid holds the value of its own
    call of [rand], in row-major order from the given generator state. *)
Lemma fill_random_spec ctx rng :
  ctx_wf ctx ->
  exists ctx',
    fill_random rand (ctx, rng) =
      Some (ctx', rng_after rand (length (row_major (rows ctx) (cols ctx))) rng) /\
    ctx_wf ctx' /\ same_frame ctx ctx' /\
    forall r c, in_bounds ctx r c ->
      exists k, row_major (rows ctx) (cols ctx) !! k = Some (r, c) /\
        get_cell ctx' r c = Some (cell_of_rand (rng_value rand k rng)).
Proof.
  intros Hwf. rewrite fill_random_row_major.
  destruct (fill_in_order_spec _ (NoDup_row_major (rows ctx) (cols ctx))
              ctx rng Hwf (row_major_in_bounds ctx))
    as (ctx' & E & Hwf' & Hf & Hidx & _).
  exists ctx'. split; [done|]. split; [done|]. split; [done|].
  intros r c Hb.
  assert (Hin : (r, c) ∈ row_major (rows ctx) (cols ctx))
    by by apply elem_of_row_major.
  apply list_elem_of_lookup_1 in Hin as [k Hk].
  exists k. split; [done|]. by apply Hidx.
Qed.

(** Two boards of the same dimensions filled from the same generator
    state end with the same cells and the same generator state, whatever
    they held before. *)
Lemma fill_random_deterministic ctx1 ctx2 rng :
  ctx_wf ctx1 -> ctx_wf ctx2 ->
  rows ctx1 = rows ctx2 -> cols ctx1 = cols ctx2 ->
  exists r1 r2,
    fill_random rand (ctx1, rng) = Some r1 /\
    fill_random rand (ctx2, rng) = Some r2 /\
    ctx_wf r1.1 /\ same_frame ctx1 r1.1 /\ same_frame ctx2 r2.1 /\
    grid r1.1 = grid r2.1 /\ r1.2 = r2.2.
Proof.
  intros Hwf1 Hwf2 Hrows Hcols.
  destruct (fill_random_spec ctx1 rng Hwf1) as (c1 & E1 & Hw1 & Hf1 & Hc1).
  destruct (fill_random_spec ctx2 rng Hwf2) as (c2 & E2 & Hw2 & Hf2 & Hc2).
  eexists _, _. split; [exact E1|]. split; [exact E2|]. cbn [fst snd].
  split; [done|]. split; [done|]. split; [done|].
  split; [|by rewrite Hrows, Hcols].
  destruct Hw1 as (_&_&_&_&Hg1), Hw2 as (_&_&_&_&Hg2).
  destruct Hf1 as (Er1 & Ec1 & _), Hf2 as (Er2 & Ec2 & _).
  rewrite Er1, Ec1 in Hg1. rewrite Er2, Ec2, <- Hrows, <- Hcols in Hg2.
  apply (grid_ext _ _ _ _ Hg1 Hg2). intros r c Hr Hc.
  destruct (Hc1 r c) as (k1 & Hk1 & G1); [by split|].
  destruct (Hc2 r c) as (k2 & Hk2 & G2); [split; lia|].
  rewrite <- Hrows, <- Hcols in Hk2.
  assert (k1 = k2) as ->.
  { eapply NoDup_lookup; [apply NoDup_row_major|exact Hk1|exact Hk2]. }
  unfold get_cell in G1, G2. by rewrite G1, G2.
Qed.
End RandomFacts.

(** C4: with a non-zero seed, two runs of [initialize_grid_random] on
    boards of the same dimensions return the same grid (and leave the
    generator in the same state), whatever the clock reads and whatever
    the boards held before.  With seed 0 the generator is seeded with the
    clock, converted to [unsigned int]; and with the generator of the C
    standard two clock readings give boards that differ. *)
Theorem initialize_grid_random_deterministic {rng_state : Type}
  (srand : Z -> rng_state) (rand : rng_state -> Z * rng_state)
  ctx1 ctx2 now1 now2 :
  ctx_wf ctx1 -> ctx_wf ctx2 ->
  rows ctx1 = rows ctx2 -> cols ctx1 = cols ctx2 ->
  seed (config ctx1) = seed (config ctx2) ->
  (seed (config ctx1) <> 0 ->
   exists r1 r2,
     initialize_grid_random srand rand ctx1 now1 = Some r1 /\
     initialize_grid_random srand rand ctx2 now2 = Some r2 /\
     grid r1.1 = grid r2.1 /\ r1.2 = r2.2) /\
  (seed (config ctx1) = 0 ->
   initialize_grid_random srand rand ctx1 now1 =
     fill_random rand (ctx1, srand (to_uint now1))) /\
  (seed (config blinker_ctx) = 0 /\
   exists now now',
     fst <$> initialize_grid_random iso_srand iso_rand blinker_ctx now <>
     fst <$> initialize_grid_random iso_srand iso_rand blinker_ctx now').
Proof.
  intros Hwf1 Hwf2 Hrows Hcols Hseed. split; [|split].
  - intros Hnz. unfold initialize_grid_random. cbv zeta.
    rewrite <- Hseed. replace (seed (config ctx1) =? 0) with false by lia.
    destruct (fill_random_deterministic rand ctx1 ctx2
                (srand (seed (config ctx1))) Hwf1 Hwf2 Hrows Hcols)
      as (r1 & r2 & E1 & E2 & _ & _ & _ & Hg & Hr).
    by exists r1, r2.
  - intros Hz. unfold initialize_grid_random. by rewrite Hz.
  - split; [reflexivity|]. exists 5, 6. intros H. vm_compute in H. discriminate.
Qed.

Lemma initialize_grid_random_deterministic_witness :
  ctx_wf seeded_ctx /\ ctx_wf seeded_ctx' /\
  seed (config seeded_ctx) = 42 /\ seed (config seeded_ctx') = 42 /\
  exists r1 r2,
    initialize_grid_random iso_srand iso_rand seeded_ctx 1000 = Some r1 /\
    initialize_grid_random iso_srand iso_rand seeded_ctx' 2000 = Some r2 /\
    grid r1.1 = grid r2.1 /\ r1.2 = r2.2.
Proof.
  assert (Hwf1 : ctx_wf seeded_ctx) by (apply ctx_wfb_spec; reflexivity).
  assert (Hwf2 : ctx_wf seeded_ctx') by (apply ctx_wfb_spec; reflexivity).
  split; [exact Hwf1|]. split; [exact Hwf2|].
  split; [reflexivity|]. split; [reflexivity|].
  apply (initialize_grid_random_deterministic iso_srand iso_rand
           seeded_ctx seeded_ctx' 1000 2000 Hwf1 Hwf2 eq_refl eq_refl eq_refl).
  simpl. lia.
Defined.

(* ===================================================================== *)
(** ** Reading the file: facts *)
(* ===================================================================== *)

Lemma fgets_take_split n stream :
  stream = (fgets_take n stream).1 ++ (fgets_take n stream).2.
Proof.
  revert stream. induction n as [|n IH]; intros [|c stream]; try done.
  simpl. destruct (Ascii.eqb c newline); [done|].
  specialize (IH stream). destruct (fgets_take n stream) as [b r].
  simpl in *. by f_equal.
Qed.

Lemma fgets_take_nonempty n c stream :
  (fgets_take (S n) (c :: stream)).1 <> [].
Proof.
  simpl. destruct (Ascii.eqb c newline); [done|].
  by destruct (fgets_take n stream).
Qed.

(** The loop reads the whole file: the buffers, put end to end, are the
    content. *)
Lemma fgets_loop_concat fuel stream :
  (length stream <= fuel)%nat -> concat (fgets_loop fuel stream) = stream.
Proof.
  revert stream. induction fuel as [|fuel IH]; intros stream Hlen.
  - destruct stream; [done|simpl in Hlen; lia].
  - destruct stream as [|c stream]; [done|].
    cbn [fgets_loop fgets]. change (Z.to_nat (BUFFER_SIZE - 1)) with (S 2046).
    pose proof (fgets_take_split (S 2046) (c :: stream)) as Hs.
    pose proof (fgets_take_nonempty 2046 c stream) as Hne.
    destruct (fgets_take (S 2046) (c :: stream)) as [b r]. cbn [fst snd] in *.
    cbn [concat]. rewrite IH; [done|].
    assert (length (c :: stream) = length b + length r)%nat
      by (by rewrite Hs at 1; rewrite length_app).
    destruct b; [done|]. simpl in *. lia.
Qed.

Lemma file_buffers_concat content : concat (file_buffers content) = content.
Proof. by apply fgets_loop_concat. Qed.





(* ===================================================================== *)
(** ** Manual initialization: facts *)
(* ===================================================================== *)



Lemma omap_cons_Some {A B} (f : A -> option B) x l y :
  f x = Some y -> omap f (x :: l) = y :: omap f l.
Proof. intros H. csimpl. by rewrite H. Qed.

Lemma omap_cons_None {A B} (f : A -> option B) x l :
  f x = None -> omap f (x :: l) = omap f l.
Proof. intros H. csimpl. by rewrite H. Qed.

Lemma parse_row_spec chars : forall ctx r col,
  ctx_wf ctx -> 0 <= r < rows ctx -> 0 <= col ->
  exists ctx', parse_row ctx r chars col = Some ctx' /\
    ctx_wf ctx' /\ same_frame ctx ctx' /\
    forall r' c', get_cell ctx' r' c' =
      match row_written ctx r col chars r' c' with
      | Some v => Some v
      | None => get_cell ctx r' c'
      end.
Proof.
  induction chars as [|ch chars IH]; intros ctx r col Hwf Hr Hcol.
  - exists ctx. split; [done|]. split; [done|]. split; [apply same_frame_refl|].
    intros r' c'. unfold row_written. by case_decide.
  - cbn [parse_row]. destruct (col <? cols ctx) eqn:Hlt.
    2:{ exists ctx. split; [done|]. split; [done|]. split; [apply same_frame_refl|].
        intros r' c'. unfold row_written. case_decide; [lia|done]. }
    assert (Hb : in_bounds ctx r col) by (split; lia).
    assert (Hstep : forall v, marker_cell ch = Some v ->
      exists ctx', (ctx1 ← set_cell ctx r col v; parse_row ctx1 r chars (col + 1))
                   = Some ctx' /\
        ctx_wf ctx' /\ same_frame ctx ctx' /\
        forall r' c', get_cell ctx' r' c' =
          match row_written ctx r col (ch :: chars) r' c' with
          | Some v => Some v
          | None => get_cell ctx r' c'
          end).
    { intros v Hv.
      destruct (set_cell_spec ctx r col v Hwf Hb) as (ctx1 & -> & Hwf1 & Hf1 & Hv1 & Hoth1).
      cbn [mbind option_bind].
      destruct (IH ctx1 r (col + 1) Hwf1) as (ctx' & -> & Hwf' & Hf' & Hcells);
        [destruct Hf1 as (-> & _); lia|lia|].
      exists ctx'. split; [done|]. split; [done|].
      split; [by eapply same_frame_trans|].
      intros r' c'. rewrite Hcells. unfold row_written.
      destruct Hf1 as (_ & Hcols & _). rewrite Hcols.
      rewrite (omap_cons_Some _ _ _ _ Hv).
      destruct (decide (r' = r /\ col + 1 <= c' < cols ctx)) as [[-> Hc]|Hn].
      - rewrite decide_True by lia.
        replace (Z.to_nat (c' - col)) with (S (Z.to_nat (c' - (col + 1)))) by lia.
        cbn [lookup list_lookup].
        destruct (omap marker_cell chars !! _); [done|].
        apply Hoth1. intros [= ?]. lia.
      - destruct (decide (r' = r /\ col <= c' < cols ctx)) as [[-> Hc]|Hn'].
        + assert (c' = col) as -> by lia. rewrite Z.sub_diag. simpl. exact Hv1.
        + apply Hoth1. intros [= -> ->]. lia. }
    unfold marker_cell in Hstep.
    destruct (is_alive_marker ch) eqn:Ha; [by apply Hstep|].
    destruct (is_dead_marker ch) eqn:Hd; [by apply Hstep|].
    destruct (IH ctx r col Hwf Hr Hcol) as (ctx' & -> & Hwf' & Hf' & Hcells).
    exists ctx'. split; [done|]. split; [done|]. split; [done|].
    intros r' c'. rewrite Hcells. unfold row_written.
    rewrite (omap_cons_None marker_cell ch chars); [done|].
    unfold marker_cell. by rewrite Ha, Hd.
Qed.

Lemma starts_with_grid_marker_first s :
  starts_with grid_marker s = true -> first_char s = "@"%char.
Proof.
  destruct s as [|c s]; [done|].
  unfold grid_marker. cbn [list_ascii_of_string starts_with first_char].
  intros [H _]%andb_true_iff. apply Ascii.eqb_eq in H. by subst.
Qed.

(** The three kinds of line, as [parse_line] treats them. *)
Lemma parse_line_skipped st buffer :
  is_grid_marker buffer = false -> in_grid_section st = false ->
  parse_line st buffer = Some st.
Proof.
  unfold is_grid_marker, parse_line. intros Hm ->. cbv zeta.
  destruct (Ascii.eqb (first_char (c_string buffer)) newline) eqn:E1; [done|].
  destruct (Ascii.eqb (first_char (c_string buffer)) "#") eqn:E2; [done|].
  cbn [negb andb orb] in *. by rewrite Hm.
Qed.

Lemma parse_line_marker st buffer :
  is_grid_marker buffer = true ->
  parse_line st buffer = Some (mk_parse_state true 0 (parse_ctx st)).
Proof.
  unfold is_grid_marker, parse_line. rewrite !andb_true_iff, !negb_true_iff.
  intros [[-> ->] ->]. done.
Qed.

Lemma parse_line_pattern_row st buffer :
  is_pattern_row buffer = true -> in_grid_section st = true ->
  parse_line st buffer =
    if current_row st <? rows (parse_ctx st) then
      ctx' ← parse_row (parse_ctx st) (current_row st) (c_string buffer) 0;
      Some (mk_parse_state true (current_row st + 1) ctx')
    else Some st.
Proof.
  unfold is_pattern_row, parse_line. rewrite !andb_true_iff, !negb_true_iff.
  intros [[-> ->] Hat] ->. cbv zeta. cbn [orb].
  destruct (starts_with grid_marker (c_string buffer)) eqn:Hg.
  - apply starts_with_grid_marker_first in Hg. rewrite Hg in Hat. discriminate.
  - by rewrite Hat.
Qed.

Lemma parse_pattern_rows pats : forall st,
  in_grid_section st = true -> ctx_wf (parse_ctx st) ->
  0 <= current_row st <= rows (parse_ctx st) ->
  Forall (fun line => is_pattern_row line = true) pats ->
  exists st', for_each parse_line st pats = Some st' /\
    in_grid_section st' = true /\ ctx_wf (parse_ctx st') /\
    same_frame (parse_ctx st) (parse_ctx st') /\
    current_row st' =
      Z.min (rows (parse_ctx st)) (current_row st + Z.of_nat (length pats)) /\
    forall r c, in_bounds (parse_ctx st) r c ->
      get_cell (parse_ctx st') r c =
        match rows_written (current_row st) pats r c with
        | Some v => Some v
        | None => get_cell (parse_ctx st) r c
        end.
Proof.
  induction pats as [|line pats IH]; intros st Hin Hwf Hcr Hpats.
  - exists st. split; [done|]. split; [done|]. split; [done|].
    split; [apply same_frame_refl|]. split; [simpl; lia|].
    intros r c _. unfold rows_written.
    case_decide; [|done]. by rewrite lookup_nil.
  - apply Forall_cons in Hpats as [Hline Hpats].
    cbn [for_each]. rewrite parse_line_pattern_row by done.
    destruct (current_row st <? rows (parse_ctx st)) eqn:Hlt.
    + destruct (parse_row_spec (c_string line) (parse_ctx st) (current_row st) 0)
        as (ctx1 & -> & Hwf1 & Hf1 & Hcells1); [done|lia|lia|].
      cbn [mbind option_bind].
      destruct (IH (mk_parse_state true (current_row st + 1) ctx1))
        as (st' & -> & Hin' & Hwf' & Hf' & Hrow' & Hcells');
        [done|done|destruct Hf1 as (E & _); simpl; lia|done|].
      cbn [parse_ctx current_row] in *.
      exists st'. split; [done|]. split; [done|]. split; [done|].
      split; [by eapply same_frame_trans|].
      split; [destruct Hf1 as (E & _); rewrite Hrow', E; simpl; lia|].
      intros r c Hb. rewrite Hcells' by by eapply in_bounds_frame.
      rewrite Hcells1. unfold rows_written, row_written.
      destruct Hb as [Hr Hc].
      destruct (decide (current_row st + 1 <= r)) as [Hge|Hlt'].
      * rewrite (decide_True (P := current_row st <= r)) by lia.
        replace (Z.to_nat (r - current_row st))
          with (S (Z.to_nat (r - (current_row st + 1)))) by lia.
        cbn [lookup list_lookup].
        destruct (pats !! _ ≫= _); [done|].
        rewrite decide_False by lia. done.
      * cbn [mbind option_bind].
        destruct (decide (current_row st <= r)) as [Hle|Hgt].
        -- assert (r = current_row st) as -> by lia.
           rewrite Z.sub_diag, decide_True by lia.
           rewrite Z.sub_0_r. cbn [Z.to_nat lookup list_lookup mbind option_bind].
           unfold row_cells. done.
        -- rewrite decide_False by lia. done.
    + cbn [mbind option_bind].
      destruct (IH st) as (st' & -> & Hin' & Hwf' & Hf' & Hrow' & Hcells');
        try done.
      exists st'. split; [done|]. split; [done|]. split; [done|]. split; [done|].
      split; [rewrite Hrow'; simpl; lia|].
      intros r c Hb. rewrite Hcells' by done. unfold rows_written.
      destruct Hb as [Hr Hc]. rewrite !decide_False by lia. done.
Qed.

Lemma parse_header_lines lines ctx :
  Forall (fun line => is_grid_marker line = false) lines ->
  for_each parse_line (mk_parse_state false 0 ctx) lines =
    Some (mk_parse_state false 0 ctx).
Proof.
  induction 1 as [|line lines Hline _ IH]; [done|].
  cbn [for_each]. by rewrite parse_line_skipped.
Qed.

(** [clear_grid] returns, with every cell dead. *)
Lemma clear_grid_spec ctx :
  ctx_wf ctx ->
  exists ctx1, clear_grid ctx = Some ctx1 /\ ctx_wf ctx1 /\ same_frame ctx ctx1 /\
    forall r c, in_bounds ctx r c -> get_cell ctx1 r c = Some CELL_DEAD.
Proof.
  intros Hwf. unfold clear_grid.
  rewrite (nested_loops (fun ctx i j => set_cell ctx i j CELL_DEAD) cols
             (same_frame ctx) (cols ctx)).
  - destruct (pass_spec ctx (fun _ _ => CELL_DEAD)
                (fun ctx i j => set_cell ctx i j CELL_DEAD))
      with (order := row_major (rows ctx) (cols ctx)) (ctx := ctx)
      as (ctx1 & E & (Hwf1 & Hf1 & _) & Hdone).
    + intros cur r c (Hwfc & Hf & _) Hb. apply set_cell_spec; [done|].
      by eapply in_bounds_frame.
    + apply row_major_in_bounds.
    + by apply between_start.
    + exists ctx1. split; [done|]. split; [done|]. split; [done|].
      intros r c Hb. apply Hdone. right. by apply elem_of_row_major.
  - intros s i j s' Hs E. eapply same_frame_trans; [done|].
    by eapply set_cell_frame.
  - by intros s (_ & -> & _).
  - apply same_frame_refl.
Qed.

(* ===================================================================== *)
(** ** Reading the file: lines and buffers *)
(* ===================================================================== *)




Lemma complete_lines_app a b :
  complete_lines a = true -> complete_lines b = true ->
  complete_lines (a ++ b) = true.
Proof.
  unfold complete_lines. rewrite last_app. by destruct (last b).
Qed.










(* ===================================================================== *)
(** ** Manual initialization: any file *)
(* ===================================================================== *)


(** In the grid section a buffer that is neither a marker nor a pattern
    row is passed over. *)
Lemma parse_line_not_row st buffer :
  is_grid_marker buffer = false -> is_pattern_row buffer = false ->
  parse_line st buffer = Some st.
Proof.
  unfold is_grid_marker, is_pattern_row, parse_line. cbv zeta.
  destruct (Ascii.eqb (first_char (c_string buffer)) newline); [done|].
  destruct (Ascii.eqb (first_char (c_string buffer)) "#"); [done|].
  cbn [negb andb orb]. intros -> Hat. apply negb_false_iff in Hat.
  rewrite Hat. by destruct (in_grid_section st).
Qed.

Lemma section_rows_pattern section :
  Forall (fun line => is_pattern_row line = true) (section_rows section).
Proof.
  apply Forall_forall. intros line Hin.
  by apply list_elem_of_In, filter_In in Hin as [_ H].
Qed.

(** Only the pattern rows of a section count. *)
Lemma parse_section_rows section : forall st,
  Forall (fun b => is_grid_marker b = false) section ->
  for_each parse_line st section = for_each parse_line st (section_rows section).
Proof.
  induction section as [|b section IH]; intros st Hsec; [done|].
  apply Forall_cons in Hsec as [Hb Hsec].
  unfold section_rows. cbn [List.filter for_each].
  destruct (is_pattern_row b) eqn:Erow.
  - cbn [for_each]. destruct (parse_line st b) as [st1|];
      cbn [mbind option_bind]; [|done]. by apply IH.
  - rewrite parse_line_not_row by done. cbn [mbind option_bind]. by apply IH.
Qed.

Lemma rows_written_section section r c :
  0 <= r -> rows_written 0 (section_rows section) r c = section_cell section r c.
Proof.
  intros Hr. unfold rows_written, section_cell.
  rewrite decide_True by done. by rewrite Z.sub_0_r.
Qed.

(** One section from its first row on. *)
Lemma parse_section section st :
  in_grid_section st = true -> ctx_wf (parse_ctx st) -> current_row st = 0 ->
  Forall (fun b => is_grid_marker b = false) section ->
  exists st', for_each parse_line st section = Some st' /\
    in_grid_section st' = true /\ ctx_wf (parse_ctx st') /\
    same_frame (parse_ctx st) (parse_ctx st') /\
    current_row st' =
      Z.min (rows (parse_ctx st)) (Z.of_nat (length (section_rows section))) /\
    forall r c, in_bounds (parse_ctx st) r c ->
      get_cell (parse_ctx st') r c =
        match section_cell section r c with
        | Some v => Some v
        | None => get_cell (parse_ctx st) r c
        end.
Proof.
  intros Hin Hwf Hrow Hsec. rewrite parse_section_rows by done.
  pose proof Hwf as (Hrows & _).
  destruct (parse_pattern_rows (section_rows section) st)
    as (st' & E & Hin' & Hwf' & Hf' & Hrow' & Hcells);
    [done|done|lia|apply section_rows_pattern|].
  exists st'. split; [done|]. split; [done|]. split; [done|]. split; [done|].
  split; [by rewrite Hrow', Hrow|].
  intros r c Hb. rewrite (Hcells r c Hb), Hrow.
  rewrite rows_written_section by apply Hb. done.
Qed.

Lemma last_section_cons section (p : list ascii * list (list ascii)) parts :
  default section (last ((p :: parts).*2)) = default p.2 (last (parts.*2)).
Proof.
  destruct parts as [|p' parts]; [done|].
  change ((p :: p' :: parts).*2) with (p.2 :: p'.2 :: parts.*2).
  change ((p' :: parts).*2) with (p'.2 :: parts.*2).
  rewrite last_cons_cons.
  destruct (last (p'.2 :: parts.*2)) eqn:E; [done|]. by apply last_None in E.
Qed.

(** A section and the parts that follow it, each part a marker with its
    section. *)
Lemma parse_parts parts : forall section st,
  in_grid_section st = true -> ctx_wf (parse_ctx st) -> current_row st = 0 ->
  Forall (fun b => is_grid_marker b = false) section ->
  Forall (fun p : list ascii * list (list ascii) =>
            is_grid_marker p.1 = true /\
            Forall (fun b => is_grid_marker b = false) p.2) parts ->
  exists st',
    for_each parse_line st
      (section ++ concat (map (fun p => p.1 :: p.2) parts)) = Some st' /\
    in_grid_section st' = true /\ ctx_wf (parse_ctx st') /\
    same_frame (parse_ctx st) (parse_ctx st') /\
    current_row st' =
      Z.min (rows (parse_ctx st))
        (Z.of_nat (length (section_rows (default section (last (parts.*2)))))) /\
    forall r c, in_bounds (parse_ctx st) r c ->
      get_cell (parse_ctx st') r c =
        match pattern_overlay (section :: parts.*2) r c with
        | Some v => Some v
        | None => get_cell (parse_ctx st) r c
        end.
Proof.
  induction parts as [|p parts IH]; intros section st Hin Hwf Hrow Hsec Hparts.
  - cbn [map concat]. rewrite app_nil_r.
    destruct (parse_section section st Hin Hwf Hrow Hsec)
      as (st' & E & Hin' & Hwf' & Hf' & Hrow' & Hcells).
    exists st'. split; [done|]. split; [done|]. split; [done|]. split; [done|].
    split; [done|]. intros r c Hb. rewrite (Hcells r c Hb). done.
  - apply Forall_cons in Hparts as [[Hmark Hsec'] Hparts].
    cbn [map concat]. rewrite for_each_app.
    destruct (parse_section section st Hin Hwf Hrow Hsec)
      as (st1 & -> & Hin1 & Hwf1 & Hf1 & Hrow1 & Hcells1).
    cbn [mbind option_bind app for_each]. rewrite parse_line_marker by done.
    cbn [mbind option_bind].
    destruct (IH p.2 (mk_parse_state true 0 (parse_ctx st1)))
      as (st' & E & Hin' & Hwf' & Hf' & Hrow' & Hcells'); try done.
    exists st'. split; [done|]. split; [done|]. split; [done|].
    cbn [parse_ctx] in *.
    split; [by eapply same_frame_trans|]. split.
    + rewrite Hrow', last_section_cons. by destruct Hf1 as (-> & _).
    + intros r c Hb.
      rewrite Hcells' by by eapply in_bounds_frame.
      change ((p :: parts).*2) with (p.2 :: parts.*2).
      cbn [pattern_overlay].
      destruct (pattern_overlay (parts.*2) r c); [done|].
      destruct (section_cell p.2 r c); [done|].
      by apply Hcells1.
Qed.

(** The buffers of a file are the buffers before the first marker, then
    each marker with its section. *)
Lemma split_at_markers_spec buffers :
  buffers = (split_at_markers buffers).1 ++
            concat (map (fun p => p.1 :: p.2) (split_at_markers buffers).2) /\
  Forall (fun b => is_grid_marker b = false) (split_at_markers buffers).1 /\
  Forall (fun p : list ascii * list (list ascii) =>
            is_grid_marker p.1 = true /\
            Forall (fun b => is_grid_marker b = false) p.2)
    (split_at_markers buffers).2.
Proof.
  induction buffers as [|b buffers (IH1 & IH2 & IH3)]; [by repeat constructor|].
  cbn [split_at_markers].
  destruct (split_at_markers buffers) as [first parts]. cbn [fst snd] in *.
  destruct (is_grid_marker b) eqn:E; cbn [fst snd map concat app].
  - split; [by rewrite IH1 at 1|]. split; [constructor|]. by constructor.
  - split; [by rewrite IH1 at 1|]. split; [by constructor|done].
Qed.

(** [initialize_grid_manual] on any file that could be opened: the
    cells, and the lines written to the error stream. *)
Lemma initialize_grid_manual_file ctx content :
  ctx_wf ctx ->
  exists ctx',
    initialize_grid_manual ctx (Some content) =
      Some (ctx', file_messages ctx (file_buffers content)) /\
    ctx_wf ctx' /\ same_frame ctx ctx' /\
    forall r c, in_bounds ctx r c ->
      get_cell ctx' r c = Some (file_cell (file_buffers content) r c).
Proof.
  intros Hwf. unfold initialize_grid_manual.
  destruct (clear_grid_spec ctx Hwf) as (ctx1 & -> & Hwf1 & Hf1 & Hdead).
  cbn [mbind option_bind]. unfold parse_manual_config, parse_buffers.
  unfold file_messages, file_cell, grid_sections.
  destruct (split_at_markers_spec (file_buffers content)) as (Hsplit & Hfirst & Hparts).
  destruct (split_at_markers (file_buffers content)) as [first parts].
  cbn [fst snd] in *. rewrite Hsplit. clear Hsplit.
  rewrite for_each_app, parse_header_lines by done. cbn [mbind option_bind].
  destruct parts as [|p parts].
  - cbn. exists ctx1. split; [done|]. split; [done|]. split; [done|].
    intros r c Hb. by apply Hdead.
  - apply Forall_cons in Hparts as [[Hmark Hsec] Hparts].
    cbn [map concat app for_each]. rewrite parse_line_marker by done.
    cbn [mbind option_bind parse_ctx].
    destruct (parse_parts parts p.2 (mk_parse_state true 0 ctx1))
      as (st' & -> & Hin' & Hwf' & Hf' & Hrow' & Hcells); try done.
    cbn [mbind option_bind fst snd parse_ctx current_row] in *.
    exists (parse_ctx st'). split.
    { do 2 f_equal. rewrite Hin', Hrow'. cbn [andb].
      change (last ((p :: parts).*2)) with (last (p.2 :: parts.*2)).
      assert (Hlast : last (p.2 :: parts.*2) =
                Some (default p.2 (last (parts.*2)))).
      { destruct (parts.*2) as [|s l] eqn:El; [done|].
        rewrite last_cons_cons. by destruct (last (s :: l)) eqn:E;
          [|apply last_None in E]. }
      rewrite Hlast. unfold missing_rows_message.
      destruct Hf' as (-> & _), Hf1 as (-> & _).
      set (k := Z.of_nat (length (section_rows (default p.2 (last (parts.*2)))))).
      destruct (k <? rows ctx) eqn:E.
      - replace (Z.min (rows ctx) k) with k by lia. by rewrite E.
      - replace (Z.min (rows ctx) k) with (rows ctx) by lia.
        by rewrite Z.ltb_irrefl. }
    split; [done|]. split; [by eapply same_frame_trans|].
    intros r c Hb. rewrite Hcells by by eapply in_bounds_frame.
    change ((p :: parts).*2) with (p.2 :: parts.*2).
    destruct (pattern_overlay (p.2 :: parts.*2) r c); [done|].
    by apply Hdead.
Qed.

(* ===================================================================== *)
(** ** Manual initialization: the properties *)
(* ===================================================================== *)






Lemma pattern_overlay_short sections r c :
  Forall (fun s => Z.of_nat (length (section_rows s)) <= r) sections ->
  pattern_overlay sections r c = None.
Proof.
  induction 1 as [|s sections Hs _ IH]; [done|].
  cbn [pattern_overlay]. rewrite IH. unfold section_cell.
  by rewrite lookup_ge_None_2 by lia.
Qed.

(** When the pattern rows after the last marker are fewer than [rows],
    the initialization still returns a board and writes one warning,
    with the number of those pattern rows and the number of rows; a row
    that the pattern rows of no section reach is dead. *)
Theorem initialize_grid_manual_missing_rows ctx content section :
  ctx_wf ctx ->
  last (grid_sections (file_buffers content)) = Some section ->
  Z.of_nat (length (section_rows section)) < rows ctx ->
  exists ctx',
    initialize_grid_manual ctx (Some content) =
      Some (ctx', [msg_rows_missing (Z.of_nat (length (section_rows section)))
                     (rows ctx)]) /\
    forall r c, in_bounds ctx r c ->
      Forall (fun s => Z.of_nat (length (section_rows s)) <= r)
        (grid_sections (file_buffers content)) ->
      get_cell ctx' r c = Some CELL_DEAD.
Proof.
  intros Hwf Hlast Hfew.
  destruct (initialize_grid_manual_file ctx content Hwf)
    as (ctx' & E & _ & _ & Hcells).
  exists ctx'. split.
  - rewrite E. unfold file_messages, missing_rows_message. rewrite Hlast.
    by replace (Z.of_nat (length (section_rows section)) <? rows ctx)
      with true by lia.
  - intros r c Hb Hshort. rewrite (Hcells r c Hb). unfold file_cell.
    by rewrite pattern_overlay_short.
Qed.

Lemma initialize_grid_manual_missing_rows_witness :
  exists ctx',
    initialize_grid_manual full_ctx
      (Some (concat (usage_header ++ usage_marker :: take 2 usage_pattern)))
    = Some (ctx', [msg_rows_missing 2 5]) /\
    get_cell ctx' 4 4 = Some CELL_DEAD.
Proof.
  assert (Hwf : ctx_wf full_ctx) by (apply ctx_wfb_spec; reflexivity).
  assert (Hlast :
    last (grid_sections
            (file_buffers
               (concat (usage_header ++ usage_marker :: take 2 usage_pattern))))
    = Some (take 2 usage_pattern)) by reflexivity.
  assert (Hfew : Z.of_nat (length (section_rows (take 2 usage_pattern)))
                 < rows full_ctx) by (simpl; lia).
  destruct (initialize_grid_manual_missing_rows full_ctx _ _ Hwf Hlast Hfew)
    as (ctx' & E & Hdead).
  exists ctx'. split; [exact E|]. apply Hdead.
  - unfold in_bounds. simpl. lia.
  - repeat constructor. simpl. lia.
Defined.





(* ===================================================================== *)
(** ** Simulation loop: the properties *)
(* ===================================================================== *)

(** A click needs no assumption on the pixel: whatever [size_t] values
    the conversion gives, the cell is written only inside the grid. *)
Lemma handle_mouse_click_wf ctx x y :
  ctx_wf ctx ->
  exists ctx', handle_mouse_click ctx x y = Some ctx' /\ ctx_wf ctx' /\
    same_frame ctx ctx'.
Proof.
  intros Hwf. unfold handle_mouse_click. cbv zeta.
  destruct ((to_size_t (y ÷ CELL_SIZE) <? rows ctx) &&
            (to_size_t (x ÷ CELL_SIZE) <? cols ctx)) eqn:E.
  - apply andb_true_iff in E as [Er Ec].
    assert (Hb : in_bounds ctx (to_size_t (y ÷ CELL_SIZE)) (to_size_t (x ÷ CELL_SIZE))).
    { unfold in_bounds, to_size_t, SIZE_MODULUS.
      pose proof (Z.mod_pos_bound (y ÷ CELL_SIZE) 18446744073709551616).
      pose proof (Z.mod_pos_bound (x ÷ CELL_SIZE) 18446744073709551616).
      unfold to_size_t, SIZE_MODULUS in Er, Ec. lia. }
    destruct (get_cell_is_Some _ _ _ Hwf Hb) as [s ->]. cbn [mbind option_bind].
    destruct (set_cell_spec ctx _ _
                (if cell_eqb s CELL_ALIVE then CELL_DEAD else CELL_ALIVE) Hwf Hb)
      as (ctx' & -> & Hwf' & Hf & _).
    by exists ctx'.
  - exists ctx. split; [done|]. split; [done|apply same_frame_refl].
Qed.

Section LoopFacts.
Context {rng_state : Type}.
Variable srand : Z -> rng_state.
Variable rand : rng_state -> Z * rng_state.

(** Draining the events always succeeds on an allocated grid, keeps the
    grid allocated, and never sets [running] again. *)
Lemma process_event_spec now (st : sim_state rng_state) e :
  ctx_wf (sim_ctx st) ->
  exists st1, process_event srand rand now st e = Some st1 /\
    ctx_wf (sim_ctx st1) /\
    running st1 = (if e is SDL_QUIT then false else running st).
Proof.
  intros Hwf. destruct e as [|button x y|[| |]|]; cbn [process_event].
  - by eexists.
  - destruct (button =? SDL_BUTTON_LEFT); [|by exists st].
    destruct (handle_mouse_click_wf (sim_ctx st) x y Hwf) as (ctx' & -> & Hwf' & _).
    by eexists.
  - by eexists.
  - destruct (String.eqb _ _); [|by eexists].
    unfold initialize_grid_random. cbv zeta.
    destruct (fill_random_spec rand (sim_ctx st)
                (srand (if seed (config (sim_ctx st)) =? 0
                        then to_uint now else seed (config (sim_ctx st)))) Hwf)
      as (ctx' & -> & Hwf' & _).
    by eexists.
  - by exists st.
  - by exists st.
Qed.

Lemma process_events_spec now events : forall st : sim_state rng_state,
  ctx_wf (sim_ctx st) ->
  exists st1, for_each (process_event srand rand now) st events = Some st1 /\
    ctx_wf (sim_ctx st1) /\
    (running st = false \/ SDL_QUIT ∈ events -> running st1 = false).
Proof.
  induction events as [|e events IH]; intros st Hwf.
  - exists st. split; [done|]. split; [done|].
    intros [H|H]; [done|by apply elem_of_nil in H].
  - destruct (process_event_spec now st e Hwf) as (st0 & E0 & Hwf0 & Hrun0).
    destruct (IH st0 Hwf0) as (st1 & E1 & Hwf1 & Hrun1).
    exists st1. cbn [for_each]. rewrite E0. split; [exact E1|]. split; [done|].
    intros H. apply Hrun1. rewrite Hrun0.
    destruct H as [H|H].
    + left. rewrite H. by destruct e.
    + apply elem_of_cons in H as [<-|H]; [by left|by right].
Qed.

(** C7, amended: a quit signal among the events drained at the top of a
    tick clears [running], and the tick then goes on as any other: the
    remaining events are handled, the grid is drawn, one generation is
    computed and the generation counter is incremented (modulo 2^32),
    and the frame delay is slept.  The loop ends after that tick: no
    further tick is run. *)
Theorem tick_with_quit (st : sim_state rng_state) now events :
  ctx_wf (sim_ctx st) -> SDL_QUIT ∈ events ->
  exists st1 st',
    for_each (process_event srand rand now) st events = Some st1 /\
    tick srand rand st now events = Some st' /\
    running st' = false /\
    effects st' =
      effects st1 ++
      [Rendered (grid (sim_ctx st1)); Stepped; Delayed FRAME_DELAY_MS] /\
    simulate_step (sim_ctx st1) = Some (sim_ctx st') /\
    generation st' = to_uint (generation st1 + 1) /\
    forall inputs, run_ticks srand rand st' inputs = Some st'.
Proof.
  intros Hwf Hquit.
  destruct (process_events_spec now events st Hwf) as (st1 & E1 & Hwf1 & Hrun1).
  specialize (Hrun1 (or_intror Hquit)).
  exists st1. unfold tick. rewrite E1. cbn [mbind option_bind].
  rewrite (simulate_step_reference _ Hwf1). cbn [mbind option_bind]. cbv zeta.
  eexists. split; [done|]. split; [reflexivity|]. cbn.
  assert (Hstop : (if (0 <? steps (config (sim_ctx st1))) &&
                      (to_uint (generation st1 + 1) >=? steps (config (sim_ctx st1)))
                   then false else running st1) = false).
  { rewrite Hrun1. by destruct (_ && _). }
  split; [exact Hstop|]. split; [by rewrite <- app_assoc|].
  split; [done|]. split; [done|].
  intros [|[now' events'] inputs]; [done|]. cbn. by rewrite Hstop.
Qed.
End LoopFacts.

Lemma tick_with_quit_witness :
  ctx_wf blinker_ctx /\ SDL_QUIT ∈ [SDL_KEYDOWN SDLK_SPACE; SDL_QUIT] /\
  exists st',
    tick iso_srand iso_rand (mk_sim_state true 7 blinker_ctx 0 []) 0
      [SDL_KEYDOWN SDLK_SPACE; SDL_QUIT] = Some st' /\
    running st' = false /\ generation st' = 8.
Proof.
  assert (Hq : SDL_QUIT ∈ [SDL_KEYDOWN SDLK_SPACE; SDL_QUIT])
    by (right; left).
  destruct (tick_with_quit iso_srand iso_rand
              (mk_sim_state true 7 blinker_ctx 0 []) 0
              [SDL_KEYDOWN SDLK_SPACE; SDL_QUIT] blinker_ctx_wf Hq)
    as (st1 & st' & E1 & E & Hrun & _ & _ & Hgen & _).
  split; [apply blinker_ctx_wf|]. split; [exact Hq|].
  exists st'. split; [exact E|]. split; [exact Hrun|].
  rewrite Hgen. cbn in E1. injection E1 as <-. reflexivity.
Defined.

(** A tick whose only event is the quit signal, on the blinker board at
    generation 0: the frame is drawn, the step is computed (the blinker
    turns), and the counter reads 1. *)
Lemma tick_with_quit_counterexample :
  exists st',
    tick iso_srand iso_rand (mk_sim_state true 0 blinker_ctx 0 []) 0 [SDL_QUIT]
      = Some st' /\
    running st' = false /\
    effects st' = [Rendered (grid blinker_ctx); Stepped; Delayed FRAME_DELAY_MS] /\
    generation st' = 1 /\
    get_cell (sim_ctx st') 1 1 = Some CELL_ALIVE /\
    get_cell blinker_ctx 1 1 = Some CELL_DEAD.
Proof. eexists. split; [vm_compute; reflexivity|]. by repeat split. Qed.

(* ===================================================================== *)
(** ** Grid allocation: the properties *)
(* ===================================================================== *)

Module AllocFacts.
Import Alloc.

(** The zero bytes of [calloc] read as a dead cell. *)
Lemma zero_cell_value : cell_value zero_cell = 0.
Proof. reflexivity. Qed.

Lemma pointer_array_length n ps :
  (length ps <= n)%nat -> length (pointer_array n ps) = n.
Proof.
  intros H. unfold pointer_array.
  rewrite length_app, length_fmap, length_replicate. lia.
Qed.

Lemma pointer_array_lookup n ps_done p ps_todo :
  pointer_array n (ps_done ++ p :: ps_todo) !! length ps_done = Some (Some p).
Proof.
  unfold pointer_array. rewrite lookup_app_l.
  - rewrite list_lookup_fmap, lookup_app_r by done.
    by rewrite Nat.sub_diag.
  - rewrite length_fmap, length_app. simpl. lia.
Qed.

Lemma pointer_array_snoc n ps l :
  (length ps < n)%nat ->
  <[length ps := Some l]> (pointer_array n ps) = pointer_array n (ps ++ [l]).
Proof.
  intros H. unfold pointer_array.
  rewrite insert_app_r_alt by (by rewrite length_fmap).
  rewrite length_fmap, Nat.sub_diag, fmap_app, length_app. simpl.
  replace (n - length ps)%nat with (S (n - (length ps + 1))) by lia.
  simpl. by rewrite <- app_assoc.
Qed.

Lemma pointer_array_null n ps :
  (length ps < n)%nat ->
  <[length ps := zero_ptr]> (pointer_array n ps) = pointer_array n ps.
Proof.
  intros H. apply list_insert_id. unfold pointer_array.
  rewrite lookup_app_r by (by rewrite length_fmap).
  rewrite length_fmap, Nat.sub_diag.
  apply lookup_replicate_2. lia.
Qed.

Lemma load_row_array garr i m ps :
  blocks m !! garr = Some (row_pointers ps) -> 0 <= i ->
  load_row garr i m = ps !! Z.to_nat i.
Proof. intros H Hi. unfold load_row. rewrite H. by replace (0 <=? i) with true by lia. Qed.

Lemma free_live l m b :
  blocks m !! l = Some b ->
  free (Some l) m = Some (mk_memory (delete l (blocks m)) (calls m)).
Proof. intros H. unfold free. by rewrite H. Qed.

Section AllocatorFacts.
Variable available : nat -> bool.
Variable h0 : gmap loc block.
Variable garr : loc.
Variable ctx : gol_context_t.

Let n : nat := Z.to_nat (rows ctx).

(** A successful row request extends the invariant by the new row. *)
Lemma allocate_row_ok ps m :
  rows_allocated h0 garr n (cols ctx) ps (blocks m) ->
  (length ps < n)%nat ->
  row_request_ok available ctx (calls m) = true ->
  exists l m2,
    calloc available (zero_row (cols ctx)) (cols ctx) SIZEOF_CELL m =
      (Some l, mk_memory (<[l := zero_row (cols ctx)]> (blocks m)) (S (calls m))) /\
    store_row garr (Z.of_nat (length ps)) (Some l)
      (mk_memory (<[l := zero_row (cols ctx)]> (blocks m)) (S (calls m))) = Some m2 /\
    calls m2 = S (calls m) /\
    rows_allocated h0 garr n (cols ctx) (ps ++ [l]) (blocks m2).
Proof.
  intros [Hfresh Hnd Hnew Harr Hrows Hrest Hlen] Hlt Hok.
  set (l := fresh (dom (blocks m))).
  assert (Hl : blocks m !! l = None) by apply not_elem_of_dom, is_fresh.
  assert (Hlg : l <> garr) by (intros ->; by rewrite Harr in Hl).
  assert (Hlps : l ∉ ps) by (intros Hin; by rewrite (Hrows _ Hin) in Hl).
  exists l. eexists. split.
  { unfold calloc, calloc_succeeds. unfold row_request_ok in Hok.
    by rewrite Hok. }
  unfold store_row. cbn [blocks calls].
  rewrite lookup_insert_ne, Harr by done.
  rewrite pointer_array_length by done.
  replace ((0 <=? Z.of_nat (length ps)) && (Z.of_nat (length ps) <? Z.of_nat n))
    with true by lia.
  rewrite Nat2Z.id, pointer_array_snoc by done.
  split; [reflexivity|]. split; [done|]. cbn [blocks].
  constructor; try done.
  - apply NoDup_app. split; [done|]. split; [|apply NoDup_singleton].
    intros p Hp Hp'%list_elem_of_singleton. by subst.
  - intros p [Hp|Hp%list_elem_of_singleton]%elem_of_app; [by apply Hnew|].
    subst p. split; [|done]. by rewrite <- Hrest.
  - by rewrite lookup_insert_eq.
  - intros p [Hp|Hp%list_elem_of_singleton]%elem_of_app.
    + destruct (Hnew _ Hp) as [_ Hpg].
      rewrite lookup_insert_ne by done. rewrite lookup_insert_ne; [by apply Hrows|].
      intros ->. done.
    + subst p. rewrite lookup_insert_ne by done. by rewrite lookup_insert_eq.
  - intros p Hp Hpg. apply not_elem_of_app in Hp as [Hp Hp'].
    assert (l <> p) by (intros ->; apply Hp'; by left).
    rewrite lookup_insert_ne by done. rewrite lookup_insert_ne by done.
    by apply Hrest.
  - rewrite length_app. simpl. lia.
Qed.

(** The clean-up loop frees the rows stored so far, one by one. *)
Lemma free_rows_todo ps_todo : forall ps_done m,
  blocks m !! garr = Some (row_pointers (pointer_array n (ps_done ++ ps_todo))) ->
  NoDup ps_todo -> garr ∉ ps_todo ->
  (forall p, p ∈ ps_todo -> is_Some (blocks m !! p)) ->
  for_each (fun m j => p ← load_row garr j m; free p m) m
    (seqZ (Z.of_nat (length ps_done)) (Z.of_nat (length ps_todo))) =
  Some (mk_memory (foldr delete (blocks m) ps_todo) (calls m)).
Proof.
  induction ps_todo as [|p ps_todo IH]; intros ps_done m Harr Hnd Hg Hlive.
  - by destruct m.
  - apply NoDup_cons in Hnd as [Hp Hnd].
    apply not_elem_of_cons in Hg as [Hgp Hg].
    rewrite seqZ_cons by (simpl; lia). cbn [for_each].
    rewrite (load_row_array _ _ _ _ Harr) by lia.
    rewrite Nat2Z.id, pointer_array_lookup. cbn [mbind option_bind].
    destruct (Hlive p) as [b Hb]; [by left|].
    rewrite (free_live _ _ _ Hb). cbn [mbind option_bind].
    replace (Z.succ (Z.of_nat (length ps_done)))
      with (Z.of_nat (length (ps_done ++ [p])))
      by (rewrite length_app; simpl; lia).
    replace (Z.pred (Z.of_nat (length (p :: ps_todo))))
      with (Z.of_nat (length ps_todo)) by (simpl; lia).
    rewrite IH; cbn [blocks calls]; try done.
    + by rewrite <- delete_foldr_delete.
    + rewrite lookup_delete_ne by done. by rewrite <- app_assoc.
    + intros p' Hp'. rewrite lookup_delete_ne; [apply Hlive; by right|].
      intros ->. done.
Qed.

Lemma free_rows_all ps m :
  rows_allocated h0 garr n (cols ctx) ps (blocks m) ->
  free_rows garr (Z.of_nat (length ps)) m =
    Some (mk_memory (foldr delete (blocks m) ps) (calls m)).
Proof.
  intros [Hfresh Hnd Hnew Harr Hrows Hrest Hlen]. unfold free_rows, for_range.
  apply (free_rows_todo ps [] m); try done.
  - intros Hin. by destruct (Hnew _ Hin).
  - intros p Hp. rewrite (Hrows _ Hp). by eexists.
Qed.

(** Freeing the rows and then the array gives back the heap of the
    call. *)
Lemma release_all ps h :
  rows_allocated h0 garr n (cols ctx) ps h ->
  delete garr (foldr delete h ps) = h0.
Proof.
  intros [Hfresh Hnd Hnew Harr Hrows Hrest Hlen]. apply map_eq. intros l.
  destruct (decide (l = garr)) as [->|Hlg].
  { by rewrite lookup_delete_eq. }
  rewrite lookup_delete_ne by done.
  destruct (decide (l ∈ ps)) as [Hin|Hnot].
  - rewrite lookup_foldr_delete by done. by destruct (Hnew _ Hin) as [-> _].
  - rewrite lookup_foldr_delete_not_elem_of by done. by apply Hrest.
Qed.

(** The allocation loop when the request for row [length ps + d] is the
    first to fail: it returns early with the memory error, a null grid
    pointer, and the heap of the call. *)
Lemma allocate_rows_failure d : forall ps m,
  rows_allocated h0 garr n (cols ctx) ps (blocks m) ->
  (length ps + d < n)%nat ->
  (forall j, (j < d)%nat -> row_request_ok available ctx (calls m + j) = true) ->
  row_request_ok available ctx (calls m + d) = false ->
  exists m',
    allocate_rows available ctx garr
      (seqZ (Z.of_nat (length ps)) (Z.of_nat (n - length ps))) m =
      Some (inl (GOL_ERROR_MEMORY, mk_context (rows ctx) (cols ctx) None), m') /\
    blocks m' = h0.
Proof.
  induction d as [|d IH]; intros ps m Hinv Hlt Hok Hfail.
  - rewrite seqZ_cons by lia. cbn [allocate_rows].
    unfold calloc, calloc_succeeds. unfold row_request_ok in Hfail.
    rewrite Nat.add_0_r in Hfail. rewrite Hfail.
    unfold store_row. cbn [blocks calls].
    rewrite (ra_array _ _ _ _ _ _ Hinv).
    rewrite pointer_array_length by (pose proof (ra_length _ _ _ _ _ _ Hinv); lia).
    replace ((0 <=? Z.of_nat (length ps)) && (Z.of_nat (length ps) <? Z.of_nat n))
      with true by lia.
    rewrite Nat2Z.id. change None with zero_ptr at 1.
    rewrite pointer_array_null by lia.
    rewrite insert_id by apply (ra_array _ _ _ _ _ _ Hinv).
    cbn [mbind option_bind].
    rewrite (free_rows_all ps (mk_memory (blocks m) (S (calls m)))) by done.
    cbn [mbind option_bind]. unfold free. cbn [blocks calls].
    rewrite lookup_foldr_delete_not_elem_of, (ra_array _ _ _ _ _ _ Hinv).
    2:{ intros Hin. by destruct (ra_new _ _ _ _ _ _ Hinv _ Hin). }
    eexists. split; [reflexivity|]. cbn [blocks]. by eapply release_all.
  - rewrite seqZ_cons by lia. cbn [allocate_rows].
    destruct (allocate_row_ok ps m Hinv) as (l & m2 & -> & -> & Hcalls & Hinv2);
      [lia|by rewrite <- (Hok 0%nat), Nat.add_0_r by lia|].
    cbn [mbind option_bind].
    destruct (IH (ps ++ [l]) m2 Hinv2) as (m' & E & Hm').
    + rewrite length_app. simpl. lia.
    + intros j Hj. rewrite Hcalls.
      replace (S (calls m) + j)%nat with (calls m + S j)%nat by lia.
      apply Hok. lia.
    + rewrite Hcalls.
      by replace (S (calls m) + d)%nat with (calls m + S d)%nat by lia.
    + exists m'. split; [|done]. rewrite <- E. f_equal.
      rewrite length_app. simpl. f_equal; lia.
Qed.

(** The allocation loop when every remaining request succeeds. *)
Lemma allocate_rows_success d : forall ps m,
  rows_allocated h0 garr n (cols ctx) ps (blocks m) ->
  (length ps + d = n)%nat ->
  (forall j, (j < d)%nat -> row_request_ok available ctx (calls m + j) = true) ->
  exists ps' m',
    allocate_rows available ctx garr
      (seqZ (Z.of_nat (length ps)) (Z.of_nat (n - length ps))) m =
      Some (inr tt, m') /\
    rows_allocated h0 garr n (cols ctx) ps' (blocks m') /\ length ps' = n.
Proof.
  induction d as [|d IH]; intros ps m Hinv Hlen Hok.
  - exists ps, m. rewrite seqZ_nil by lia. split; [done|]. split; [done|lia].
  - rewrite seqZ_cons by lia. cbn [allocate_rows].
    destruct (allocate_row_ok ps m Hinv) as (l & m2 & -> & -> & Hcalls & Hinv2);
      [lia|by rewrite <- (Hok 0%nat), Nat.add_0_r by lia|].
    cbn [mbind option_bind].
    destruct (IH (ps ++ [l]) m2 Hinv2) as (ps' & m' & E & Hinv' & Hlen').
    + rewrite length_app. simpl. lia.
    + intros j Hj. rewrite Hcalls.
      replace (S (calls m) + j)%nat with (calls m + S j)%nat by lia.
      apply Hok. lia.
    + exists ps', m'. split; [|done]. rewrite <- E. f_equal.
      rewrite length_app. simpl. f_equal; lia.
Qed.

(** The board read through the pointers when all rows are allocated. *)
Lemma read_grid_allocated ps m :
  rows_allocated h0 garr n (cols ctx) ps (blocks m) -> length ps = n ->
  read_grid m (mk_context (rows ctx) (cols ctx) (Some garr)) =
    Some (replicate n (replicate (Z.to_nat (cols ctx)) CELL_DEAD)).
Proof.
  intros [Hfresh Hnd Hnew Harr Hrows Hrest Hlen] Hn. unfold read_grid.
  cbn [grid mbind option_bind]. rewrite Harr. unfold pointer_array.
  rewrite Hn, Nat.sub_diag, app_nil_r. rewrite <- Hn. clear Hn Hlen Harr Hnd Hnew Hrest.
  induction ps as [|p ps IH]; [done|].
  rewrite fmap_cons. cbn [mapM].
  assert (Hp : read_row m (Some p) = Some (replicate (Z.to_nat (cols ctx)) CELL_DEAD)).
  { unfold read_row. cbn [mbind option_bind]. by rewrite (Hrows p) by by left. }
  rewrite Hp. cbn [mbind option_bind].
  rewrite IH by (intros; apply Hrows; by right). done.
Qed.
End AllocatorFacts.

Lemma rows_allocated_start (h0 : gmap loc block) ctx :
  let garr := fresh (dom h0) in
  rows_allocated h0 garr (Z.to_nat (rows ctx)) (cols ctx) []
    (<[garr := zero_pointers (rows ctx)]> h0).
Proof.
  intros garr.
  assert (Hg : h0 !! garr = None) by apply not_elem_of_dom, is_fresh.
  constructor; try done.
  - apply NoDup_nil_2.
  - intros p Hp. by apply elem_of_nil in Hp.
  - rewrite lookup_insert_eq. unfold zero_pointers, pointer_array.
    by rewrite Nat.sub_0_r.
  - intros p Hp. by apply elem_of_nil in Hp.
  - intros l _ Hl. by rewrite lookup_insert_ne.
  - simpl. lia.
Qed.

(** C8: when the request for row [i] is the first to fail,
    [allocate_grid] returns [GOL_ERROR_MEMORY] (exit code 5) with a null
    grid pointer, and the heap holds exactly the blocks it held before
    the call: rows 0 to [i - 1] and the array of row pointers were
    freed.  The same holds when the request for the array itself fails.
    When every request succeeds it returns [GOL_SUCCESS] and the board
    read through the pointers is [rows] rows of [cols] dead cells. *)
Theorem allocate_grid_releases_on_failure available ctx m :
  0 <= rows ctx ->
  (calloc_succeeds available m (rows ctx) SIZEOF_POINTER = false ->
   exists m',
     allocate_grid available ctx m =
       Some (GOL_ERROR_MEMORY, mk_context (rows ctx) (cols ctx) None, m') /\
     blocks m' = blocks m) /\
  (calloc_succeeds available m (rows ctx) SIZEOF_POINTER = true ->
   forall i : nat,
   (forall j, (j < i)%nat ->
      row_request_ok available ctx (S (calls m) + j) = true) ->
   ((i < Z.to_nat (rows ctx))%nat ->
    row_request_ok available ctx (S (calls m) + i) = false ->
    exists m',
      allocate_grid available ctx m =
        Some (GOL_ERROR_MEMORY, mk_context (rows ctx) (cols ctx) None, m') /\
      blocks m' = blocks m) /\
   (i = Z.to_nat (rows ctx) ->
    exists garr m',
      allocate_grid available ctx m =
        Some (GOL_SUCCESS, mk_context (rows ctx) (cols ctx) (Some garr), m') /\
      read_grid m' (mk_context (rows ctx) (cols ctx) (Some garr)) =
        Some (replicate (Z.to_nat (rows ctx))
                (replicate (Z.to_nat (cols ctx)) CELL_DEAD)))) /\
  result_code GOL_ERROR_MEMORY = 5.
Proof.
  intros Hrows. split; [|split; [|reflexivity]].
  - intros Hfail. unfold allocate_grid, calloc. rewrite Hfail.
    by eexists.
  - intros Hok i Hbefore.
    pose proof (rows_allocated_start (blocks m) ctx) as Hstart.
    cbv zeta in Hstart. set (garr := fresh (dom (blocks m))) in *.
    set (ctx1 := mk_context (rows ctx) (cols ctx) (Some garr)).
    set (m1 := mk_memory (<[garr := zero_pointers (rows ctx)]> (blocks m))
                 (S (calls m))).
    assert (Hloop : seqZ 0 (rows ctx1) =
              seqZ (Z.of_nat (length (@nil loc)))
                (Z.of_nat (Z.to_nat (rows ctx1) - length (@nil loc)))).
    { simpl. f_equal. lia. }
    split.
    + intros Hi Hfail.
      destruct (allocate_rows_failure available (blocks m) garr ctx1 i [] m1)
        as (m' & E & Hm'); try done.
      exists m'. split; [|done].
      unfold allocate_grid, calloc. rewrite Hok. fold garr. fold ctx1. fold m1.
      rewrite Hloop, E. done.
    + intros Hi.
      destruct (allocate_rows_success available (blocks m) garr ctx1 i [] m1)
        as (ps' & m' & E & Hinv & Hlen); try done.
      exists garr, m'. split.
      * unfold allocate_grid, calloc. rewrite Hok. fold garr. fold ctx1. fold m1.
        rewrite Hloop, E. done.
      * exact (read_grid_allocated (blocks m) garr ctx1 ps' m' Hinv Hlen).
Qed.

Lemma allocate_grid_releases_on_failure_witness :
  exists m',
    allocate_grid third_fails (mk_context 2 2 None) busy_memory =
      Some (GOL_ERROR_MEMORY, mk_context 2 2 None, m') /\
    blocks m' = blocks busy_memory.
Proof.
  assert (Hrows : 0 <= rows (mk_context 2 2 None)) by (simpl; lia).
  destruct (allocate_grid_releases_on_failure third_fails (mk_context 2 2 None)
              busy_memory Hrows) as (_ & Hrun & _).
  destruct (Hrun eq_refl 1%nat) as [Hfail _].
  - intros j Hj. assert (j = 0%nat) as -> by lia. reflexivity.
  - apply Hfail; [simpl; lia|reflexivity].
Defined.

End AllocFacts.

(* ===================================================================== *)
(** ** Step engine: locality and patterns *)
(* ===================================================================== *)

Lemma moore_count_agree f a b row col :
  rows a = rows b -> cols a = cols b ->
  (forall dr dc, -1 <= dr <= 1 -> -1 <= dc <= 1 ->
     get_cell a (row + dr) (col + dc) = get_cell b (row + dr) (col + dc)) ->
  moore_count f a row col = moore_count f b row col.
Proof.
  intros Hr Hc Hcells. unfold moore_count. do 2 f_equal.
  assert (Hin : forall d, d ∈ moore_offsets -> -1 <= d.1 <= 1 /\ -1 <= d.2 <= 1).
  { intros [dr dc] H. apply moore_offsets_spec in H. simpl. lia. }
  induction moore_offsets as [|d l IH]; [done|].
  cbn [List.filter]. rewrite IH by (intros; apply Hin; by right).
  destruct (Hin d) as [H1 H2]; [by left|].
  rewrite (Hcells d.1 d.2 H1 H2).
  replace (in_boundsb b (row + d.1) (col + d.2))
    with (in_boundsb a (row + d.1) (col + d.2))
    by (unfold in_boundsb; by rewrite Hr, Hc).
  done.
Qed.

(** The step is local: on two boards of the same dimensions that agree
    on a cell and its Moore neighbours, the cell has the same state after
    a step. *)
Theorem simulate_step_local a b r c :
  ctx_wf a -> ctx_wf b -> fits_int a ->
  rows a = rows b -> cols a = cols b -> in_bounds a r c ->
  (forall dr dc, -1 <= dr <= 1 -> -1 <= dc <= 1 ->
     get_cell a (r + dr) (c + dc) = get_cell b (r + dr) (c + dc)) ->
  exists a' b', simulate_step a = Some a' /\ simulate_step b = Some b' /\
    get_cell a' r c = get_cell b' r c.
Proof.
  intros Ha Hb Hfit Hr Hc Hin Hcells.
  exists (reference_step a), (reference_step b).
  split; [by apply simulate_step_reference|].
  split; [by apply simulate_step_reference|].
  rewrite !reference_step_get.
  assert (Hfitb : fits_int b) by (unfold fits_int; by rewrite <- Hr, <- Hc).
  assert (Hinb : in_bounds b r c) by (unfold in_bounds; by rewrite <- Hr, <- Hc).
  rewrite !count_neighbors_moore by done.
  rewrite (moore_count_agree _ a b r c Hr Hc Hcells).
  pose proof (Hcells 0 0 ltac:(lia) ltac:(lia)) as H0.
  rewrite !Z.add_0_r in H0. by rewrite H0.
Qed.

Lemma simulate_step_local_witness :
  exists a' b', simulate_step blinker_ctx = Some a' /\
    simulate_step blinker_spark_ctx = Some b' /\
    get_cell a' 1 1 = get_cell b' 1 1.
Proof.
  apply (simulate_step_local blinker_ctx blinker_spark_ctx 1 1).
  - apply blinker_ctx_wf.
  - apply ctx_wfb_spec. reflexivity.
  - apply blinker_ctx_fits.
  - reflexivity.
  - reflexivity.
  - unfold in_bounds. simpl. lia.
  - intros dr dc Hr Hc.
    assert (Er : dr = -1 \/ dr = 0 \/ dr = 1) by lia.
    assert (Ec : dc = -1 \/ dc = 0 \/ dc = 1) by lia.
    destruct Er as [->|[->| ->]]; destruct Ec as [->|[->| ->]]; reflexivity.
Defined.

Lemma pattern_count_moore ctx P r c :
  shows ctx P -> (forall x y, P x y = true -> in_bounds ctx x y) ->
  moore_count counts_as_alive ctx r c = pattern_count P r c.
Proof.
  intros Hshow Hin. unfold moore_count, pattern_count. do 2 f_equal.
  induction moore_offsets as [|d l IH]; [done|].
  cbn [List.filter]. rewrite IH.
  replace (in_boundsb ctx (r + d.1) (c + d.2) &&
           match get_cell ctx (r + d.1) (c + d.2) with
           | Some s => counts_as_alive s
           | None => false
           end) with (P (r + d.1) (c + d.2)); [done|].
  destruct (in_boundsb ctx (r + d.1) (c + d.2)) eqn:E.
  - apply in_boundsb_spec in E. rewrite (Hshow _ _ E).
    by destruct (P (r + d.1) (c + d.2)).
  - destruct (P (r + d.1) (c + d.2)) eqn:EP; [|done].
    apply Hin, in_boundsb_spec in EP. congruence.
Qed.

(** One step on a board that shows the pattern [P]: if the rule maps [P]
    to [Q] at every cell of the board, the board then shows [Q]. *)
Lemma pattern_step ctx (P Q : Z -> Z -> bool) :
  ctx_wf ctx -> fits_int ctx -> shows ctx P ->
  (forall x y, P x y = true -> in_bounds ctx x y) ->
  (forall r c, in_bounds ctx r c ->
     next_state (if P r c then CELL_ALIVE else CELL_DEAD) (pattern_count P r c) =
     if Q r c then CELL_ALIVE else CELL_DEAD) ->
  exists ctx', simulate_step ctx = Some ctx' /\ ctx_wf ctx' /\
    same_frame ctx ctx' /\ shows ctx' Q.
Proof.
  intros Hwf Hfit Hshow Hin Hrule. exists (reference_step ctx).
  split; [by apply simulate_step_reference|].
  split; [by apply reference_step_wf|]. split; [apply reference_step_frame|].
  intros r c Hrc.
  assert (Hrc' : in_bounds ctx r c).
  { destruct (reference_step_frame ctx) as (Hr & Hc & _).
    unfold in_bounds in *. by rewrite Hr, Hc in Hrc. }
  rewrite reference_step_get, (Hshow _ _ Hrc').
  rewrite count_neighbors_moore by done.
  rewrite (pattern_count_moore ctx P) by done. simpl.
  by rewrite Hrule.
Qed.

Lemma shows_unique a b P :
  ctx_wf a -> ctx_wf b -> same_frame a b -> shows a P -> shows b P -> a = b.
Proof.
  intros Ha Hb Hf Hpa Hpb. apply ctx_ext; [done..|].
  intros r c Hrc. rewrite (Hpa _ _ Hrc). symmetry. apply Hpb.
  eapply in_bounds_frame; done.
Qed.

(** Decides every comparison of the goal that linear arithmetic settles. *)
Ltac settle_comparisons :=
  repeat match goal with
  | |- context [?x <=? ?y] =>
      first [ rewrite (proj2 (Z.leb_le x y)) by lia
            | rewrite (proj2 (Z.leb_gt x y)) by lia ]
  | |- context [?x =? ?y] =>
      first [ rewrite (proj2 (Z.eqb_eq x y)) by lia
            | rewrite (proj2 (Z.eqb_neq x y)) by lia ]
  end.

(** Splits on where [r] lies relative to the rows [a - 2 .. a + 2]. *)
Ltac split_position r a :=
  let H := fresh "Hpos" in
  assert (H : r < a - 2 \/ r = a - 2 \/ r = a - 1 \/ r = a \/ r = a + 1 \/
              r = a + 2 \/ a + 2 < r) by lia;
  destruct H as [H|[H|[H|[H|[H|[H|H]]]]]].

Ltac pattern_rule r c a b :=
  unfold pattern_count; rewrite moore_offsets_eq, !filter_count_cons;
  cbn [List.filter length fst snd];
  unfold block_at, blinker_upright, blinker_lying;
  split_position r a; split_position c b;
  settle_comparisons; reflexivity.

Lemma block_rule a b r c :
  next_state (if block_at a b r c then CELL_ALIVE else CELL_DEAD)
    (pattern_count (block_at a b) r c) =
  if block_at a b r c then CELL_ALIVE else CELL_DEAD.
Proof. pattern_rule r c a b. Qed.

Lemma blinker_upright_rule a b r c :
  next_state (if blinker_upright a b r c then CELL_ALIVE else CELL_DEAD)
    (pattern_count (blinker_upright a b) r c) =
  if blinker_lying a b r c then CELL_ALIVE else CELL_DEAD.
Proof. pattern_rule r c a b. Qed.

Lemma blinker_lying_rule a b r c :
  next_state (if blinker_lying a b r c then CELL_ALIVE else CELL_DEAD)
    (pattern_count (blinker_lying a b) r c) =
  if blinker_upright a b r c then CELL_ALIVE else CELL_DEAD.
Proof. pattern_rule r c a b. Qed.

(** A 2 x 2 block anywhere on the board, with every other cell dead, is
    a still life: the step returns the board unchanged. *)
Theorem block_still_life ctx a b :
  ctx_wf ctx -> fits_int ctx ->
  0 <= a -> a + 1 < rows ctx -> 0 <= b -> b + 1 < cols ctx ->
  shows ctx (block_at a b) ->
  simulate_step ctx = Some ctx.
Proof.
  intros Hwf Hfit Ha Ha' Hb Hb' Hshow.
  destruct (pattern_step ctx (block_at a b) (block_at a b))
    as (ctx' & Hstep & Hwf' & Hframe & Hshow'); [done..| | |].
  - unfold block_at, in_bounds. intros x y H.
    rewrite !andb_true_iff, !Z.leb_le in H. lia.
  - intros r c _. apply block_rule.
  - rewrite Hstep. f_equal. symmetry. by apply (shows_unique ctx ctx' (block_at a b)).
Qed.

Lemma block_still_life_witness :
  shows block_ctx (block_at 1 1) /\ simulate_step block_ctx = Some block_ctx.
Proof.
  assert (H : shows block_ctx (block_at 1 1)).
  { intros r c [Hr Hc]. simpl in Hr, Hc.
    assert (Er : r = 0 \/ r = 1 \/ r = 2 \/ r = 3) by lia.
    assert (Ec : c = 0 \/ c = 1 \/ c = 2 \/ c = 3) by lia.
    destruct Er as [->|[->|[->| ->]]]; destruct Ec as [->|[->|[->| ->]]];
      reflexivity. }
  split; [exact H|].
  apply (block_still_life block_ctx 1 1); try (simpl; lia); try exact H.
  - apply ctx_wfb_spec. reflexivity.
  - unfold fits_int. simpl. unfold INT_MAX. lia.
Defined.

(** A blinker anywhere on the board with room around it, every other
    cell dead, has period two: one step turns the upright blinker into
    the lying one, and the next step restores the board. *)
Theorem blinker_period_two ctx a b :
  ctx_wf ctx -> fits_int ctx ->
  1 <= a -> a + 1 < rows ctx -> 1 <= b -> b + 1 < cols ctx ->
  shows ctx (blinker_upright a b) ->
  exists ctx', simulate_step ctx = Some ctx' /\
    shows ctx' (blinker_lying a b) /\ simulate_step ctx' = Some ctx.
Proof.
  intros Hwf Hfit Ha Ha' Hb Hb' Hshow.
  destruct (pattern_step ctx (blinker_upright a b) (blinker_lying a b))
    as (ctx' & Hstep & Hwf' & Hframe & Hshow'); [done..| | |].
  { unfold blinker_upright, in_bounds. intros x y H.
    rewrite !andb_true_iff, Z.eqb_eq, !Z.leb_le in H. lia. }
  { intros r c _. apply blinker_upright_rule. }
  assert (Hfit' : fits_int ctx').
  { destruct Hframe as (Hr & Hc & _). unfold fits_int. by rewrite Hr, Hc. }
  destruct (pattern_step ctx' (blinker_lying a b) (blinker_upright a b))
    as (ctx'' & Hstep' & Hwf'' & Hframe' & Hshow''); [done..| | |].
  { destruct Hframe as (Hr & Hc & _).
    unfold blinker_lying, in_bounds. intros x y H. rewrite Hr, Hc.
    rewrite !andb_true_iff, Z.eqb_eq, !Z.leb_le in H. lia. }
  { intros r c _. apply blinker_lying_rule. }
  exists ctx'. split; [done|]. split; [done|].
  rewrite Hstep'. f_equal. symmetry.
  apply (shows_unique ctx ctx'' (blinker_upright a b)); try done.
  by apply (same_frame_trans _ ctx').
Qed.

Lemma blinker_period_two_witness :
  shows blinker_ctx (blinker_upright 1 2) /\
  exists ctx', simulate_step blinker_ctx = Some ctx' /\
    shows ctx' (blinker_lying 1 2) /\ simulate_step ctx' = Some blinker_ctx.
Proof.
  assert (H : shows blinker_ctx (blinker_upright 1 2)).
  { intros r c [Hr Hc]. simpl in Hr, Hc.
    assert (Er : r = 0 \/ r = 1 \/ r = 2 \/ r = 3 \/ r = 4) by lia.
    assert (Ec : c = 0 \/ c = 1 \/ c = 2 \/ c = 3 \/ c = 4) by lia.
    destruct Er as [->|[->|[->|[->| ->]]]];
      destruct Ec as [->|[->|[->|[->| ->]]]]; reflexivity. }
  split; [exact H|].
  apply (blinker_period_two blinker_ctx 1 2); try (simpl; lia); try exact H.
  - apply blinker_ctx_wf.
  - apply blinker_ctx_fits.
Defined.

(* ===================================================================== *)
(** ** Counting and drawing the living cells: facts *)
(* ===================================================================== *)

Lemma count_alive_cells_row_major ctx :
  count_alive_cells ctx =
  for_each (fun count p => count_cell ctx count p.1 p.2) 0
    (row_major (rows ctx) (cols ctx)).
Proof.
  unfold count_alive_cells.
  by apply (nested_loops (count_cell ctx) (fun _ => cols ctx) (fun _ => True)).
Qed.

Lemma render_loops_row_major ctx calls :
  for_range
    (fun calls i =>
       for_range (fun calls j => render_cell ctx calls i j) calls (cols ctx))
    calls (rows ctx) =
  for_each (fun calls p => render_cell ctx calls p.1 p.2) calls
    (row_major (rows ctx) (cols ctx)).
Proof.
  by apply (nested_loops (render_cell ctx) (fun _ => cols ctx) (fun _ => True)).
Qed.

Lemma count_cell_eq ctx count i j s :
  get_cell ctx i j = Some s ->
  count_cell ctx count i j =
  if cell_eqb s CELL_ALIVE then int_incr count else Some count.
Proof. intros H. unfold count_cell. by rewrite H. Qed.

Lemma render_cell_eq ctx calls i j s :
  get_cell ctx i j = Some s ->
  render_cell ctx calls i j =
  Some (if cell_eqb s CELL_ALIVE then calls ++ [cell_rect i j] else calls).
Proof. intros H. unfold render_cell. by rewrite H. Qed.

Lemma is_alive_eq ctx i j s :
  get_cell ctx i j = Some s -> is_alive ctx (i, j) = cell_eqb s CELL_ALIVE.
Proof. intros H. unfold is_alive. simpl. by rewrite H. Qed.

Lemma count_scan ctx l count :
  ctx_wf ctx -> Forall (fun p => in_bounds ctx p.1 p.2) l ->
  0 <= count <= INT_MAX ->
  for_each (fun count p => count_cell ctx count p.1 p.2) count l =
  if decide (count + Z.of_nat (length (List.filter (is_alive ctx) l)) <= INT_MAX)
  then Some (count + Z.of_nat (length (List.filter (is_alive ctx) l)))
  else None.
Proof.
  intros Hwf Hl. revert count.
  induction Hl as [|[i j] l Hp Hl IH]; intros count Hc.
  { simpl. rewrite decide_True by lia. f_equal. lia. }
  destruct (get_cell_is_Some ctx i j Hwf Hp) as [s Hs].
  cbn [for_each List.filter fst snd].
  rewrite (count_cell_eq _ _ _ _ _ Hs), (is_alive_eq _ _ _ _ Hs).
  destruct (cell_eqb s CELL_ALIVE).
  - unfold int_incr. cbn [length]. destruct (count <? INT_MAX) eqn:E.
    + apply Z.ltb_lt in E. cbn [mbind option_bind]. rewrite IH by lia.
      repeat case_decide; try lia; [f_equal; lia|done].
    + apply Z.ltb_ge in E. rewrite decide_False by lia. done.
  - cbn [mbind option_bind]. by rewrite IH.
Qed.

Lemma render_scan ctx l calls :
  ctx_wf ctx -> Forall (fun p => in_bounds ctx p.1 p.2) l ->
  for_each (fun calls p => render_cell ctx calls p.1 p.2) calls l =
  Some (calls ++ map (fun p => cell_rect p.1 p.2) (List.filter (is_alive ctx) l)).
Proof.
  intros Hwf Hl. revert calls.
  induction Hl as [|[i j] l Hp Hl IH]; intros calls.
  { simpl. by rewrite app_nil_r. }
  destruct (get_cell_is_Some ctx i j Hwf Hp) as [s Hs].
  cbn [for_each List.filter fst snd].
  rewrite (render_cell_eq _ _ _ _ _ Hs), (is_alive_eq _ _ _ _ Hs).
  cbn [mbind option_bind]. rewrite IH.
  destruct (cell_eqb s CELL_ALIVE); [|done].
  by rewrite <- app_assoc.
Qed.

Lemma count_alive_cells_eq ctx :
  ctx_wf ctx ->
  count_alive_cells ctx =
  if decide (alive_total ctx <= INT_MAX) then Some (alive_total ctx) else None.
Proof.
  intros Hwf. rewrite count_alive_cells_row_major.
  rewrite count_scan; [|done|apply row_major_in_bounds|unfold INT_MAX; lia].
  unfold alive_total, alive_cells. by rewrite !Z.add_0_l.
Qed.

(** [count_alive_cells] returns the number of cells that are
    [CELL_ALIVE], as long as that number is an [int]; beyond it the
    counter overflows. *)
Theorem count_alive_cells_total ctx :
  ctx_wf ctx ->
  count_alive_cells ctx =
  if decide (alive_total ctx <= INT_MAX) then Some (alive_total ctx) else None.
Proof. apply count_alive_cells_eq. Qed.

Lemma count_alive_cells_total_witness :
  count_alive_cells blinker_ctx = Some 3 /\ alive_total blinker_ctx = 3.
Proof.
  pose proof (count_alive_cells_total blinker_ctx blinker_ctx_wf) as H.
  split; [|reflexivity]. rewrite H. reflexivity.
Defined.

Lemma cell_rect_exact ctx i j :
  window_fits ctx -> in_bounds ctx i j ->
  cell_rect i j =
  SDL_RenderFillRect (j * CELL_SIZE) (i * CELL_SIZE) CELL_SIZE CELL_SIZE.
Proof.
  unfold window_fits, in_bounds, cell_rect, CELL_SIZE, INT_MAX.
  intros [Hr Hc] [Hi Hj].
  rewrite !to_size_t_nonneg by (unfold SIZE_MODULUS; lia).
  by rewrite !to_int_id by (unfold INT_MIN, INT_MAX; lia).
Qed.

Lemma render_grid_frame ctx :
  ctx_wf ctx -> window_fits ctx ->
  render_grid ctx = Some (frame_of (alive_cells ctx)).
Proof.
  intros Hwf Hfit. unfold render_grid.
  rewrite render_loops_row_major.
  rewrite render_scan; [|done|apply row_major_in_bounds].
  cbn [mbind option_bind]. unfold frame_of. f_equal.
  rewrite <- app_assoc. do 2 f_equal. unfold alive_cells.
  apply map_ext_in. intros [i j] Hin. apply filter_In in Hin as [Hin _].
  apply list_elem_of_In, elem_of_row_major in Hin.
  by apply (cell_rect_exact ctx).
Qed.

(** One frame: the screen is cleared to black, then one green square of
    [CELL_SIZE] pixels is filled for each cell that is [CELL_ALIVE], row
    by row, at the pixel position of the cell, and the frame is
    presented.  Cells in any other state are not drawn. *)
Theorem render_grid_squares ctx :
  ctx_wf ctx -> window_fits ctx ->
  render_grid ctx = Some (frame_of (alive_cells ctx)).
Proof. apply render_grid_frame. Qed.

Lemma render_grid_squares_witness :
  render_grid blinker_ctx =
  Some [SDL_SetRenderDrawColor 0 0 0 255; SDL_RenderClear;
        SDL_SetRenderDrawColor 0 255 0 255;
        SDL_RenderFillRect 16 0 8 8; SDL_RenderFillRect 16 8 8 8;
        SDL_RenderFillRect 16 16 8 8; SDL_RenderPresent].
Proof.
  rewrite (render_grid_squares blinker_ctx blinker_ctx_wf).
  - reflexivity.
  - unfold window_fits. simpl. unfold CELL_SIZE, INT_MAX. lia.
Defined.

Lemma is_alive_in_bounds ctx p :
  ctx_wf ctx -> is_alive ctx p = true -> in_bounds ctx p.1 p.2.
Proof.
  intros Hwf. unfold is_alive.
  destruct (get_cell ctx p.1 p.2) as [s|] eqn:E; [|done].
  intros _. by eapply get_cell_bounds.
Qed.

(** A pixel with coordinates from 0 is in a square of the frame exactly
    if the cell under it is alive. *)
Lemma covered_frame ctx px py :
  ctx_wf ctx -> 0 <= px -> 0 <= py ->
  covered (frame_of (alive_cells ctx)) px py =
  is_alive ctx (py ÷ CELL_SIZE, px ÷ CELL_SIZE).
Proof.
  intros Hwf Hx Hy. unfold covered, frame_of.
  rewrite !existsb_app. cbn [existsb covers orb]. rewrite orb_false_r.
  assert (Hcell : forall p : Z * Z,
    covers px py (SDL_RenderFillRect (p.2 * CELL_SIZE) (p.1 * CELL_SIZE)
                    CELL_SIZE CELL_SIZE) = true <->
    p = (py ÷ CELL_SIZE, px ÷ CELL_SIZE)).
  { intros [i j]. unfold covers, CELL_SIZE. cbn [fst snd].
    rewrite !andb_true_iff, !Z.leb_le, !Z.ltb_lt.
    rewrite !Z.quot_div_nonneg by lia. split.
    - intros [[[H1 H2] H3] H4]. f_equal.
      + apply (Z.div_unique py 8 i (py - i * 8)); lia.
      + apply (Z.div_unique px 8 j (px - j * 8)); lia.
    - intros [= -> ->].
      pose proof (Z.mod_pos_bound px 8). pose proof (Z.mod_pos_bound py 8).
      pose proof (Z.div_mod px 8). pose proof (Z.div_mod py 8). lia. }
  destruct (is_alive ctx (py ÷ CELL_SIZE, px ÷ CELL_SIZE)) eqn:E.
  - apply existsb_exists. eexists. split; [|by apply Hcell].
    apply in_map_iff. exists (py ÷ CELL_SIZE, px ÷ CELL_SIZE). split; [done|].
    apply filter_In. split; [|done].
    apply list_elem_of_In, elem_of_row_major.
    by apply (is_alive_in_bounds ctx (_, _)).
  - apply not_true_is_false. intros H.
    apply existsb_exists in H as (call & Hin & Hcov).
    apply in_map_iff in Hin as (p & <- & Hp).
    apply filter_In in Hp as [_ Hp]. apply Hcell in Hcov. congruence.
Qed.

Lemma handle_mouse_click_alive ctx x y :
  ctx_wf ctx -> INT_MIN <= x <= INT_MAX -> INT_MIN <= y <= INT_MAX ->
  in_bounds ctx (y ÷ CELL_SIZE) (x ÷ CELL_SIZE) ->
  exists ctx', handle_mouse_click ctx x y = Some ctx' /\ ctx_wf ctx' /\
    same_frame ctx ctx' /\
    is_alive ctx' (y ÷ CELL_SIZE, x ÷ CELL_SIZE) =
      negb (is_alive ctx (y ÷ CELL_SIZE, x ÷ CELL_SIZE)) /\
    forall p, p <> (y ÷ CELL_SIZE, x ÷ CELL_SIZE) ->
      is_alive ctx' p = is_alive ctx p.
Proof.
  intros Hwf Hx Hy Hb.
  destruct (handle_mouse_click_cases ctx x y Hwf Hx Hy)
    as [(_ & s & Hs & ->) | (Hnb & _)]; [|done].
  destruct (set_cell_spec ctx _ _
              (if cell_eqb s CELL_ALIVE then CELL_DEAD else CELL_ALIVE) Hwf Hb)
    as (ctx' & -> & Hwf' & Hframe & Hnew & Hold).
  exists ctx'. split; [done|]. split; [done|]. split; [done|]. split.
  - rewrite (is_alive_eq _ _ _ _ Hs), (is_alive_eq _ _ _ _ Hnew).
    by destruct s.
  - intros [r c] Hne. unfold is_alive. cbn [fst snd]. by rewrite Hold.
Qed.

(** A left click on a pixel of the window inverts what the next frame
    shows there: a square covers the pixel afterwards exactly if none did
    before; the pixels of the other cells are drawn as before. *)
Theorem click_inverts_pixel ctx px py :
  ctx_wf ctx -> window_fits ctx ->
  0 <= px < cols ctx * CELL_SIZE -> 0 <= py < rows ctx * CELL_SIZE ->
  exists ctx' before after,
    render_grid ctx = Some before /\
    handle_mouse_click ctx px py = Some ctx' /\
    render_grid ctx' = Some after /\
    covered after px py = negb (covered before px py) /\
    forall qx qy, 0 <= qx -> 0 <= qy ->
      (qy ÷ CELL_SIZE, qx ÷ CELL_SIZE) <> (py ÷ CELL_SIZE, px ÷ CELL_SIZE) ->
      covered after qx qy = covered before qx qy.
Proof.
  intros Hwf Hfit Hx Hy.
  assert (Hb : in_bounds ctx (py ÷ CELL_SIZE) (px ÷ CELL_SIZE)).
  { unfold in_bounds, CELL_SIZE in *. rewrite !Z.quot_div_nonneg by lia.
    split; (split; [apply Z.div_pos; lia|apply Z.div_lt_upper_bound; lia]). }
  assert (Hpx : INT_MIN <= px <= INT_MAX)
    by (unfold window_fits, INT_MIN in *; lia).
  assert (Hpy : INT_MIN <= py <= INT_MAX)
    by (unfold window_fits, INT_MIN in *; lia).
  destruct (handle_mouse_click_alive ctx px py Hwf Hpx Hpy Hb)
    as (ctx' & Hclick & Hwf' & Hframe & Hnew & Hold).
  assert (Hfit' : window_fits ctx').
  { destruct Hframe as (Hr & Hc & _). unfold window_fits. by rewrite Hr, Hc. }
  exists ctx', (frame_of (alive_cells ctx)), (frame_of (alive_cells ctx')).
  split; [by apply render_grid_frame|]. split; [done|].
  split; [by apply render_grid_frame|]. split.
  - rewrite !covered_frame by (done || lia). done.
  - intros qx qy Hqx Hqy Hne. rewrite !covered_frame by done. by apply Hold.
Qed.

Lemma click_inverts_pixel_witness :
  exists ctx' before after,
    render_grid blinker_ctx = Some before /\
    handle_mouse_click blinker_ctx 20 3 = Some ctx' /\
    render_grid ctx' = Some after /\
    covered before 20 3 = true /\ covered after 20 3 = false.
Proof.
  destruct (click_inverts_pixel blinker_ctx 20 3 blinker_ctx_wf)
    as (ctx' & before & after & Hb & Hc & Ha & Hflip & _).
  - unfold window_fits. simpl. unfold CELL_SIZE, INT_MAX. lia.
  - simpl. unfold CELL_SIZE. lia.
  - simpl. unfold CELL_SIZE. lia.
  - exists ctx', before, after. split; [exact Hb|]. split; [exact Hc|].
    split; [exact Ha|].
    assert (E : covered before 20 3 = true).
    { vm_compute in Hb. injection Hb as <-. reflexivity. }
    split; [exact E|]. rewrite Hflip, E. reflexivity.
Defined.

Lemma filter_length_agree {A} (f g : A -> bool) (l : list A) :
  (forall q, q ∈ l -> g q = f q) ->
  length (List.filter g l) = length (List.filter f l).
Proof.
  induction l as [|q l IH]; intros H; [done|]. simpl.
  rewrite (H q) by left. destruct (f q); simpl;
    rewrite IH by (intros; apply H; by right); done.
Qed.

(** Over a list without duplicates, a predicate that changed at one
    element only counts one more or one less. *)
Lemma filter_length_flip {A} (f g : A -> bool) (l : list A) p :
  NoDup l -> p ∈ l -> g p = negb (f p) ->
  (forall q, q <> p -> g q = f q) ->
  Z.of_nat (length (List.filter g l)) =
  Z.of_nat (length (List.filter f l)) + (if f p then -1 else 1).
Proof.
  intros Hnd Hin Hp Hq. induction Hnd as [|q l Hnotin Hnd IH].
  { by apply elem_of_nil in Hin. }
  apply elem_of_cons in Hin as [<-|Hin].
  - pose proof (filter_length_agree f g l) as Hl.
    rewrite !filter_count_cons, Hp, Hl
      by (intros q Hq'; apply Hq; intros ->; contradiction).
    destruct (f p); simpl; lia.
  - rewrite !filter_count_cons, (Hq q) by (intros ->; contradiction).
    specialize (IH Hin). lia.
Qed.

(** A click on a cell changes the count of living cells by one: one
    less when the cell was alive, one more otherwise. *)
Theorem handle_mouse_click_count ctx x y n :
  ctx_wf ctx -> INT_MIN <= x <= INT_MAX -> INT_MIN <= y <= INT_MAX ->
  in_bounds ctx (y ÷ CELL_SIZE) (x ÷ CELL_SIZE) ->
  count_alive_cells ctx = Some n -> n < INT_MAX ->
  exists ctx', handle_mouse_click ctx x y = Some ctx' /\
    count_alive_cells ctx' =
    Some (if is_alive ctx (y ÷ CELL_SIZE, x ÷ CELL_SIZE) then n - 1 else n + 1).
Proof.
  intros Hwf Hx Hy Hb Hn Hlt.
  destruct (handle_mouse_click_alive ctx x y Hwf Hx Hy Hb)
    as (ctx' & Hclick & Hwf' & Hframe & Hnew & Hold).
  exists ctx'. split; [done|].
  rewrite count_alive_cells_eq in Hn by done.
  rewrite count_alive_cells_eq by done.
  case_decide as Hle; [|done]. injection Hn as <-.
  assert (E : alive_total ctx' = alive_total ctx +
    (if is_alive ctx (y ÷ CELL_SIZE, x ÷ CELL_SIZE) then -1 else 1)).
  { unfold alive_total, alive_cells. destruct Hframe as (-> & -> & _).
    apply filter_length_flip; [apply NoDup_row_major| |done..].
    by apply elem_of_row_major. }
  rewrite E.
  destruct (is_alive ctx _); rewrite decide_True by lia; f_equal; lia.
Qed.

Lemma handle_mouse_click_count_witness :
  count_alive_cells blinker_ctx = Some 3 /\
  exists ctx', handle_mouse_click blinker_ctx 20 3 = Some ctx' /\
    count_alive_cells ctx' = Some 2.
Proof.
  split; [reflexivity|].
  apply (handle_mouse_click_count blinker_ctx 20 3 3 blinker_ctx_wf).
  - unfold INT_MIN, INT_MAX. lia.
  - unfold INT_MIN, INT_MAX. lia.
  - unfold in_bounds, CELL_SIZE. simpl. change (20 ÷ 8) with 2.
    change (3 ÷ 8) with 0. lia.
  - reflexivity.
  - unfold INT_MAX. lia.
Defined.

(** On a board at rest a second click at the same pixel undoes the
    first. *)
Theorem handle_mouse_click_twice ctx x y :
  ctx_wf ctx -> at_rest ctx ->
  INT_MIN <= x <= INT_MAX -> INT_MIN <= y <= INT_MAX ->
  exists ctx', handle_mouse_click ctx x y = Some ctx' /\
    handle_mouse_click ctx' x y = Some ctx.
Proof.
  intros Hwf Hrest Hx Hy.
  destruct (handle_mouse_click_cases ctx x y Hwf Hx Hy)
    as [(Hb & s & Hs & E) | (Hnb & E)]; [|by exists ctx].
  destruct (set_cell_spec ctx _ _
              (if cell_eqb s CELL_ALIVE then CELL_DEAD else CELL_ALIVE) Hwf Hb)
    as (ctx' & E' & Hwf' & Hframe & Hnew & Hold).
  exists ctx'. split; [congruence|].
  assert (Hb' : in_bounds ctx' (y ÷ CELL_SIZE) (x ÷ CELL_SIZE))
    by (by eapply in_bounds_frame).
  destruct (handle_mouse_click_cases ctx' x y Hwf' Hx Hy)
    as [(_ & s' & Hs' & E2) | (Hnb & _)]; [|done].
  destruct (set_cell_spec ctx' _ _
              (if cell_eqb s' CELL_ALIVE then CELL_DEAD else CELL_ALIVE) Hwf' Hb')
    as (ctx'' & E2' & Hwf'' & Hframe' & Hnew' & Hold').
  rewrite E2, E2'. f_equal. symmetry. apply ctx_ext; [done..| |].
  { by apply (same_frame_trans _ ctx'). }
  intros r c _. destruct (decide ((r, c) = (y ÷ CELL_SIZE, x ÷ CELL_SIZE)))
    as [[= -> ->]|Hne].
  - rewrite Hnew', Hs. rewrite Hnew in Hs'. injection Hs' as <-.
    destruct (Hrest _ _ _ Hs) as [-> | ->]; reflexivity.
  - by rewrite Hold', Hold.
Qed.

Lemma handle_mouse_click_twice_witness :
  exists ctx', handle_mouse_click blinker_ctx 20 3 = Some ctx' /\
    handle_mouse_click ctx' 20 3 = Some blinker_ctx.
Proof.
  apply (handle_mouse_click_twice blinker_ctx 20 3 blinker_ctx_wf
           blinker_ctx_at_rest).
  - unfold INT_MIN, INT_MAX. lia.
  - unfold INT_MIN, INT_MAX. lia.
Defined.

(* ===================================================================== *)
(** ** Random initializer: which call fills which cell *)
(* ===================================================================== *)

Lemma bind_fixed_length {A B} (f : A -> list B) (m : nat) (l : list A) :
  (forall a, length (f a) = m) -> length (l ≫= f) = (length l * m)%nat.
Proof.
  intros Hf. induction l as [|a l IH]; [done|]. csimpl.
  rewrite length_app, Hf, IH. done.
Qed.

Lemma bind_fixed_lookup {A B} (f : A -> list B) (m : nat) (l : list A) k c x :
  (forall a, length (f a) = m) -> (c < m)%nat -> l !! k = Some x ->
  (l ≫= f) !! (k * m + c)%nat = f x !! c.
Proof.
  intros Hf Hc. revert k. induction l as [|a l IH]; intros k Hk; [done|].
  csimpl. destruct k as [|k].
  - injection Hk as ->. rewrite lookup_app_l by (rewrite Hf; lia). done.
  - rewrite lookup_app_r by (rewrite Hf; lia). rewrite Hf.
    replace (S k * m + c - m)%nat with (k * m + c)%nat by lia. by apply IH.
Qed.

Lemma length_row_major n m :
  length (row_major n m) = (Z.to_nat n * Z.to_nat m)%nat.
Proof.
  unfold row_major. rewrite (bind_fixed_length _ (Z.to_nat m)).
  - by rewrite length_seqZ.
  - intros i. rewrite (bind_fixed_length _ 1%nat) by done.
    rewrite length_seqZ. lia.
Qed.

(** The cell [(r, c)] is number [r * m + c] of the row-major order. *)
Lemma lookup_row_major n m r c :
  0 <= r < n -> 0 <= c < m ->
  row_major n m !! Z.to_nat (r * m + c) = Some (r, c).
Proof.
  intros Hr Hc. unfold row_major.
  replace (Z.to_nat (r * m + c))
    with (Z.to_nat r * Z.to_nat m + Z.to_nat c)%nat by nia.
  rewrite (bind_fixed_lookup _ (Z.to_nat m) _ _ _ r).
  - replace (Z.to_nat c) with (Z.to_nat c * 1 + 0)%nat by lia.
    rewrite (bind_fixed_lookup _ 1%nat _ _ _ c); [done|done|lia|].
    rewrite lookup_seqZ_lt by lia. f_equal. lia.
  - intros i. rewrite (bind_fixed_length _ 1%nat) by done.
    rewrite length_seqZ. lia.
  - lia.
  - rewrite lookup_seqZ_lt by lia. f_equal. lia.
Qed.

(** [initialize_grid_random] returns on every allocated board.  It calls
    [rand] once per cell, [rows * cols] times in all, and the cell in row
    [r] and column [c] holds the parity of call number [r * cols + c]
    (from 0): alive for an odd value, dead for an even one.  The
    generator starts from the configured seed, or from the clock when
    the seed is 0. *)
Theorem initialize_grid_random_cells {rng_state : Type}
  (srand : Z -> rng_state) (rand : rng_state -> Z * rng_state) ctx now :
  ctx_wf ctx ->
  exists ctx',
    initialize_grid_random srand rand ctx now =
      Some (ctx', rng_after rand (Z.to_nat (rows ctx * cols ctx))
                    (start_rng srand ctx now)) /\
    ctx_wf ctx' /\ same_frame ctx ctx' /\ at_rest ctx' /\
    forall r c, in_bounds ctx r c ->
      get_cell ctx' r c =
      Some (cell_of_rand (rng_value rand (Z.to_nat (r * cols ctx + c))
                            (start_rng srand ctx now))).
Proof.
  intros Hwf. unfold initialize_grid_random. cbv zeta.
  fold (start_rng srand ctx now).
  destruct (fill_random_spec rand ctx (start_rng srand ctx now) Hwf)
    as (ctx' & E & Hwf' & Hframe & Hcells).
  exists ctx'. rewrite E, length_row_major.
  pose proof Hwf as (Hr & _ & Hc & _).
  split; [do 3 f_equal; nia|]. split; [done|]. split; [done|].
  assert (Hval : forall r c, in_bounds ctx r c ->
    get_cell ctx' r c =
    Some (cell_of_rand (rng_value rand (Z.to_nat (r * cols ctx + c))
                          (start_rng srand ctx now)))).
  { intros r c Hb. destruct (Hcells r c Hb) as (k & Hk & ->).
    pose proof (lookup_row_major (rows ctx) (cols ctx) r c
                  (proj1 Hb) (proj2 Hb)) as Hk'.
    do 3 f_equal.
    eapply NoDup_lookup; [apply NoDup_row_major|exact Hk|exact Hk']. }
  split; [|exact Hval].
  intros r c s Hs.
  assert (Hb : in_bounds ctx r c).
  { destruct Hframe as (Er & Ec & _).
    pose proof (get_cell_bounds _ _ _ _ Hwf' Hs) as Hb'.
    unfold in_bounds in *. by rewrite <- Er, <- Ec. }
  rewrite (Hval r c Hb) in Hs. injection Hs as <-.
  unfold cell_of_rand. destruct (negb _); [by right|by left].
Qed.

Lemma initialize_grid_random_cells_witness :
  exists ctx',
    initialize_grid_random iso_srand iso_rand seeded_ctx 1000 =
      Some (ctx', rng_after iso_rand 4 42) /\
    get_cell ctx' 1 0 = Some (cell_of_rand (rng_value iso_rand 2 42)).
Proof.
  assert (Hwf : ctx_wf seeded_ctx) by (apply ctx_wfb_spec; reflexivity).
  destruct (initialize_grid_random_cells iso_srand iso_rand seeded_ctx 1000 Hwf)
    as (ctx' & E & _ & _ & _ & Hcells).
  exists ctx'. split; [exact E|].
  apply (Hcells 1 0). unfold in_bounds. simpl. lia.
Defined.

(* ===================================================================== *)
(** ** Manual initializer: any file *)
(* ===================================================================== *)

Lemma omap_marker_cell_rest (chars : list ascii) (k : nat) v :
  omap marker_cell chars !! k = Some v -> v = CELL_DEAD \/ v = CELL_ALIVE.
Proof.
  intros H. apply list_elem_of_lookup_2 in H.
  apply list_elem_of_omap in H as (ch & _ & H). unfold marker_cell in H.
  destruct (is_alive_marker ch); [injection H as <-; by right|].
  destruct (is_dead_marker ch); [injection H as <-; by left|done].
Qed.

(** One line of any content keeps the board allocated, of the same
    dimensions and at rest; no cell outside the board is written. *)
Lemma parse_line_any ctx0 st buffer :
  parse_inv ctx0 st ->
  exists st', parse_line st buffer = Some st' /\ parse_inv ctx0 st'.
Proof.
  intros (Hwf & Hframe & Hrest & Hrow). unfold parse_line. cbv zeta.
  destruct (_ || _); [by exists st|].
  destruct (starts_with _ _).
  { eexists. split; [done|]. split; [exact Hwf|]. split; [exact Hframe|].
    split; [exact Hrest|]. simpl. lia. }
  destruct (in_grid_section st); [|by exists st].
  destruct (Ascii.eqb _ _); [by exists st|].
  destruct (current_row st <? rows (parse_ctx st)) eqn:E; [|by exists st].
  apply Z.ltb_lt in E.
  destruct (parse_row_spec (c_string buffer) (parse_ctx st) (current_row st) 0)
    as (ctx' & -> & Hwf' & Hframe' & Hcells); [done|lia|lia|].
  eexists. split; [done|]. split; [done|].
  split; [by eapply same_frame_trans|]. split; [|simpl; lia].
  intros r c s. cbn [parse_ctx]. rewrite Hcells. unfold row_written.
  case_decide as Hd; [|apply Hrest].
  destruct (omap marker_cell (c_string buffer) !! Z.to_nat (c - 0)) as [v|] eqn:Ev;
    [|apply Hrest].
  intros [= <-]. by eapply omap_marker_cell_rest.
Qed.

Lemma parse_lines_any ctx0 buffers : forall st,
  parse_inv ctx0 st ->
  exists st', for_each parse_line st buffers = Some st' /\ parse_inv ctx0 st'.
Proof.
  induction buffers as [|b buffers IH]; intros st Hinv; [by exists st|].
  destruct (parse_line_any ctx0 st b Hinv) as (st1 & E & Hinv1).
  cbn [for_each]. rewrite E. by apply IH.
Qed.

Lemma all_dead_at_rest ctx : ctx_wf ctx -> all_dead ctx -> at_rest ctx.
Proof.
  intros Hwf Hdead r c s Hs. pose proof (get_cell_bounds _ _ _ _ Hwf Hs) as Hb.
  rewrite (Hdead _ _ Hb) in Hs. injection Hs as <-. by left.
Qed.

Lemma initialize_grid_manual_total ctx file :
  ctx_wf ctx ->
  exists ctx' msgs,
    initialize_grid_manual ctx file = Some (ctx', msgs) /\
    ctx_wf ctx' /\ same_frame ctx ctx' /\ at_rest ctx'.
Proof.
  intros Hwf. unfold initialize_grid_manual.
  destruct (clear_grid_spec ctx Hwf) as (ctx1 & -> & Hwf1 & Hf1 & Hdead).
  cbn [mbind option_bind].
  assert (Hrest1 : at_rest ctx1).
  { apply all_dead_at_rest; [done|]. intros r c Hb. apply Hdead.
    destruct Hf1 as (Er & Ec & _). unfold in_bounds in *. by rewrite <- Er, <- Ec. }
  destruct file as [content|]; cbn [parse_manual_config].
  - unfold parse_buffers.
    destruct (parse_lines_any ctx (file_buffers content)
                (mk_parse_state false 0 ctx1))
      as (st' & -> & Hwf' & Hf' & Hrest' & _).
    { split; [exact Hwf1|]. split; [exact Hf1|]. split; [exact Hrest1|].
      simpl. lia. }
    cbn [mbind option_bind fst snd]. by eexists _, _.
  - cbn [mbind option_bind fst snd]. by eexists _, _.
Qed.

(** Whatever the file holds, and also when it cannot be opened,
    [initialize_grid_manual] returns with the board allocated, of the
    same dimensions and configuration, and every cell dead or alive. *)
Theorem initialize_grid_manual_any_file ctx file :
  ctx_wf ctx ->
  exists ctx' msgs,
    initialize_grid_manual ctx file = Some (ctx', msgs) /\
    ctx_wf ctx' /\ same_frame ctx ctx' /\ at_rest ctx'.
Proof. apply initialize_grid_manual_total. Qed.

Lemma initialize_grid_manual_any_file_witness :
  exists ctx' msgs,
    initialize_grid_manual two_rows_ctx (Some marker_twice_file)
      = Some (ctx', msgs) /\
    ctx_wf ctx' /\ same_frame two_rows_ctx ctx' /\ at_rest ctx'.
Proof.
  apply (initialize_grid_manual_any_file two_rows_ctx (Some marker_twice_file)).
  apply ctx_wfb_spec. reflexivity.
Defined.

(** The board [initialize_grid_manual] builds does not depend on the
    cells the board held before. *)
Theorem initialize_grid_manual_fresh ctx1 ctx2 file :
  ctx_wf ctx1 -> ctx_wf ctx2 -> same_frame ctx1 ctx2 ->
  initialize_grid_manual ctx1 file = initialize_grid_manual ctx2 file.
Proof.
  intros Hwf1 Hwf2 Hframe. unfold initialize_grid_manual.
  destruct (clear_grid_spec ctx1 Hwf1) as (c1 & -> & Hw1 & Hf1 & Hd1).
  destruct (clear_grid_spec ctx2 Hwf2) as (c2 & -> & Hw2 & Hf2 & Hd2).
  replace c2 with c1; [done|].
  apply ctx_ext; [done..| |].
  - destruct Hframe as (Er & Ec & Ecfg), Hf1 as (Er1 & Ec1 & Ecfg1),
      Hf2 as (Er2 & Ec2 & Ecfg2).
    repeat split; congruence.
  - intros r c Hb.
    destruct Hframe as (Er & Ec & _), Hf1 as (Er1 & Ec1 & _).
    rewrite Hd1, Hd2; [done| |]; unfold in_bounds in *; lia.
Qed.

Lemma initialize_grid_manual_fresh_witness :
  initialize_grid_manual seeded_ctx (Some plain_file) =
  initialize_grid_manual seeded_ctx' (Some plain_file).
Proof.
  apply initialize_grid_manual_fresh.
  - apply ctx_wfb_spec. reflexivity.
  - apply ctx_wfb_spec. reflexivity.
  - split; [reflexivity|]. split; reflexivity.
Defined.

(** Without a grid section, and also when the file cannot be opened, the
    board is left with every cell dead.  A file without the marker gives
    no message; a file that cannot be opened gives the error message,
    and the error code is dropped. *)
Theorem initialize_grid_manual_empty ctx file :
  ctx_wf ctx ->
  match file with
  | Some content =>
      Forall (fun b => is_grid_marker b = false) (file_buffers content)
  | None => True
  end ->
  exists ctx',
    initialize_grid_manual ctx file =
      Some (ctx', if file is Some _ then [] else [msg_cannot_open]) /\
    same_frame ctx ctx' /\ all_dead ctx'.
Proof.
  intros Hwf Hfile. unfold initialize_grid_manual.
  destruct (clear_grid_spec ctx Hwf) as (ctx1 & -> & Hwf1 & Hf1 & Hdead).
  cbn [mbind option_bind].
  assert (Hdead1 : all_dead ctx1).
  { intros r c Hb. apply Hdead.
    destruct Hf1 as (Er & Ec & _). unfold in_bounds in *. by rewrite <- Er, <- Ec. }
  exists ctx1. destruct file as [content|]; cbn [parse_manual_config].
  - unfold parse_buffers. rewrite parse_header_lines by done.
    cbn [mbind option_bind fst snd in_grid_section andb parse_ctx]. done.
  - cbn [mbind option_bind fst snd]. done.
Qed.

Lemma initialize_grid_manual_empty_witness :
  exists ctx',
    initialize_grid_manual two_rows_ctx (Some header_only_file) = Some (ctx', []) /\
    same_frame two_rows_ctx ctx' /\ all_dead ctx'.
Proof.
  apply (initialize_grid_manual_empty two_rows_ctx (Some header_only_file)).
  - apply ctx_wfb_spec. reflexivity.
  - vm_compute. repeat constructor.
Defined.

(* ===================================================================== *)
(** ** Simulation loop: how long it runs *)
(* ===================================================================== *)

Section LoopLength.
Context {rng_state : Type}.
Variable srand : Z -> rng_state.
Variable rand : rng_state -> Z * rng_state.

Lemma process_event_frame now (st : sim_state rng_state) e :
  ctx_wf (sim_ctx st) ->
  exists st1, process_event srand rand now st e = Some st1 /\
    ctx_wf (sim_ctx st1) /\ same_frame (sim_ctx st) (sim_ctx st1) /\
    running st1 = (if e is SDL_QUIT then false else running st).
Proof.
  intros Hwf. destruct e as [|button x y|[| |]|]; cbn [process_event].
  - eexists. split; [done|]. split; [done|]. split; [apply same_frame_refl|done].
  - destruct (button =? SDL_BUTTON_LEFT).
    + destruct (handle_mouse_click_wf (sim_ctx st) x y Hwf)
        as (ctx' & -> & Hwf' & Hf).
      by eexists.
    + exists st. split; [done|]. split; [done|]. split; [apply same_frame_refl|done].
  - eexists. split; [done|]. split; [done|]. split; [apply same_frame_refl|done].
  - destruct (String.eqb _ _).
    + unfold initialize_grid_random. cbv zeta.
      destruct (fill_random_spec rand (sim_ctx st)
                  (srand (if seed (config (sim_ctx st)) =? 0
                          then to_uint now else seed (config (sim_ctx st)))) Hwf)
        as (ctx' & -> & Hwf' & Hf & _).
      by eexists.
    + eexists. split; [done|]. split; [done|]. split; [apply same_frame_refl|done].
  - exists st. split; [done|]. split; [done|]. split; [apply same_frame_refl|done].
  - exists st. split; [done|]. split; [done|]. split; [apply same_frame_refl|done].
Qed.

Lemma process_events_frame now events : forall st : sim_state rng_state,
  ctx_wf (sim_ctx st) -> SDL_QUIT ∉ events ->
  exists st1, for_each (process_event srand rand now) st events = Some st1 /\
    ctx_wf (sim_ctx st1) /\ same_frame (sim_ctx st) (sim_ctx st1) /\
    running st1 = running st.
Proof.
  induction events as [|e events IH]; intros st Hwf Hq.
  - exists st. split; [done|]. split; [done|]. split; [apply same_frame_refl|done].
  - apply not_elem_of_cons in Hq as [Hne Hq].
    destruct (process_event_frame now st e Hwf) as (st0 & E0 & Hwf0 & Hf0 & Hrun0).
    destruct (IH st0 Hwf0 Hq) as (st1 & E1 & Hwf1 & Hf1 & Hrun1).
    exists st1. cbn [for_each]. rewrite E0. split; [exact E1|]. split; [done|].
    split; [by eapply same_frame_trans|].
    rewrite Hrun1, Hrun0. by destruct e.
Qed.

(** With no step limit the loop does not stop by itself: after any
    number of ticks without a quit signal, whatever else the user did,
    the loop is still running and the board is allocated. *)
Theorem run_simulation_unlimited ctx rng inputs :
  ctx_wf ctx -> steps (config ctx) = 0 ->
  Forall (fun input => SDL_QUIT ∉ input.2) inputs ->
  exists st, run_simulation srand rand ctx rng inputs = Some st /\
    running st = true /\ ctx_wf (sim_ctx st) /\ same_frame ctx (sim_ctx st).
Proof.
  intros Hwf Hsteps Hin. unfold run_simulation.
  set (st0 := mk_sim_state true 0 ctx rng []).
  assert (H0 : running st0 = true /\ ctx_wf (sim_ctx st0) /\
               same_frame ctx (sim_ctx st0)).
  { split; [done|]. split; [done|]. apply same_frame_refl. }
  clearbody st0. revert st0 H0.
  induction Hin as [|[now events] inputs Hq _ IH]; intros st (Hrun & Hwf0 & Hf0).
  { by exists st. }
  cbn [run_ticks]. rewrite Hrun. unfold tick.
  destruct (process_events_frame now events st Hwf0 Hq)
    as (st1 & -> & Hwf1 & Hf1 & Hrun1).
  cbn [mbind option_bind]. rewrite (simulate_step_reference _ Hwf1).
  cbn [mbind option_bind]. cbv zeta. apply IH. cbn [running sim_ctx].
  assert (Hf : same_frame ctx (reference_step (sim_ctx st1))).
  { eapply same_frame_trans; [exact Hf0|].
    eapply same_frame_trans; [exact Hf1|apply reference_step_frame]. }
  split; [|split; [by apply reference_step_wf|done]].
  destruct Hf as (_ & _ & ->). rewrite Hsteps. cbn [Z.ltb Z.compare andb].
  congruence.
Qed.
End LoopLength.

Lemma run_simulation_unlimited_witness :
  exists st,
    run_simulation iso_srand iso_rand blinker_ctx 0
      [(0, [SDL_KEYDOWN SDLK_r]); (1, [SDL_MOUSEBUTTONDOWN 1 20 3])] = Some st /\
    running st = true /\ ctx_wf (sim_ctx st) /\
    same_frame blinker_ctx (sim_ctx st).
Proof.
  apply (run_simulation_unlimited iso_srand iso_rand blinker_ctx 0).
  - apply blinker_ctx_wf.
  - reflexivity.
  - repeat constructor; simpl; intros H;
      repeat (apply elem_of_cons in H as [H|H]; [discriminate H|]);
      by apply elem_of_nil in H.
Defined.

Section LoopLimit.
Context {rng_state : Type}.
Variable srand : Z -> rng_state.
Variable rand : rng_state -> Z * rng_state.

(** [k] idle ticks before the limit is reached. *)
Lemma run_ticks_idle (k : nat) : forall (st : sim_state rng_state) inputs,
  ctx_wf (sim_ctx st) -> running st = true ->
  0 <= generation st ->
  generation st + Z.of_nat (S k) = steps (config (sim_ctx st)) ->
  steps (config (sim_ctx st)) < UINT_MODULUS ->
  (S k <= length inputs)%nat ->
  Forall (fun input => input.2 = []) inputs ->
  exists st', run_ticks srand rand st inputs = Some st' /\
    running st' = false /\
    generation st' = steps (config (sim_ctx st)) /\
    generations (S k) (sim_ctx st) = Some (sim_ctx st') /\
    effects st' = effects st ++ idle_effects (S k) (sim_ctx st).
Proof.
  induction k as [|k IH]; intros st inputs Hwf Hrun Hgen Hsum Hlim Hlen Hidle.
  - destruct inputs as [|[now events] inputs]; [simpl in Hlen; lia|].
    apply Forall_cons in Hidle as [He _]. simpl in He. subst events.
    cbn [run_ticks]. rewrite Hrun. unfold tick. cbn [for_each mbind option_bind].
    cbn [generations idle_effects].
    rewrite (simulate_step_reference _ Hwf). cbn [mbind option_bind]. cbv zeta.
    assert (Hg : to_uint (generation st + 1) = generation st + 1).
    { unfold to_uint. apply Z.mod_small. lia. }
    assert (Hstop : (0 <? steps (config (reference_step (sim_ctx st)))) &&
                    (to_uint (generation st + 1) >=?
                       steps (config (reference_step (sim_ctx st)))) = true).
    { rewrite Hg. change (config (reference_step (sim_ctx st)))
        with (config (sim_ctx st)). apply andb_true_iff. lia. }
    rewrite Hstop.
    destruct inputs as [|[now' events'] inputs]; cbn [run_ticks running];
      (eexists; split; [reflexivity|]); cbn;
      (split; [done|]); (split; [lia|]); (split; [done|]);
      by rewrite <- app_assoc.
  - destruct inputs as [|[now events] inputs]; [simpl in Hlen; lia|].
    apply Forall_cons in Hidle as [He Hidle]. simpl in He. subst events.
    cbn [run_ticks]. rewrite Hrun. unfold tick. cbn [for_each mbind option_bind].
    remember (S k) as k1 eqn:Ek1.
    cbn [generations idle_effects].
    rewrite (simulate_step_reference _ Hwf). cbn [mbind option_bind]. cbv zeta.
    assert (Hg : to_uint (generation st + 1) = generation st + 1).
    { unfold to_uint. apply Z.mod_small. lia. }
    assert (Hgo : (0 <? steps (config (reference_step (sim_ctx st)))) &&
                  (to_uint (generation st + 1) >=?
                     steps (config (reference_step (sim_ctx st)))) = false).
    { rewrite Hg. change (config (reference_step (sim_ctx st)))
        with (config (sim_ctx st)). apply andb_false_iff. right. lia. }
    rewrite Hgo, Hrun. subst k1.
    edestruct (IH (mk_sim_state true (to_uint (generation st + 1))
                     (reference_step (sim_ctx st)) (sim_rng st)
                     ((effects st ++ [Rendered (grid (sim_ctx st))]) ++
                      [Stepped; Delayed FRAME_DELAY_MS])) inputs)
      as (st' & E & Hrun' & Hgen' & Hgens & Heff).
    + by apply reference_step_wf.
    + done.
    + cbn. lia.
    + cbn. rewrite Hg. change (config (reference_step (sim_ctx st)))
        with (config (sim_ctx st)). lia.
    + done.
    + simpl in Hlen. lia.
    + done.
    + exists st'. split; [exact E|]. split; [done|]. split; [done|].
      split; [done|]. rewrite Heff. cbn [effects sim_ctx].
      by rewrite <- !app_assoc.
Qed.

(** With a step limit of [n] and no input, the loop runs [n] ticks and
    stops: [n] frames are drawn, each followed by a step and the frame
    delay, the counter reads [n], and the board is generation [n]. *)
Theorem run_simulation_step_limit ctx rng inputs :
  ctx_wf ctx -> 0 < steps (config ctx) < UINT_MODULUS ->
  (Z.to_nat (steps (config ctx)) <= length inputs)%nat ->
  Forall (fun input => input.2 = []) inputs ->
  exists st, run_simulation srand rand ctx rng inputs = Some st /\
    running st = false /\ generation st = steps (config ctx) /\
    generations (Z.to_nat (steps (config ctx))) ctx = Some (sim_ctx st) /\
    effects st = idle_effects (Z.to_nat (steps (config ctx))) ctx.
Proof.
  intros Hwf Hsteps Hlen Hidle. unfold run_simulation.
  destruct (Z.to_nat (steps (config ctx))) as [|k] eqn:Ek; [lia|].
  destruct (run_ticks_idle k (mk_sim_state true 0 ctx rng []) inputs)
    as (st & E & Hrun & Hgen & Hgens & Heff); try done; cbn; try lia.
  by exists st.
Qed.
End LoopLimit.

Lemma run_simulation_step_limit_witness :
  exists st,
    run_simulation iso_srand iso_rand blinker_twice_ctx 0
      [(0, []); (1, []); (2, [])] = Some st /\
    running st = false /\ generation st = 2 /\
    sim_ctx st = blinker_twice_ctx /\ length (effects st) = 6%nat.
Proof.
  destruct (run_simulation_step_limit iso_srand iso_rand blinker_twice_ctx 0
              [(0, []); (1, []); (2, [])])
    as (st & E & Hrun & Hgen & Hgens & Heff).
  - apply ctx_wfb_spec. reflexivity.
  - simpl. unfold UINT_MODULUS. lia.
  - simpl. lia.
  - repeat constructor.
  - exists st. split; [exact E|]. split; [exact Hrun|]. split; [exact Hgen|].
    split.
    + pose proof (Hgens : Some blinker_twice_ctx = Some (sim_ctx st)) as G.
      by injection G.
    + rewrite Heff. reflexivity.
Defined.

Section LoopReset.
Context {rng_state : Type}.
Variable srand : Z -> rng_state.
Variable rand : rng_state -> Z * rng_state.

(** The [r] key.  On a random board with a non-zero seed it puts back
    the board and the generator state of the start of the program,
    whatever the board holds by then.  On a board of any other kind the
    cells stay as they are.  In both cases the generation counter
    restarts from 0. *)
Theorem reset_key (ctx0 : gol_context_t) now0 (st : sim_state rng_state) now :
  ctx_wf ctx0 -> ctx_wf (sim_ctx st) -> same_frame ctx0 (sim_ctx st) ->
  (config_type (config ctx0) = CONFIG_RANDOM -> seed (config ctx0) <> 0 ->
   exists start,
     initialize_grid_random srand rand ctx0 now0 = Some start /\
     process_event srand rand now st (SDL_KEYDOWN SDLK_r) =
       Some (mk_sim_state (running st) 0 start.1 start.2 (effects st))) /\
  (config_type (config ctx0) <> CONFIG_RANDOM ->
   process_event srand rand now st (SDL_KEYDOWN SDLK_r) =
     Some (mk_sim_state (running st) 0 (sim_ctx st) (sim_rng st) (effects st))).
Proof.
  intros Hwf0 Hwf (Er & Ec & Ecfg). cbn [process_event]. rewrite Ecfg. split.
  - intros -> Hseed. rewrite String.eqb_refl.
    unfold initialize_grid_random. cbv zeta. rewrite Ecfg.
    replace (seed (config ctx0) =? 0) with false by lia.
    destruct (fill_random_deterministic rand ctx0 (sim_ctx st)
                (srand (seed (config ctx0))) Hwf0 Hwf)
      as (r1 & r2 & -> & -> & _ & Hf1 & Hf2 & Hg & Hr); [done..|].
    exists r1. split; [done|]. cbn [mbind option_bind]. do 2 f_equal; [|done].
    destruct Hf1 as (Er1 & Ec1 & Ecfg1), Hf2 as (Er2 & Ec2 & Ecfg2).
    destruct r1 as [[n1 m1 g1 cfg1] rng1], r2 as [[n2 m2 g2 cfg2] rng2].
    simpl in *. congruence.
  - intros Hne. apply String.eqb_neq in Hne. by rewrite Hne.
Qed.
End LoopReset.

Lemma reset_key_witness :
  exists start,
    initialize_grid_random iso_srand iso_rand seeded_ctx 1000 = Some start /\
    process_event iso_srand iso_rand 2000
      (mk_sim_state true 7 seeded_ctx' 0 []) (SDL_KEYDOWN SDLK_r) =
    Some (mk_sim_state true 0 start.1 start.2 []).
Proof.
  assert (Hwf1 : ctx_wf seeded_ctx) by (apply ctx_wfb_spec; reflexivity).
  assert (Hwf2 : ctx_wf seeded_ctx') by (apply ctx_wfb_spec; reflexivity).
  assert (Hf : same_frame seeded_ctx seeded_ctx').
  { split; [reflexivity|]. split; reflexivity. }
  destruct (reset_key iso_srand iso_rand seeded_ctx 1000
              (mk_sim_state true 7 seeded_ctx' 0 []) 2000 Hwf1 Hwf2 Hf)
    as [Hrandom _].
  apply Hrandom; [reflexivity|discriminate].
Defined.

(* ===================================================================== *)
(** ** Grid deallocation *)
(* ===================================================================== *)

Module DeallocFacts.
Import Alloc AllocFacts.

Lemma pointer_array_full n ps :
  length ps = n -> pointer_array n ps = Some <$> ps.
Proof.
  intros <-. unfold pointer_array. by rewrite Nat.sub_diag, app_nil_r.
Qed.

Lemma deallocate_grid_heap ctx m garr ps :
  grid ctx = Some garr -> 0 <= rows ctx ->
  length ps = Z.to_nat (rows ctx) ->
  grid_blocks (blocks m) garr ps ->
  deallocate_grid ctx m =
    Some (mk_context (rows ctx) (cols ctx) None,
          mk_memory (delete garr (foldr delete (blocks m) ps)) (calls m)).
Proof.
  intros Hgrid Hrows Hlen (Harr & Hnd & Hg & Hlive).
  unfold deallocate_grid. rewrite Hgrid. unfold free_rows, for_range.
  pose proof (free_rows_todo garr ctx ps [] m) as Hfree.
  rewrite app_nil_l, pointer_array_full in Hfree by done.
  cbn [length] in Hfree. change (Z.of_nat 0) with 0 in Hfree.
  rewrite Hlen, Z2Nat.id in Hfree by done.
  rewrite Hfree by done. cbn [mbind option_bind].
  unfold free. cbn [blocks calls].
  rewrite lookup_foldr_delete_not_elem_of, Harr by done. done.
Qed.

(** [deallocate_grid] on a board in the heap frees the blocks of the
    rows and the array of row pointers, touches no other block, and
    clears the grid pointer. *)
Theorem deallocate_grid_frees ctx m garr ps :
  grid ctx = Some garr -> 0 <= rows ctx ->
  length ps = Z.to_nat (rows ctx) ->
  grid_blocks (blocks m) garr ps ->
  deallocate_grid ctx m =
    Some (mk_context (rows ctx) (cols ctx) None,
          mk_memory (delete garr (foldr delete (blocks m) ps)) (calls m)).
Proof. apply deallocate_grid_heap. Qed.

Lemma deallocate_grid_frees_witness :
  deallocate_grid (mk_context 2 1 (Some 1%positive)) board_memory =
    Some (mk_context 2 1 None,
          mk_memory {[ 3%positive := cell_row [CELL_ALIVE] ]} 3).
Proof.
  rewrite (deallocate_grid_frees _ _ 1%positive [2%positive; 4%positive]).
  - reflexivity.
  - reflexivity.
  - simpl. lia.
  - reflexivity.
  - split; [reflexivity|]. split.
    { apply NoDup_cons. split; [|apply NoDup_singleton].
      intros H. apply list_elem_of_singleton in H. discriminate H. }
    split.
    { intros H. apply elem_of_cons in H as [H|H]; [discriminate H|].
      apply list_elem_of_singleton in H. discriminate H. }
    intros p H. apply elem_of_cons in H as [->|H]; [by eexists|].
    apply list_elem_of_singleton in H as ->. by eexists.
Defined.

Lemma first_failure (f : nat -> bool) (d : nat) :
  (forall j, (j < d)%nat -> f j = true) \/
  exists i, (i < d)%nat /\ f i = false /\ forall j, (j < i)%nat -> f j = true.
Proof.
  induction d as [|d [IH|(i & Hi & Hf & Hb)]].
  - left. intros j Hj. lia.
  - destruct (f d) eqn:E.
    + left. intros j Hj. destruct (decide (j = d)) as [->|]; [done|].
      apply IH. lia.
    + right. exists d. split; [lia|]. split; [done|]. intros j Hj. by apply IH.
  - right. exists i. split; [lia|]. by split.
Qed.

(** [allocate_grid] returns: with the memory error, a null grid pointer
    and the heap of the call; or with success and the rows allocated. *)
Lemma allocate_grid_cases available ctx m :
  0 <= rows ctx ->
  (exists m',
     allocate_grid available ctx m =
       Some (GOL_ERROR_MEMORY, mk_context (rows ctx) (cols ctx) None, m') /\
     blocks m' = blocks m) \/
  (exists garr ps m',
     allocate_grid available ctx m =
       Some (GOL_SUCCESS, mk_context (rows ctx) (cols ctx) (Some garr), m') /\
     rows_allocated (blocks m) garr (Z.to_nat (rows ctx)) (cols ctx) ps
       (blocks m') /\
     length ps = Z.to_nat (rows ctx) /\
     calloc_succeeds available m (rows ctx) SIZEOF_POINTER = true /\
     forall j, (j < Z.to_nat (rows ctx))%nat ->
       row_request_ok available ctx (S (calls m) + j) = true).
Proof.
  intros Hrows. unfold allocate_grid, calloc.
  destruct (calloc_succeeds available m (rows ctx) SIZEOF_POINTER) eqn:Hok;
    [|left; by eexists].
  pose proof (rows_allocated_start (blocks m) ctx) as Hstart.
  cbv zeta in Hstart. set (garr := fresh (dom (blocks m))) in *.
  set (ctx1 := mk_context (rows ctx) (cols ctx) (Some garr)).
  set (m1 := mk_memory (<[garr := zero_pointers (rows ctx)]> (blocks m))
               (S (calls m))).
  assert (Hloop : seqZ 0 (rows ctx1) =
            seqZ (Z.of_nat (length (@nil loc)))
              (Z.of_nat (Z.to_nat (rows ctx1) - length (@nil loc)))).
  { simpl. f_equal. lia. }
  rewrite Hloop.
  destruct (first_failure
              (fun j => row_request_ok available ctx1 (calls m1 + j))
              (Z.to_nat (rows ctx1))) as [Hall|(i & Hi & Hfail & Hbefore)].
  - destruct (allocate_rows_success available (blocks m) garr ctx1
                (Z.to_nat (rows ctx1)) [] m1)
      as (ps' & m2 & -> & Hinv & Hlen); try done.
    cbn [mbind option_bind fst snd]. right.
    exists garr, ps', m2. split; [done|]. split; [done|]. split; [done|].
    split; [done|]. exact Hall.
  - destruct (allocate_rows_failure available (blocks m) garr ctx1 i [] m1)
      as (m2 & -> & Hm2); try done.
    cbn [mbind option_bind fst snd]. left. by exists m2.
Qed.

(** What a successful [allocate_grid] has built. *)
Lemma allocate_grid_success_inv available ctx m ctx' m' :
  0 <= rows ctx ->
  allocate_grid available ctx m = Some (GOL_SUCCESS, ctx', m') ->
  exists garr ps,
    ctx' = mk_context (rows ctx) (cols ctx) (Some garr) /\
    rows_allocated (blocks m) garr (Z.to_nat (rows ctx)) (cols ctx) ps
      (blocks m') /\
    length ps = Z.to_nat (rows ctx) /\
    calloc_succeeds available m (rows ctx) SIZEOF_POINTER = true /\
    forall j, (j < Z.to_nat (rows ctx))%nat ->
      row_request_ok available ctx (S (calls m) + j) = true.
Proof.
  intros Hrows Halloc.
  destruct (allocate_grid_cases available ctx m Hrows)
    as [(m1 & E & _)|(garr & ps & m1 & E & Hinv & Hlen & Hok & Hall)];
    rewrite E in Halloc; [discriminate|].
  injection Halloc as <- <-. by exists garr, ps.
Qed.

Lemma rows_allocated_grid_blocks h0 garr n cols ps h :
  rows_allocated h0 garr n cols ps h -> length ps = n ->
  grid_blocks h garr ps.
Proof.
  intros [Hfresh Hnd Hnew Harr Hrows Hrest Hlen] Hn.
  rewrite pointer_array_full in Harr by done.
  split; [done|]. split; [done|]. split.
  - intros Hin. by destruct (Hnew _ Hin).
  - intros p Hp. rewrite (Hrows _ Hp). by eexists.
Qed.

(** A successful [allocate_grid] returns a board whose rows are distinct
    new blocks of dead cells behind a new array of row pointers; every
    block the heap held before is still there, unchanged. *)
Theorem allocate_grid_fresh available ctx m ctx' m' :
  0 <= rows ctx ->
  allocate_grid available ctx m = Some (GOL_SUCCESS, ctx', m') ->
  exists garr ps,
    ctx' = mk_context (rows ctx) (cols ctx) (Some garr) /\
    length ps = Z.to_nat (rows ctx) /\
    grid_blocks (blocks m') garr ps /\
    blocks m !! garr = None /\
    (forall p, p ∈ ps ->
       blocks m !! p = None /\ blocks m' !! p = Some (zero_row (cols ctx))) /\
    (forall l b, blocks m !! l = Some b -> blocks m' !! l = Some b).
Proof.
  intros Hrows Halloc.
  destruct (allocate_grid_success_inv _ _ _ _ _ Hrows Halloc)
    as (garr & ps & -> & Hinv & Hlen & _).
  exists garr, ps. split; [done|]. split; [done|].
  split; [by eapply rows_allocated_grid_blocks|].
  destruct Hinv as [Hfresh Hnd Hnew Harr Hrws Hrest _].
  split; [done|]. split.
  - intros p Hp. split; [by destruct (Hnew _ Hp)|by apply Hrws].
  - intros l b Hl. rewrite Hrest; [done| |].
    + intros Hin. destruct (Hnew _ Hin) as [Hnone _]. congruence.
    + intros ->. congruence.
Qed.

Lemma allocate_grid_fresh_witness :
  exists ctx' m' garr (ps : list loc),
    allocate_grid (fun _ => true) (mk_context 2 2 None) busy_memory =
      Some (GOL_SUCCESS, ctx', m') /\
    ctx' = mk_context 2 2 (Some garr) /\ length ps = 2%nat /\
    blocks m' !! 3%positive = Some (cell_row [CELL_ALIVE]).
Proof.
  destruct (allocate_grid (fun _ => true) (mk_context 2 2 None) busy_memory)
    as [[[res ctx'] m']|] eqn:E; [|discriminate E].
  assert (Hres : res = GOL_SUCCESS).
  { vm_compute in E. injection E as <- _ _. reflexivity. }
  subst res.
  destruct (allocate_grid_fresh (fun _ => true) (mk_context 2 2 None)
              busy_memory ctx' m' ltac:(simpl; lia) E)
    as (garr & ps & Hctx & Hlen & _ & _ & _ & Hold).
  exists ctx', m', garr, ps. split; [reflexivity|]. split; [exact Hctx|].
  split; [exact Hlen|]. apply Hold. reflexivity.
Defined.

(** Allocation followed by deallocation gives back the heap: every
    block [allocate_grid] made is freed, no other block is touched, and
    the grid pointer is null again, so that a second [deallocate_grid]
    does nothing. *)
Theorem allocate_deallocate available ctx m ctx' m' :
  0 <= rows ctx ->
  allocate_grid available ctx m = Some (GOL_SUCCESS, ctx', m') ->
  exists ctx'' m'',
    deallocate_grid ctx' m' = Some (ctx'', m'') /\
    grid ctx'' = None /\ blocks m'' = blocks m /\
    deallocate_grid ctx'' m'' = Some (ctx'', m'').
Proof.
  intros Hrows Halloc.
  destruct (allocate_grid_success_inv _ _ _ _ _ Hrows Halloc)
    as (garr & ps & -> & Hinv & Hlen & _).
  eexists _, _. split.
  { apply (deallocate_grid_heap _ _ garr ps); [done..|].
    by eapply rows_allocated_grid_blocks. }
  split; [done|]. split; [|done]. cbn [blocks].
  exact (release_all (blocks m) garr
           (mk_context (rows ctx) (cols ctx) (Some garr)) ps (blocks m') Hinv).
Qed.

Lemma allocate_deallocate_witness :
  exists ctx' m' ctx'' m'',
    allocate_grid (fun _ => true) (mk_context 2 2 None) busy_memory =
      Some (GOL_SUCCESS, ctx', m') /\
    deallocate_grid ctx' m' = Some (ctx'', m'') /\
    grid ctx'' = None /\ blocks m'' = blocks busy_memory.
Proof.
  destruct (allocate_grid (fun _ => true) (mk_context 2 2 None) busy_memory)
    as [[[res ctx'] m']|] eqn:E; [|discriminate E].
  assert (Hres : res = GOL_SUCCESS).
  { vm_compute in E. injection E as <- _ _. reflexivity. }
  subst res.
  destruct (allocate_deallocate (fun _ => true) (mk_context 2 2 None)
              busy_memory ctx' m' ltac:(simpl; lia) E)
    as (ctx'' & m'' & Hfree & Hnull & Hheap & _).
  exists ctx', m', ctx'', m''. split; [reflexivity|]. split; [exact Hfree|].
  split; [exact Hnull|exact Hheap].
Defined.
End DeallocFacts.

(* ===================================================================== *)
(** ** Configuration file: facts *)
(* ===================================================================== *)

Lemma key_seen_cons {A} (f : list ascii -> option A) b buffers :
  key_seen f (b :: buffers) = bool_decide (is_Some (f b)) || key_seen f buffers.
Proof. reflexivity. Qed.

Lemma key_value_cons {A} (f : list ascii -> option A) d b buffers :
  key_value f d (b :: buffers) = key_value f (default d (f b)) buffers.
Proof.
  unfold key_value. destruct (f b) as [v|] eqn:E.
  - rewrite (omap_cons_Some _ _ _ _ E). rewrite last_cons.
    by destruct (last (omap f buffers)).
  - by rewrite (omap_cons_None _ _ _ E).
Qed.

Section ConfigFacts.
Variable sscanf_zu : list ascii -> string -> option Z.
Variable sscanf_u : list ascii -> string -> option Z.
Variable sscanf_s : list ascii -> string -> option string.

Local Abbreviation rows_of := (line_rows sscanf_zu).
Local Abbreviation cols_of := (line_cols sscanf_zu).
Local Abbreviation steps_of := (line_steps sscanf_zu sscanf_u).
Local Abbreviation seed_of := (line_seed sscanf_zu sscanf_u).
Local Abbreviation type_of := (line_type sscanf_zu sscanf_u sscanf_s).
Local Abbreviation scan_line := (config_line sscanf_zu sscanf_u sscanf_s).

(** One buffer: each field takes the value the buffer gives it, and
    keeps its own when the buffer gives none. *)
Lemma config_line_fields st b :
  scan_line st b =
  mk_config_state
    (rows_set st || bool_decide (is_Some (rows_of b)))
    (cols_set st || bool_decide (is_Some (cols_of b)))
    (config_set st || bool_decide (is_Some (type_of b)))
    (mk_config (default (cfg_rows (parsed st)) (rows_of b))
               (default (cfg_cols (parsed st)) (cols_of b))
               (default (steps (parsed st)) (steps_of b))
               (default (seed (parsed st)) (seed_of b))
               (default (config_type (parsed st)) (type_of b))).
Proof.
  destruct st as [rs cs ts [r c s sd t]].
  unfold config_line, line_rows, line_cols, line_steps, line_seed, line_type,
    is_skipped.
  cbv zeta. cbn [rows_set cols_set config_set parsed cfg_rows cfg_cols steps
                 seed config_type].
  destruct (_ || _); [by rewrite !orb_false_r|].
  destruct (sscanf_zu _ "@nrows %zu"); [by rewrite ?orb_false_r, ?orb_true_r|].
  destruct (sscanf_zu _ "@ncols %zu"); [by rewrite ?orb_false_r, ?orb_true_r|].
  destruct (sscanf_u _ "@steps %u"); [by rewrite ?orb_false_r, ?orb_true_r|].
  destruct (sscanf_u _ "@seed %u"); [by rewrite ?orb_false_r, ?orb_true_r|].
  destruct (sscanf_s _ "@config %199s"); by rewrite ?orb_false_r, ?orb_true_r.
Qed.

Lemma config_lines_fields buffers : forall st,
  foldl scan_line st buffers =
  mk_config_state
    (rows_set st || key_seen rows_of buffers)
    (cols_set st || key_seen cols_of buffers)
    (config_set st || key_seen type_of buffers)
    (mk_config (key_value rows_of (cfg_rows (parsed st)) buffers)
               (key_value cols_of (cfg_cols (parsed st)) buffers)
               (key_value steps_of (steps (parsed st)) buffers)
               (key_value seed_of (seed (parsed st)) buffers)
               (key_value type_of (config_type (parsed st)) buffers)).
Proof.
  induction buffers as [|b buffers IH]; intros st.
  - destruct st as [rs cs ts [r c s sd t]]. cbn. by rewrite !orb_false_r.
  - cbn [foldl]. rewrite IH, config_line_fields.
    cbn [rows_set cols_set config_set parsed cfg_rows cfg_cols steps seed
         config_type].
    rewrite !key_seen_cons, !key_value_cons, !orb_assoc. done.
Qed.

Lemma parse_config_file_fields_eq content config :
  (parse_config_file sscanf_zu sscanf_u sscanf_s (Some content) config).1.2 =
  mk_config
    (key_value rows_of (cfg_rows config) (file_buffers content))
    (key_value cols_of (cfg_cols config) (file_buffers content))
    (key_value steps_of 0 (file_buffers content))
    (key_value seed_of 0 (file_buffers content))
    (key_value type_of (config_type config) (file_buffers content)).
Proof.
  unfold parse_config_file. cbv zeta. rewrite config_lines_fields.
  cbn [rows_set cols_set config_set parsed cfg_rows cfg_cols steps seed
       config_type orb].
  destruct (_ || _); [done|]. by destruct (_ || _).
Qed.

(** The structure [parse_config_file] fills from a file it could open:
    every field holds the value of the last line that gives it one.
    Without such a line the steps and the seed are 0, and the rows, the
    columns and the type are what the caller passed in. *)
Theorem parse_config_file_fields content config :
  (parse_config_file sscanf_zu sscanf_u sscanf_s (Some content) config).1.2 =
  mk_config
    (key_value rows_of (cfg_rows config) (file_buffers content))
    (key_value cols_of (cfg_cols config) (file_buffers content))
    (key_value steps_of 0 (file_buffers content))
    (key_value seed_of 0 (file_buffers content))
    (key_value type_of (config_type config) (file_buffers content)).
Proof. apply parse_config_file_fields_eq. Qed.

Lemma parse_config_file_cases file config :
  match file with
  | None =>
      parse_config_file sscanf_zu sscanf_u sscanf_s None config =
        (GOL_ERROR_FILE, config, [msg_config_cannot_open])
  | Some content =>
      let r := parse_config_file sscanf_zu sscanf_u sscanf_s
                 (Some content) config in
      (r.1.1 = GOL_SUCCESS \/ r.1.1 = GOL_ERROR_CONFIG) /\
      (r.1.1 = GOL_SUCCESS <->
       key_seen rows_of (file_buffers content) = true /\
       key_seen cols_of (file_buffers content) = true /\
       key_seen type_of (file_buffers content) = true /\
       cfg_rows r.1.2 <> 0 /\ cfg_cols r.1.2 <> 0)
  end.
Proof.
  destruct file as [content|]; [|done]. cbv zeta.
  unfold parse_config_file. cbv zeta. rewrite config_lines_fields.
  cbn [rows_set cols_set config_set parsed cfg_rows cfg_cols steps seed
       config_type orb].
  destruct (key_seen rows_of (file_buffers content));
    [|split; [by right|]; split; [done|by intros (? & _)]].
  destruct (key_seen cols_of (file_buffers content));
    [|split; [by right|]; split; [done|by intros (_ & ? & _)]].
  destruct (key_seen type_of (file_buffers content));
    [|split; [by right|]; split; [done|by intros (_ & _ & ? & _)]].
  cbn [negb orb].
  destruct (key_value rows_of (cfg_rows config) (file_buffers content) =? 0) eqn:Er.
  { apply Z.eqb_eq in Er. cbn [orb fst snd cfg_rows]. split; [by right|].
    split; [done|]. by intros (_ & _ & _ & ? & _). }
  destruct (key_value cols_of (cfg_cols config) (file_buffers content) =? 0) eqn:Ec.
  { apply Z.eqb_eq in Ec. cbn [orb fst snd cfg_cols]. split; [by right|].
    split; [done|]. by intros (_ & _ & _ & _ & ?). }
  apply Z.eqb_neq in Er, Ec. cbn [orb fst snd cfg_rows cfg_cols].
  split; [by left|]. done.
Qed.

(** The result of [parse_config_file].  A file that cannot be opened
    gives [GOL_ERROR_FILE] and leaves the structure as it was.  A file
    that could be opened gives [GOL_SUCCESS] exactly if some line gives
    the rows, some line the columns, some line the type, and the rows
    and the columns read are not 0; it gives [GOL_ERROR_CONFIG] in every
    other case. *)
Theorem parse_config_file_result file config :
  match file with
  | None =>
      parse_config_file sscanf_zu sscanf_u sscanf_s None config =
        (GOL_ERROR_FILE, config, [msg_config_cannot_open])
  | Some content =>
      let r := parse_config_file sscanf_zu sscanf_u sscanf_s
                 (Some content) config in
      (r.1.1 = GOL_SUCCESS \/ r.1.1 = GOL_ERROR_CONFIG) /\
      (r.1.1 = GOL_SUCCESS <->
       key_seen rows_of (file_buffers content) = true /\
       key_seen cols_of (file_buffers content) = true /\
       key_seen type_of (file_buffers content) = true /\
       cfg_rows r.1.2 <> 0 /\ cfg_cols r.1.2 <> 0)
  end.
Proof. apply parse_config_file_cases. Qed.
End ConfigFacts.

Lemma parse_config_file_fields_witness :
  (parse_config_file plain_sscanf_number plain_sscanf_number plain_sscanf_word
     (Some random_config_file) empty_config).1.2 =
  mk_config 2 4 0 42 "random".
Proof. rewrite parse_config_file_fields. reflexivity. Defined.

Lemma parse_config_file_result_witness :
  parse_config_file plain_sscanf_number plain_sscanf_number plain_sscanf_word
    (Some random_config_file) empty_config =
    (GOL_SUCCESS, mk_config 2 4 0 42 "random", []) /\
  (parse_config_file plain_sscanf_number plain_sscanf_number plain_sscanf_word
     (Some header_only_file) empty_config).1.1 = GOL_SUCCESS /\
  (parse_config_file plain_sscanf_number plain_sscanf_number plain_sscanf_word
     (Some plain_file) empty_config).1.1 = GOL_ERROR_CONFIG.
Proof.
  split; [reflexivity|]. split.
  - apply (parse_config_file_result plain_sscanf_number plain_sscanf_number
             plain_sscanf_word (Some header_only_file) empty_config).
    repeat split; discriminate.
  - reflexivity.
Defined.

(* ===================================================================== *)
(** ** SDL set-up and tear-down: facts *)
(* ===================================================================== *)

Lemma sdl_destroy_window w world :
  live_windows world = [w] -> live_renderers world = [] ->
  sdl_step world (SDL_DestroyWindow w) =
    Some (mk_sdl_world (initialised world) [] []).
Proof.
  intros Hw Hr. cbn [sdl_step]. rewrite Hw, Hr.
  rewrite bool_decide_true by (by left). cbn.
  rewrite (bool_decide_false (w ∈ [])) by apply not_elem_of_nil.
  by rewrite bool_decide_true.
Qed.

Lemma sdl_destroy_renderer rd w world :
  live_renderers world = [(rd, w)] ->
  sdl_step world (SDL_DestroyRenderer rd) =
    Some (mk_sdl_world (initialised world) (live_windows world) []).
Proof.
  intros Hr. cbn [sdl_step]. rewrite Hr.
  rewrite bool_decide_true by (by left). cbn.
  by rewrite bool_decide_true.
Qed.

Lemma sdl_create_renderer w result world :
  live_windows world = [w] ->
  sdl_step world (SDL_CreateRenderer w result) =
    Some (mk_sdl_world (initialised world) [w]
            (match result with
             | Some r => (r, w) :: live_renderers world
             | None => live_renderers world
             end)).
Proof.
  intros Hw. cbn [sdl_step]. rewrite Hw.
  by rewrite bool_decide_true by (by left).
Qed.

Lemma sdl_run_cons world op ops :
  sdl_run world (op :: ops) = world' ← sdl_step world op; sdl_run world' ops.
Proof. reflexivity. Qed.

(** A step whose call needs no look-up among the live handles. *)
Ltac sdl_plain_step :=
  rewrite sdl_run_cons;
  cbn [sdl_step sdl_idle initialised orb live_windows live_renderers mbind
       option_bind].

(** [initialize_sdl] either succeeds, and then the library is
    initialised with one window and one renderer on it, both recorded in
    the context; or it returns [GOL_ERROR_SDL] with a message and leaves
    nothing behind: what it had made up to the failure is destroyed
    again.  It makes no call on anything that is not alive. *)
Theorem initialize_sdl_all_or_nothing init_ok new_window new_renderer
  rows cols h :
  let r := initialize_sdl init_ok new_window new_renderer rows cols h in
  match r.1.1.1 with
  | GOL_SUCCESS =>
      exists w rd, r.1.1.2 = mk_sdl_handles (Some w) (Some rd) /\
        sdl_run sdl_idle r.1.2 = Some (mk_sdl_world true [w] [(rd, w)]) /\
        r.2 = []
  | result =>
      result = GOL_ERROR_SDL /\ sdl_run sdl_idle r.1.2 = Some sdl_idle /\
      r.2 <> []
  end.
Proof.
  cbv zeta. unfold initialize_sdl.
  destruct init_ok; cbn [negb fst snd]; [|done].
  destruct new_window as [w|]; cbn [fst snd]; [|done].
  destruct new_renderer as [rd|]; cbn [fst snd].
  - exists w, rd. split; [done|]. split; [|done].
    do 2 sdl_plain_step. rewrite sdl_run_cons.
    by rewrite sdl_create_renderer.
  - split; [done|]. split; [|done].
    do 2 sdl_plain_step. rewrite sdl_run_cons.
    rewrite sdl_create_renderer by done. cbn [mbind option_bind].
    rewrite sdl_run_cons. by rewrite sdl_destroy_window.
Qed.

(** After a successful [initialize_sdl], [cleanup_sdl] destroys the
    renderer, then the window, and shuts the library down: nothing is
    left alive, and both handles of the context are null, so that a
    second [cleanup_sdl] destroys nothing. *)
Theorem initialize_cleanup_sdl new_window new_renderer rows cols h r :
  initialize_sdl true new_window new_renderer rows cols h = r ->
  r.1.1.1 = GOL_SUCCESS ->
  sdl_run sdl_idle (r.1.2 ++ (cleanup_sdl r.1.1.2).2) = Some sdl_idle /\
  (cleanup_sdl r.1.1.2).1 = mk_sdl_handles None None /\
  cleanup_sdl (cleanup_sdl r.1.1.2).1 = (mk_sdl_handles None None, [SDL_Quit]).
Proof.
  intros <-. unfold initialize_sdl. cbn [negb].
  destruct new_window as [w|]; cbn [fst snd]; [|done].
  destruct new_renderer as [rd|]; cbn [fst snd]; [|done].
  intros _. split; [|done].
  cbn [cleanup_sdl window renderer snd app].
  do 2 sdl_plain_step. rewrite sdl_run_cons.
  rewrite sdl_create_renderer by done. cbn [mbind option_bind].
  rewrite sdl_run_cons.
  rewrite (sdl_destroy_renderer rd w) by done. cbn [mbind option_bind].
  rewrite sdl_run_cons. by rewrite sdl_destroy_window.
Qed.

Lemma initialize_cleanup_sdl_witness :
  sdl_run sdl_idle
    ((initialize_sdl true (Some 1%positive) (Some 2%positive) 5 5
        (mk_sdl_handles None None)).1.2 ++
     [SDL_DestroyRenderer 2%positive; SDL_DestroyWindow 1%positive; SDL_Quit])
  = Some sdl_idle.
Proof.
  apply (initialize_cleanup_sdl (Some 1%positive) (Some 2%positive) 5 5
           (mk_sdl_handles None None) _ eq_refl eq_refl).
Defined.

(** The hazard [main] avoids: when the renderer cannot be made, the
    context keeps the pointer to the window that was destroyed, and a
    [cleanup_sdl] after that failure would destroy the window again. *)
Theorem cleanup_after_failed_renderer w rows cols h :
  let r := initialize_sdl true (Some w) None rows cols h in
  r.1.1.1 = GOL_ERROR_SDL /\ window r.1.1.2 = Some w /\
  sdl_run sdl_idle r.1.2 = Some sdl_idle /\
  sdl_run sdl_idle (r.1.2 ++ (cleanup_sdl r.1.1.2).2) = None.
Proof.
  cbv zeta. unfold initialize_sdl. cbn [negb fst snd].
  split; [done|]. split; [done|]. split.
  - do 2 sdl_plain_step. rewrite sdl_run_cons.
    rewrite sdl_create_renderer by done. cbn [mbind option_bind].
    rewrite sdl_run_cons. by rewrite sdl_destroy_window.
  - cbn [cleanup_sdl window renderer snd app].
    do 2 sdl_plain_step. rewrite sdl_run_cons.
    rewrite sdl_create_renderer by done. cbn [mbind option_bind].
    rewrite sdl_run_cons. rewrite sdl_destroy_window by done.
    cbn [mbind option_bind]. sdl_plain_step.
    rewrite sdl_run_cons. cbn [sdl_step live_windows].
    by rewrite bool_decide_false by (apply not_elem_of_nil).
Qed.

(** The window is as large as the board is drawn: with dimensions whose
    pixel sizes fit [int], [initialize_sdl] asks for a window of
    [cols * CELL_SIZE] by [rows * CELL_SIZE] pixels, and every square
    [render_grid] fills lies inside it. *)
Theorem squares_inside_window ctx new_window new_renderer h :
  ctx_wf ctx -> window_fits ctx ->
  SDL_CreateWindow (cols ctx * CELL_SIZE) (rows ctx * CELL_SIZE) new_window ∈
    (initialize_sdl true new_window new_renderer (rows ctx) (cols ctx) h).1.2 /\
  exists calls, render_grid ctx = Some calls /\
    Forall (inside_window (cols ctx * CELL_SIZE) (rows ctx * CELL_SIZE)) calls.
Proof.
  intros Hwf Hfit. pose proof Hwf as (Hr & _ & Hc & _).
  pose proof Hfit as [Hfr Hfc]. split.
  - unfold initialize_sdl. cbn [negb]. cbv zeta.
    rewrite !to_size_t_nonneg
      by (unfold CELL_SIZE, SIZE_MODULUS, INT_MAX in *; lia).
    rewrite !to_int_id by (unfold CELL_SIZE, INT_MIN, INT_MAX in *; lia).
    destruct new_window as [w|]; [destruct new_renderer as [rd|]|];
      cbn [fst snd]; right; left.
  - exists (frame_of (alive_cells ctx)). split; [by apply render_grid_frame|].
    unfold frame_of. repeat (apply Forall_cons; split; [done|]).
    apply Forall_app. split; [|by repeat constructor].
    apply Forall_forall. intros call Hin.
    apply list_elem_of_fmap in Hin as ([i j] & -> & Hin).
    apply list_elem_of_In, filter_In in Hin as [Hin _].
    apply list_elem_of_In, elem_of_row_major in Hin.
    cbn [inside_window fst snd]. unfold CELL_SIZE. lia.
Qed.

Lemma squares_inside_window_witness :
  exists calls, render_grid blinker_ctx = Some calls /\
    Forall (inside_window 40 40) calls.
Proof.
  apply (squares_inside_window blinker_ctx None None (mk_sdl_handles None None)).
  - apply blinker_ctx_wf.
  - unfold window_fits. simpl. unfold CELL_SIZE, INT_MAX. lia.
Defined.

(* ===================================================================== *)
(** ** The program: facts *)
(* ===================================================================== *)

Section LoopSafety.
Context {rng_state : Type}.
Variable srand : Z -> rng_state.
Variable rand : rng_state -> Z * rng_state.

Lemma process_events_any now events : forall st : sim_state rng_state,
  ctx_wf (sim_ctx st) ->
  exists st1, for_each (process_event srand rand now) st events = Some st1 /\
    ctx_wf (sim_ctx st1) /\ same_frame (sim_ctx st) (sim_ctx st1) /\
    (running st = false \/ SDL_QUIT ∈ events -> running st1 = false).
Proof.
  induction events as [|e events IH]; intros st Hwf.
  - exists st. split; [done|]. split; [done|]. split; [apply same_frame_refl|].
    intros [H|H]; [done|by apply elem_of_nil in H].
  - destruct (process_event_frame srand rand now st e Hwf)
      as (st0 & E0 & Hwf0 & Hf0 & Hrun0).
    destruct (IH st0 Hwf0) as (st1 & E1 & Hwf1 & Hf1 & Hrun1).
    exists st1. cbn [for_each]. rewrite E0. split; [exact E1|]. split; [done|].
    split; [by eapply same_frame_trans|].
    intros H. apply Hrun1. rewrite Hrun0. destruct H as [H|H].
    + left. rewrite H. by destruct e.
    + apply elem_of_cons in H as [<-|H]; [by left|by right].
Qed.

(** A tick on an allocated board returns, with the board allocated and
    of the same frame; it ends the loop when a quit signal is among its
    events. *)
Lemma tick_any (st : sim_state rng_state) now events :
  ctx_wf (sim_ctx st) ->
  exists st', tick srand rand st now events = Some st' /\
    ctx_wf (sim_ctx st') /\ same_frame (sim_ctx st) (sim_ctx st') /\
    (running st = false \/ SDL_QUIT ∈ events -> running st' = false).
Proof.
  intros Hwf. unfold tick.
  destruct (process_events_any now events st Hwf)
    as (st1 & -> & Hwf1 & Hf1 & Hrun1).
  cbn [mbind option_bind]. rewrite (simulate_step_reference _ Hwf1).
  cbn [mbind option_bind]. cbv zeta. eexists. split; [done|].
  cbn [sim_ctx running]. split; [by apply reference_step_wf|]. split.
  - eapply same_frame_trans; [exact Hf1|apply reference_step_frame].
  - intros H. rewrite (Hrun1 H). by destruct (_ && _).
Qed.

Lemma run_ticks_any inputs : forall st : sim_state rng_state,
  ctx_wf (sim_ctx st) ->
  exists st', run_ticks srand rand st inputs = Some st' /\
    ctx_wf (sim_ctx st') /\ same_frame (sim_ctx st) (sim_ctx st') /\
    (running st = false \/ (exists input, input ∈ inputs /\ SDL_QUIT ∈ input.2) ->
     running st' = false).
Proof.
  induction inputs as [|[now events] inputs IH]; intros st Hwf.
  - exists st. split; [done|]. split; [done|]. split; [apply same_frame_refl|].
    intros [H|(input & H & _)]; [done|by apply elem_of_nil in H].
  - cbn [run_ticks]. destruct (running st) eqn:Hrun.
    + destruct (tick_any st now events Hwf) as (st1 & -> & Hwf1 & Hf1 & Hrun1).
      cbn [mbind option_bind].
      destruct (IH st1 Hwf1) as (st' & E & Hwf' & Hf' & Hrun').
      exists st'. split; [done|]. split; [done|].
      split; [by eapply same_frame_trans|].
      intros [H|(input & Hin & Hq)]; [done|]. apply Hrun'.
      apply elem_of_cons in Hin as [->|Hin].
      * left. apply Hrun1. by right.
      * right. by exists input.
    + exists st. split; [done|]. split; [done|].
      split; [apply same_frame_refl|done].
Qed.
Lemma tick_effects (st st' : sim_state rng_state) now events :
  tick srand rand st now events = Some st' -> effects st' <> [].
Proof.
  unfold tick.
  destruct (for_each _ st events) as [st1|]; cbn [mbind option_bind]; [|done].
  destruct (simulate_step (sim_ctx st1)) as [ctx'|]; cbn [mbind option_bind];
    [|done].
  cbv zeta. intros [= <-]. cbn [effects]. intros H.
  by apply app_eq_nil in H as [_ H].
Qed.

Lemma run_ticks_effects inputs : forall st st' : sim_state rng_state,
  run_ticks srand rand st inputs = Some st' -> st' = st \/ effects st' <> [].
Proof.
  induction inputs as [|[now events] inputs IH]; intros st st'; cbn [run_ticks].
  - intros [= <-]. by left.
  - destruct (running st); [|intros [= <-]; by left].
    destruct (tick srand rand st now events) as [st1|] eqn:E;
      cbn [mbind option_bind]; [|done].
    intros H. right. destruct (IH _ _ H) as [->|Hne]; [|done].
    by eapply tick_effects.
Qed.
End LoopSafety.

Section HeapBoard.
Variable h0 : gmap Alloc.loc Alloc.block.
Variable actx : Alloc.gol_context_t.
Variable garr : Alloc.loc.
Variable ps : list Alloc.loc.

(** Storing rows of the right length into rows of the board keeps the
    board in the heap. *)
Lemma store_rows_spec (todo : list Alloc.loc) : forall (g : grid_t) m,
  board_in_heap h0 m actx garr ps ->
  todo ⊆ ps -> length todo = length g ->
  Forall (fun row => length row = Z.to_nat (Alloc.cols actx)) g ->
  exists m1, for_each store_row m (zip (Some <$> todo) g) = Some m1 /\
    board_in_heap h0 m1 actx garr ps.
Proof.
  induction todo as [|p todo IH]; intros g m Hinv Hsub Hlen Hg.
  { destruct g; [|done]. by exists m. }
  destruct g as [|row g]; [done|].
  apply Forall_cons in Hg as [Hrow Hg].
  assert (Hp : p ∈ ps) by (apply Hsub; by left).
  destruct (bh_cells _ _ _ _ _ Hinv p Hp) as (cs & Hcs & Hlcs).
  cbn [fmap list_fmap zip zip_with for_each]. unfold store_row at 2.
  cbn [fst snd mbind option_bind]. rewrite Hcs.
  rewrite bool_decide_true by congruence.
  apply IH; [|by (intros q Hq; apply Hsub; right)|by injection Hlen|done].
  assert (Hpg : p <> garr).
  { intros ->. by apply (bh_apart _ _ _ _ _ Hinv). }
  destruct Hinv as [H1 H2 H3 H4 H5 H6 H7 H8 H9 H10].
  constructor; cbn [Alloc.blocks]; try done.
  - by rewrite lookup_insert_ne.
  - intros q Hq. destruct (decide (q = p)) as [->|Hne].
    + rewrite lookup_insert_eq. by exists row.
    + rewrite lookup_insert_ne by done. by apply H7.
  - intros l Hl Hlg. rewrite lookup_insert_ne; [by apply H10|].
    intros ->. done.
Qed.

Lemma store_board_spec (g : grid_t) m :
  board_in_heap h0 m actx garr ps ->
  grid_wf (Alloc.rows actx) (Alloc.cols actx) g ->
  exists m1, store_board m actx g = Some m1 /\
    board_in_heap h0 m1 actx garr ps.
Proof.
  intros Hinv [Hlen Hrows]. unfold store_board.
  rewrite (bh_grid _ _ _ _ _ Hinv). cbn [mbind option_bind].
  rewrite (bh_array _ _ _ _ _ Hinv).
  pose proof (bh_length _ _ _ _ _ Hinv) as Hps.
  rewrite bool_decide_true by (rewrite length_fmap; congruence).
  apply store_rows_spec; [done|done|congruence|done].
Qed.

(** Freeing the board gives back the heap of the start. *)
Lemma deallocate_board m :
  board_in_heap h0 m actx garr ps ->
  exists r, Alloc.deallocate_grid actx m = Some r /\ Alloc.blocks r.2 = h0.
Proof.
  intros Hinv. pose proof Hinv as [H1 H2 H3 H4 H5 H6 H7 H8 H9 H10].
  eexists. split.
  { apply (DeallocFacts.deallocate_grid_heap actx m garr ps); [done..|].
    split; [done|]. split; [done|]. split; [done|].
    intros p Hp. destruct (H7 p Hp) as (cs & -> & _). by eexists. }
  cbn [snd Alloc.blocks]. apply map_eq. intros l.
  destruct (decide (l = garr)) as [->|Hlg].
  { by rewrite lookup_delete_eq. }
  rewrite lookup_delete_ne by done.
  destruct (decide (l ∈ ps)) as [Hin|Hnot].
  - rewrite lookup_foldr_delete by done. by rewrite H9.
  - rewrite lookup_foldr_delete_not_elem_of by done. by apply H10.
Qed.
End HeapBoard.

Lemma result_code_range r : 0 <= result_code r <= 5.
Proof. destruct r; simpl; lia. Qed.

Section ProgramRun.
Context {rng_state : Type}.
Variable srand : Z -> rng_state.
Variable rand : rng_state -> Z * rng_state.
Variable init_ok : bool.
Variable new_window : option handle.
Variable new_renderer : option handle.

(** From the initialised board to the end of [main]: when it returns,
    the heap is the heap of the start and SDL holds nothing; it returns
    unless the loop is still running after the last input, which a quit
    signal excludes. *)
Lemma main_run_spec h0 actx garr ps m ctx (rng : rng_state) inputs out :
  board_in_heap h0 m actx garr ps -> ctx_wf ctx ->
  rows ctx = Alloc.rows actx -> cols ctx = Alloc.cols actx ->
  match main_run srand rand init_ok new_window new_renderer actx m ctx rng
          inputs out with
  | Some o =>
      (Alloc.blocks (heap o) = h0 /\
       sdl_run sdl_idle (sdl_ops o) = Some sdl_idle /\
       0 <= exit_code o <= 5) /\
      reported o
  | None => ~ exists input, input ∈ inputs /\ SDL_QUIT ∈ input.2
  end.
Proof.
  intros Hinv Hwf Hrows Hcols.
  assert (Hstore : forall ctx', ctx_wf ctx' -> same_frame ctx ctx' ->
    exists m1 r, store_board m actx (grid ctx') = Some m1 /\
      Alloc.deallocate_grid actx m1 = Some r /\ Alloc.blocks r.2 = h0).
  { intros ctx' (_ & _ & _ & _ & Hg) (Er & Ec & _).
    rewrite Er, Ec, Hrows, Hcols in Hg.
    destruct (store_board_spec h0 actx garr ps _ m Hinv Hg) as (m1 & E1 & Hinv1).
    destruct (deallocate_board h0 actx garr ps m1 Hinv1) as (r & E2 & Hr).
    by exists m1, r. }
  unfold main_run, initialize_sdl.
  destruct init_ok; cbn [negb]; cbv beta iota zeta.
  - destruct new_window as [w|]; cbv beta iota zeta.
    + destruct new_renderer as [rd|]; cbv beta iota zeta.
      * unfold run_simulation.
        destruct (run_ticks_any srand rand inputs (mk_sim_state true 0 ctx rng [])
                    Hwf) as (st & Erun & Hwf' & Hf' & Hrun').
        rewrite Erun.
        cbn [mbind option_bind]. destruct (running st) eqn:Hrun.
        { intros Hq. specialize (Hrun' (or_intror Hq)). congruence. }
        unfold cleanup_sdl. cbn [window renderer]. cbv beta iota zeta.
        destruct (Hstore (sim_ctx st) Hwf' Hf') as (m1 & r & E1 & E2 & Hr);
        rewrite E1; cbn [mbind option_bind]; rewrite E2.
        cbn [mbind option_bind heap sdl_ops exit_code app].
        split.
        2:{ left. split; [done|]. cbn [shown].
            destruct (run_ticks_effects srand rand _ _ _ Erun) as [->|Hne];
              [discriminate Hrun|done]. }
        split; [done|]. split; [|simpl; lia].
        do 2 sdl_plain_step. rewrite sdl_run_cons.
        rewrite sdl_create_renderer by done. cbn [mbind option_bind].
        rewrite sdl_run_cons.
        rewrite (sdl_destroy_renderer rd w) by done. cbn [mbind option_bind].
        rewrite sdl_run_cons. by rewrite sdl_destroy_window.
      * destruct (Hstore ctx Hwf (same_frame_refl ctx)) as (m1 & r & E1 & E2 & Hr);
        rewrite E1; cbn [mbind option_bind]; rewrite E2.
        cbn [mbind option_bind heap sdl_ops exit_code].
        split; [|right; split; [done|]; split; [done|]; by destruct out].
        split; [done|]. split; [|simpl; lia].
        do 2 sdl_plain_step. rewrite sdl_run_cons.
        rewrite sdl_create_renderer by done. cbn [mbind option_bind].
        rewrite sdl_run_cons. by rewrite sdl_destroy_window.
    + destruct (Hstore ctx Hwf (same_frame_refl ctx)) as (m1 & r & E1 & E2 & Hr);
        rewrite E1; cbn [mbind option_bind]; rewrite E2.
      cbn [mbind option_bind heap sdl_ops exit_code].
      split; [|right; split; [done|]; split; [done|]; by destruct out].
      split; [done|]. split; [done|simpl; lia].
  - destruct (Hstore ctx Hwf (same_frame_refl ctx)) as (m1 & r & E1 & E2 & Hr);
        rewrite E1; cbn [mbind option_bind]; rewrite E2.
    cbn [mbind option_bind heap sdl_ops exit_code].
    split; [|right; split; [done|]; split; [done|]; by destruct out].
    split; [done|]. split; [done|simpl; lia].
Qed.
End ProgramRun.

Lemma plain_sscanf_number_size_t : scans_size_t plain_sscanf_number.
Proof.
  intros s format v. unfold plain_sscanf_number.
  destruct (after_key s format) as [rest|]; [|done]. cbn [mbind option_bind].
  destruct (digits_value None rest) as [v'|]; [|done]. cbn [mbind option_bind].
  destruct ((0 <=? v') && (v' <? UINT_MODULUS)) eqn:E; [|done].
  intros [= <-]. apply andb_true_iff in E as [H1 H2].
  unfold UINT_MODULUS, SIZE_MODULUS in *. lia.
Qed.

Lemma key_value_invariant {A} (P : A -> Prop) (f : list ascii -> option A) d
  buffers :
  (forall b v, f b = Some v -> P v) -> P d -> P (key_value f d buffers).
Proof.
  intros Hf. revert d. induction buffers as [|b buffers IH]; intros d Hd.
  - done.
  - rewrite key_value_cons. apply IH. destruct (f b) as [v|] eqn:E; [|done].
    simpl. by eapply Hf.
Qed.

Section ProgramFacts.
Context {rng_state : Type}.
Variable sscanf_zu : list ascii -> string -> option Z.
Variable sscanf_u : list ascii -> string -> option Z.
Variable sscanf_s : list ascii -> string -> option string.
Variable srand : Z -> rng_state.
Variable rand : rng_state -> Z * rng_state.
Variable available : nat -> bool.
Variable init_ok : bool.
Variable new_window : option handle.
Variable new_renderer : option handle.

(** A configuration that [parse_config_file] accepts has dimensions
    that are positive values of [size_t]. *)
Lemma parse_config_file_success file cfg msgs :
  scans_size_t sscanf_zu ->
  parse_config_file sscanf_zu sscanf_u sscanf_s file empty_config =
    (GOL_SUCCESS, cfg, msgs) ->
  0 < cfg_rows cfg < SIZE_MODULUS /\ 0 < cfg_cols cfg < SIZE_MODULUS.
Proof.
  intros Hscan E. destruct file as [content|]; [|discriminate].
  pose proof (parse_config_file_cases sscanf_zu sscanf_u sscanf_s
                (Some content) empty_config) as [_ Hiff].
  pose proof (parse_config_file_fields_eq sscanf_zu sscanf_u sscanf_s
                content empty_config) as Hfields.
  cbv zeta in Hiff. rewrite E in Hiff, Hfields. cbn [fst snd] in Hiff, Hfields.
  destruct (proj1 Hiff eq_refl) as (_ & _ & _ & Hr & Hc).
  assert (Hrange : 0 <= cfg_rows cfg < SIZE_MODULUS /\
                   0 <= cfg_cols cfg < SIZE_MODULUS).
  { rewrite Hfields. cbn [cfg_rows cfg_cols]. split.
    - apply (key_value_invariant (fun v => 0 <= v < SIZE_MODULUS));
        [|unfold SIZE_MODULUS; simpl; lia].
      intros b v. unfold line_rows. destruct (is_skipped b); [done|].
      apply Hscan.
    - apply (key_value_invariant (fun v => 0 <= v < SIZE_MODULUS));
        [|unfold SIZE_MODULUS; simpl; lia].
      intros b v. unfold line_cols. destruct (is_skipped b); [done|].
      destruct (sscanf_zu _ "@nrows %zu"); [done|]. apply Hscan. }
  lia.
Qed.

(** The heap after a successful [allocate_grid] holds the board, and the
    board read out of it is allocated. *)
Lemma allocated_board n c (h0 h : gmap Alloc.loc Alloc.block) garr ps k cfg :
  0 < n -> 0 <= c ->
  Alloc.rows_allocated h0 garr (Z.to_nat n) c ps h ->
  length ps = Z.to_nat n ->
  Alloc.calloc_succeeds available (Alloc.mk_memory h0 k) n Alloc.SIZEOF_POINTER
    = true ->
  Alloc.row_request_ok available (Alloc.mk_context n c None) (S k) = true ->
  forall calls',
  board_in_heap h0 (Alloc.mk_memory h calls')
    (Alloc.mk_context n c (Some garr)) garr ps /\
  exists ctx,
    load_board (Alloc.mk_memory h calls') (Alloc.mk_context n c (Some garr)) cfg
      = Some ctx /\
    ctx_wf ctx /\ rows ctx = n /\ cols ctx = c /\ config ctx = cfg.
Proof.
  intros Hn Hc Hinv Hlen Hok Hrow calls'.
  pose proof (AllocFacts.read_grid_allocated h0 garr
                (Alloc.mk_context n c (Some garr)) ps
                (Alloc.mk_memory h calls') Hinv Hlen) as Hread.
  destruct Hinv as [Hfresh Hnd Hnew Harr Hrows Hrest _].
  rewrite DeallocFacts.pointer_array_full in Harr by done.
  split.
  - constructor; cbn [Alloc.grid Alloc.rows Alloc.cols Alloc.blocks];
      try done; try lia.
    + intros Hin. by destruct (Hnew _ Hin).
    + intros p Hp. rewrite (Hrows _ Hp). eexists. split; [done|].
      by rewrite length_replicate.
    + intros p Hp. by destruct (Hnew _ Hp).
  - unfold load_board. cbn [Alloc.rows Alloc.cols] in Hread |- *.
    rewrite Hread. cbn [mbind option_bind]. eexists. split; [done|].
    split; [|done].
    unfold Alloc.calloc_succeeds in Hok. unfold Alloc.row_request_ok in Hrow.
    cbn [Alloc.cols] in Hrow.
    apply andb_true_iff in Hok as [Hok _]. apply andb_true_iff in Hrow as [Hrow _].
    split; [simpl; lia|]. split; [simpl; lia|]. split; [simpl; lia|].
    split; [simpl; lia|]. split; cbn [grid rows cols].
    + by rewrite length_replicate.
    + apply Forall_forall. intros row Hin.
      apply elem_of_replicate in Hin as [-> _]. by rewrite length_replicate.
Qed.

Lemma parse_config_file_failure file cfg0 result cfg msgs :
  parse_config_file sscanf_zu sscanf_u sscanf_s file cfg0 = (result, cfg, msgs) ->
  result <> GOL_SUCCESS -> msgs <> [].
Proof.
  unfold parse_config_file. destruct file as [content|]; [|by intros [= <- <- <-]].
  cbv zeta. destruct (_ || _); [by intros [= <- <- <-]|].
  destruct (_ || _); [by intros [= <- <- <-]|]. by intros [= <- <- <-].
Qed.

(** [main]: when it returns, it has left nothing behind and the exit
    code tells what happened; and it returns unless the loop is still
    running after the last input. *)
Lemma main_spec argc config_file pattern_file m now inputs :
  scans_size_t sscanf_zu ->
  match main sscanf_zu sscanf_u sscanf_s srand rand available init_ok
          new_window new_renderer argc config_file pattern_file m now inputs
  with
  | Some o => clean_exit m o /\ reported o
  | None => argc = 2 /\ ~ exists input, input ∈ inputs /\ SDL_QUIT ∈ input.2
  end.
Proof.
  intros Hscan. unfold main.
  destruct (argc =? 2) eqn:Hargc; cbn [negb].
  2:{ split; [split; [done|]; split; [done|]; simpl; lia|].
      right. by repeat split. }
  apply Z.eqb_eq in Hargc.
  destruct (parse_config_file sscanf_zu sscanf_u sscanf_s config_file
              empty_config) as [[result cfg] msgs] eqn:Ecfg.
  assert (Hfail : result <> GOL_SUCCESS ->
    clean_exit m (mk_outcome (result_code result) m [] [] (err_config <$> msgs)) /\
    reported (mk_outcome (result_code result) m [] [] (err_config <$> msgs))).
  { intros Hne. pose proof (parse_config_file_failure _ _ _ _ _ Ecfg Hne) as Hm.
    split.
    - split; [done|]. split; [done|]. apply result_code_range.
    - right. cbn [exit_code shown printed]. split; [by destruct result|].
      split; [done|]. by destruct msgs. }
  destruct result; try (by apply Hfail). clear Hfail.
  destruct (parse_config_file_success _ _ _ Hscan Ecfg) as [Hr Hc].
  destruct (DeallocFacts.allocate_grid_cases available
              (Alloc.mk_context (cfg_rows cfg) (cfg_cols cfg) None) m)
    as [(m1 & -> & Hm1)|(garr & ps & m1 & -> & Hinv & Hlen & Hok & Hall)];
    [simpl; lia| |]; cbn [mbind option_bind Alloc.rows Alloc.cols].
  { split; [split; [done|]; split; [done|]; simpl; lia|].
    right. by repeat split. }
  cbn [Alloc.rows Alloc.cols] in Hinv, Hlen, Hok, Hall.
  destruct m as [h0 k]. destruct m1 as [h calls'].
  cbn [Alloc.blocks Alloc.calls] in Hinv, Hall.
  destruct (allocated_board (cfg_rows cfg) (cfg_cols cfg) h0 h garr ps k cfg)
    with (calls' := calls')
    as (Hheap & ctx & -> & Hwf & Hrows & Hcols & Hcfg);
    [lia|lia|done|done|done| |].
  { rewrite <- (Hall 0%nat) by lia. by rewrite Nat.add_0_r. }
  cbn [mbind option_bind].
  destruct (String.eqb (config_type cfg) CONFIG_RANDOM).
  - unfold initialize_grid_random. cbv zeta.
    destruct (fill_random_spec rand ctx
                (srand (if seed (config ctx) =? 0 then to_uint now
                        else seed (config ctx))) Hwf)
      as (ctx' & -> & Hwf' & (Er & Ec & _) & _).
    cbn [mbind option_bind fst snd].
    pose proof (main_run_spec srand rand init_ok new_window new_renderer
                  h0 _ garr ps _ ctx'
                  (rng_after rand (length (row_major (rows ctx) (cols ctx)))
                     (srand (if seed (config ctx) =? 0 then to_uint now
                             else seed (config ctx))))
                  inputs [] Hheap Hwf') as Hrun.
    cbn [Alloc.rows Alloc.cols] in Hrun.
    specialize (Hrun ltac:(congruence) ltac:(congruence)).
    destruct (main_run _ _ _ _ _ _ _ _ _ _ _); [exact Hrun|by split].
  - destruct (String.eqb (config_type cfg) CONFIG_MANUAL).
    + destruct (initialize_grid_manual_total ctx pattern_file Hwf)
        as (ctx' & lines & -> & Hwf' & (Er & Ec & _) & _).
      cbn [mbind option_bind fst snd].
      pose proof (main_run_spec srand rand init_ok new_window new_renderer
                    h0 _ garr ps _ ctx' (srand 1) inputs (err_manual <$> lines)
                    Hheap Hwf') as Hrun.
      cbn [Alloc.rows Alloc.cols] in Hrun.
      specialize (Hrun ltac:(congruence) ltac:(congruence)).
      destruct (main_run _ _ _ _ _ _ _ _ _ _ _); [exact Hrun|by split].
    + destruct (deallocate_board h0 _ garr ps _ Hheap) as (r & -> & Hfree).
      cbn [mbind option_bind].
      split; [split; [done|]; split; [done|]; simpl; lia|].
      right. by repeat split.
Qed.
End ProgramFacts.

(** Whatever the arguments, the files, the allocator, SDL and the user
    do: when [main] returns, every heap block it allocated has been
    freed and no other block was touched, every window and renderer it
    made has been destroyed and SDL is shut down, and the exit code is
    one of the six result codes. *)
Theorem main_leaves_nothing {rng_state : Type}
  (sscanf_zu sscanf_u : list ascii -> string -> option Z)
  (sscanf_s : list ascii -> string -> option string)
  (srand : Z -> rng_state) (rand : rng_state -> Z * rng_state)
  (available : nat -> bool) (init_ok : bool)
  (new_window new_renderer : option handle)
  argc config_file pattern_file m now inputs o :
  scans_size_t sscanf_zu ->
  main sscanf_zu sscanf_u sscanf_s srand rand available init_ok new_window
    new_renderer argc config_file pattern_file m now inputs = Some o ->
  clean_exit m o.
Proof.
  intros Hscan E.
  pose proof (main_spec sscanf_zu sscanf_u sscanf_s srand rand available
                init_ok new_window new_renderer argc config_file pattern_file
                m now inputs Hscan) as H.
  rewrite E in H. by destruct H.
Qed.

Lemma main_leaves_nothing_witness :
  exists o,
    main plain_sscanf_number plain_sscanf_number plain_sscanf_word
      iso_srand iso_rand (fun _ => true) true (Some 1%positive) (Some 2%positive)
      2 (Some usage_file) (Some usage_file) Alloc.busy_memory 0
      [(0, []); (1, [SDL_QUIT])] = Some o /\
    clean_exit Alloc.busy_memory o.
Proof.
  destruct (main plain_sscanf_number plain_sscanf_number plain_sscanf_word
      iso_srand iso_rand (fun _ => true) true (Some 1%positive) (Some 2%positive)
      2 (Some usage_file) (Some usage_file) Alloc.busy_memory 0
      [(0, []); (1, [SDL_QUIT])]) as [o|] eqn:E; [|vm_compute in E; discriminate E].
  exists o. split; [reflexivity|].
  exact (main_leaves_nothing _ _ _ _ _ _ _ _ _ _ _ _ _ _ _ _
           plain_sscanf_number_size_t E).
Defined.

(** [main] returns whenever the user closes the window at some tick:
    on no path does the program read or write outside the board, free a
    block twice or use a handle that is not alive. *)
Theorem main_returns {rng_state : Type}
  (sscanf_zu sscanf_u : list ascii -> string -> option Z)
  (sscanf_s : list ascii -> string -> option string)
  (srand : Z -> rng_state) (rand : rng_state -> Z * rng_state)
  (available : nat -> bool) (init_ok : bool)
  (new_window new_renderer : option handle)
  argc config_file pattern_file m now inputs :
  scans_size_t sscanf_zu ->
  (exists input, input ∈ inputs /\ SDL_QUIT ∈ input.2) ->
  exists o,
    main sscanf_zu sscanf_u sscanf_s srand rand available init_ok new_window
      new_renderer argc config_file pattern_file m now inputs = Some o.
Proof.
  intros Hscan Hquit.
  pose proof (main_spec sscanf_zu sscanf_u sscanf_s srand rand available
                init_ok new_window new_renderer argc config_file pattern_file
                m now inputs Hscan) as H.
  destruct (main _ _ _ _ _ _ _ _ _ _ _ _ _ _ _) as [o|]; [by exists o|].
  by destruct H as [_ H].
Qed.

Lemma main_returns_witness :
  exists o,
    main plain_sscanf_number plain_sscanf_number plain_sscanf_word
      iso_srand iso_rand (fun _ => true) true (Some 1%positive) (Some 2%positive)
      2 (Some usage_file) None Alloc.busy_memory 0
      [(0, []); (1, [SDL_QUIT])] = Some o.
Proof.
  apply (main_returns plain_sscanf_number plain_sscanf_number plain_sscanf_word
           iso_srand iso_rand (fun _ => true) true (Some 1%positive)
           (Some 2%positive) 2 (Some usage_file) None Alloc.busy_memory 0
           [(0, []); (1, [SDL_QUIT])] plain_sscanf_number_size_t).
  exists (1, [SDL_QUIT]). split; [right; left|left].
Defined.

(** The loop on an allocated board returns for any sequence of events
    of any number of ticks, with the board still allocated and of the
    dimensions and configuration of the start; and a quit signal at some
    tick ends it. *)
Theorem run_simulation_safe {rng_state : Type}
  (srand : Z -> rng_state) (rand : rng_state -> Z * rng_state)
  ctx rng inputs :
  ctx_wf ctx ->
  exists st, run_simulation srand rand ctx rng inputs = Some st /\
    ctx_wf (sim_ctx st) /\ same_frame ctx (sim_ctx st) /\
    ((exists input, input ∈ inputs /\ SDL_QUIT ∈ input.2) ->
     running st = false).
Proof.
  intros Hwf. unfold run_simulation.
  destruct (run_ticks_any srand rand inputs (mk_sim_state true 0 ctx rng []) Hwf)
    as (st & E & Hwf' & Hf & Hrun).
  exists st. split; [done|]. split; [done|]. split; [done|].
  intros Hq. apply Hrun. by right.
Qed.

Lemma run_simulation_safe_witness :
  exists st,
    run_simulation iso_srand iso_rand blinker_ctx 0
      [(0, [SDL_MOUSEBUTTONDOWN 1 (-5) 1000; SDL_KEYDOWN SDLK_r]);
       (1, [SDL_QUIT; SDL_MOUSEBUTTONDOWN 1 20 3])] = Some st /\
    ctx_wf (sim_ctx st) /\ running st = false.
Proof.
  destruct (run_simulation_safe iso_srand iso_rand blinker_ctx 0
      [(0, [SDL_MOUSEBUTTONDOWN 1 (-5) 1000; SDL_KEYDOWN SDLK_r]);
       (1, [SDL_QUIT; SDL_MOUSEBUTTONDOWN 1 20 3])] blinker_ctx_wf)
    as (st & E & Hwf & _ & Hrun).
  exists st. split; [exact E|]. split; [exact Hwf|].
  apply Hrun. exists (1, [SDL_QUIT; SDL_MOUSEBUTTONDOWN 1 20 3]).
  split; [right; left|left].
Defined.

(** The exit code of [main] tells what happened.  With exit code 0 the
    window was there and the loop has drawn at least one frame.  With
    any other exit code no frame was drawn and a message was printed:
    the usage text, or an error line. *)
Theorem main_reports {rng_state : Type}
  (sscanf_zu sscanf_u : list ascii -> string -> option Z)
  (sscanf_s : list ascii -> string -> option string)
  (srand : Z -> rng_state) (rand : rng_state -> Z * rng_state)
  (available : nat -> bool) (init_ok : bool)
  (new_window new_renderer : option handle)
  argc config_file pattern_file m now inputs o :
  scans_size_t sscanf_zu ->
  main sscanf_zu sscanf_u sscanf_s srand rand available init_ok new_window
    new_renderer argc config_file pattern_file m now inputs = Some o ->
  reported o.
Proof.
  intros Hscan E.
  pose proof (main_spec sscanf_zu sscanf_u sscanf_s srand rand available
                init_ok new_window new_renderer argc config_file pattern_file
                m now inputs Hscan) as H.
  rewrite E in H. by destruct H.
Qed.

Lemma main_reports_witness :
  exists o,
    main plain_sscanf_number plain_sscanf_number plain_sscanf_word
      iso_srand iso_rand (fun _ => true) true (Some 1%positive) None
      2 (Some usage_file) (Some usage_file) Alloc.busy_memory 0
      [(0, []); (1, [SDL_QUIT])] = Some o /\
    exit_code o = 4 /\ reported o.
Proof.
  destruct (main plain_sscanf_number plain_sscanf_number plain_sscanf_word
      iso_srand iso_rand (fun _ => true) true (Some 1%positive) None
      2 (Some usage_file) (Some usage_file) Alloc.busy_memory 0
      [(0, []); (1, [SDL_QUIT])]) as [o|] eqn:E; [|vm_compute in E; discriminate E].
  exists o. split; [reflexivity|]. split.
  - vm_compute in E. injection E as <-. reflexivity.
  - exact (main_reports _ _ _ _ _ _ _ _ _ _ _ _ _ _ _ _
             plain_sscanf_number_size_t E).
Defined.
